(** * Read receipts, unread counters and event fan-out of the chat backend

    A shallow embedding of the sender service (write side), the receiver
    service (read side) and the unread-count hook of the front end, followed
    by the properties of the read-receipt and unread-counter state machines.

    Source files embedded here:
    - [sender-service/src/chat/chat.service.ts]            ([ChatService])
    - [sender-service/src/chat/unread-count.service.ts]    ([UnreadCountService])
    - [sender-service/src/message/message.service.ts]      ([MessageService])
    - [receiver-service/src/message/message.service.ts]    ([getMessageReadStatus])
    - [receiver-service/src/**/*.resolver.ts]              (subscription filters)
    - [frontend/src/hooks/useUnreadCounts.ts]              (client read model)
    - the entities and [init-db.sql]                       (tables). *)

From Stdlib Require Import List String ZArith Bool Arith Lia DecimalString DecimalNat.
Import ListNotations.

Open Scope string_scope.
Open Scope list_scope.

Set Implicit Arguments.

(* ================================================================== *)
(** * Entities *)
(* ================================================================== *)

(** Identifiers are strings, as in the source: user ids come from the
    client, primary keys are uuids generated by the store. Dates are
    readings of the store's logical clock. *)

Record Chat := mkChat {
  chat_id          : string;
  chat_name        : string;
  chat_description : option string;
  chatType         : string;
  participantIds   : list string;
  isActive         : bool;
  chat_createdAt   : nat;
  chat_updatedAt   : nat
}.

Record Message := mkMessage {
  msg_id        : string;
  msg_content   : string;
  msg_senderId  : string;
  msg_chatId    : string;
  isEdited      : bool;
  editedAt      : option nat;
  msg_createdAt : nat
}.

Record MessageRead := mkMessageRead {
  mr_id        : string;
  mr_messageId : string;
  mr_userId    : string;
  readAt       : nat
}.

(** [unreadCount] is a JavaScript number that only ever holds 0, 1 or a
    successor: it is modelled as an integer. *)
Record UnreadCount := mkUnreadCount {
  uc_id        : string;
  uc_chatId    : string;
  uc_userId    : string;
  unreadCount  : Z;
  uc_createdAt : nat;
  uc_updatedAt : nat
}.

Record CreateChatInput := mkCreateChatInput {
  cci_name           : string;
  cci_description    : option string;
  cci_chatType       : option string;
  cci_participantIds : list string
}.

Record CreateMessageInput := mkCreateMessageInput {
  cmi_content  : string;
  cmi_senderId : string;
  cmi_chatId   : string
}.

(** The payloads handed to [pubSub.publish], one constructor per topic. *)
Inductive Event :=
| messageAdded (m : Message)
| chatMessageNotification (chatId : string) (message : Message) (senderId : string)
| messageUpdateForChatList (chatId : string) (message : Message) (senderId : string)
| messageUpdated (m : Message)
| messageDeleted (id chatId : string)
| messageReadUpdated (messageId userId : string) (at_ : nat)
| unreadCountUpdated (chatId userId : string) (count : Z)
| chatAdded (c : Chat)
| chatUpdated (c : Chat).

(* ================================================================== *)
(** * The store and the broker *)
(* ================================================================== *)

(** Tables are lists of rows in insertion order. [published] is the log of
    the broker. [writes_left] is the availability of the store: [None] is a
    store that accepts every write, [Some n] one that accepts [n] more
    writes and then rejects them. *)
Record Store := mkStore {
  chats         : list Chat;
  messages      : list Message;
  message_reads : list MessageRead;
  unread_counts : list UnreadCount;
  published     : list Event;
  next_uuid     : nat;
  now           : nat;
  writes_left   : option nat
}.

Definition empty_store : Store :=
  mkStore [] [] [] [] [] 0 0 None.

Definition set_chats (v : list Chat) (s : Store) : Store :=
  mkStore v (messages s) (message_reads s) (unread_counts s) (published s)
          (next_uuid s) (now s) (writes_left s).
Definition set_messages (v : list Message) (s : Store) : Store :=
  mkStore (chats s) v (message_reads s) (unread_counts s) (published s)
          (next_uuid s) (now s) (writes_left s).
Definition set_message_reads (v : list MessageRead) (s : Store) : Store :=
  mkStore (chats s) (messages s) v (unread_counts s) (published s)
          (next_uuid s) (now s) (writes_left s).
Definition set_unread_counts (v : list UnreadCount) (s : Store) : Store :=
  mkStore (chats s) (messages s) (message_reads s) v (published s)
          (next_uuid s) (now s) (writes_left s).
Definition set_published (v : list Event) (s : Store) : Store :=
  mkStore (chats s) (messages s) (message_reads s) (unread_counts s) v
          (next_uuid s) (now s) (writes_left s).
Definition set_writes_left (v : option nat) (s : Store) : Store :=
  mkStore (chats s) (messages s) (message_reads s) (unread_counts s)
          (published s) (next_uuid s) (now s) v.
(** The clock advances with every write; an insert also consumes the
    generated key. *)
Definition tick (s : Store) : Store :=
  mkStore (chats s) (messages s) (message_reads s) (unread_counts s)
          (published s) (next_uuid s) (S (now s)) (writes_left s).
Definition fresh (s : Store) : Store :=
  mkStore (chats s) (messages s) (message_reads s) (unread_counts s)
          (published s) (S (next_uuid s)) (S (now s)) (writes_left s).

Definition gen_uuid (n : nat) : string :=
  "uuid-" ++ NilEmpty.string_of_uint (Nat.to_uint n).

(* ================================================================== *)
(** * What the tables accept *)
(* ================================================================== *)

(** The column types and constraints of [init-db.sql]. The repositories
    below are the queries as the services issue them, on ids that are
    uuids and on rows that the tables hold; the store rejects a statement
    with any other value ([QueryFailedError]). *)
Module Schema.

(** [UUID]: the uuids of this model are the texts [gen_uuid n]. *)
Definition uuid (id : string) : bool :=
  match NilEmpty.uint_of_string (substring 5 (String.length id - 5) id) with
  | Some d => String.eqb id (gen_uuid (Nat.of_uint d))
  | None => false
  end.

(** [INTEGER]: four bytes, signed. *)
Definition INTEGER (v : Z) : bool :=
  ((-2147483648 <=? v) && (v <=? 2147483647))%Z.

(** [VARCHAR(n)] *)
Definition VARCHAR (n : nat) (v : string) : bool :=
  (String.length v <=? n)%nat.

(** [chat_id UUID NOT NULL REFERENCES chats(id)] *)
Definition references_chat (s : Store) (chatId : string) : bool :=
  existsb (fun c => String.eqb (chat_id c) chatId) (chats s).

(** A row of [unread_counts]:
    [chat_id UUID NOT NULL REFERENCES chats(id)],
    [user_id VARCHAR(255) NOT NULL], [unread_count INTEGER]. *)
Definition unread_count_row (s : Store) (r : UnreadCount) : bool :=
  references_chat s (uc_chatId r) && VARCHAR 255 (uc_userId r)
  && INTEGER (unreadCount r).

(** A row of [message_reads]:
    [message_id UUID NOT NULL REFERENCES messages(id)],
    [user_id VARCHAR(255) NOT NULL]. *)
Definition message_read_row (s : Store) (r : MessageRead) : bool :=
  existsb (fun m => String.eqb (msg_id m) (mr_messageId r)) (messages s)
  && VARCHAR 255 (mr_userId r).

(** The table [unread_counts] of [s] is one the database holds. *)
Definition unread_counts_ok (s : Store) : bool :=
  forallb (unread_count_row s) (unread_counts s).

End Schema.

(* ================================================================== *)
(** * Asynchronous computations: state and exceptions *)
(* ================================================================== *)

Inductive Exception :=
| NotFoundException (msg : string)
| ForbiddenException (msg : string)
| QueryFailedError (msg : string)
| StoreUnavailable.

Inductive Result (A : Type) :=
| Ok (a : A)
| Throw (e : Exception).
Arguments Ok {A} a.
Arguments Throw {A} e.

(** An [async] method: it runs on the store and either returns or throws;
    what it did to the store before throwing stays done. *)
Definition Async (A : Type) := Store -> Result A * Store.

Definition ret {A} (a : A) : Async A := fun s => (Ok a, s).
Definition throw {A} (e : Exception) : Async A := fun s => (Throw e, s).
Definition bind {A B} (m : Async A) (k : A -> Async B) : Async B :=
  fun s => match m s with
           | (Ok a, s') => k a s'
           | (Throw e, s') => (Throw e, s')
           end.

Notation "x <- m ;; k" := (bind m (fun x => k))
  (at level 61, m at next level, right associativity).
Notation "m ;;; k" := (bind m (fun _ => k))
  (at level 61, right associativity).

(** [for (const x of l) { await f(x) }] *)
Fixpoint for_each {A} (l : list A) (f : A -> Async unit) : Async unit :=
  match l with
  | [] => ret tt
  | x :: l' => f x ;;; for_each l' f
  end.

(** Every [save] and [remove] first has to reach the store. *)
Definition db_write : Async unit :=
  fun s => match writes_left s with
           | None => (Ok tt, s)
           | Some 0 => (Throw StoreUnavailable, s)
           | Some (S n) => (Ok tt, set_writes_left (Some n) s)
           end.

(** [pubSub.publish(topic, payload)] *)
Definition publish (e : Event) : Async unit :=
  fun s => (Ok tt, set_published (published s ++ [e]) s).

(** [array.includes(x)] and [array.filter(id => id !== x)] on ids. *)
Definition includes (l : list string) (x : string) : bool :=
  existsb (String.eqb x) l.
Definition without (x : string) (l : list string) : list string :=
  filter (fun id => negb (String.eqb id x)) l.

(* ================================================================== *)
(** * Repositories *)
(* ================================================================== *)

(** [UPDATE ... WHERE id = r.id]: the rows with the primary key of [r]
    become [row]. *)
Definition replace_row {Row} (key : Row -> string) (r row : Row) (l : list Row)
  : list Row :=
  map (fun x => if String.eqb (key x) (key r) then row else x) l.

Module ChatRepository.

(** [findOne({ where: { id, isActive: true } })], for an [id] that is a
    uuid. *)
Definition findOne (id : string) : Async (option Chat) :=
  fun s => (Ok (find (fun c => String.eqb (chat_id c) id && isActive c) (chats s)), s).

(** [save(create(input))]: a new row with the column defaults. *)
Definition insert (input : CreateChatInput) : Async Chat :=
  db_write ;;;
  fun s =>
    let row := mkChat (gen_uuid (next_uuid s)) (cci_name input)
                      (cci_description input)
                      (match cci_chatType input with Some t => t | None => "group" end)
                      (cci_participantIds input) true (now s) (now s) in
    (Ok row, fresh (set_chats (chats s ++ [row]) s)).

(** [save(chat)] of a loaded row: update by primary key, taken as a
    write also when no column has changed. *)
Definition update (c : Chat) : Async Chat :=
  db_write ;;;
  fun s =>
    let row := mkChat (chat_id c) (chat_name c) (chat_description c) (chatType c)
                      (participantIds c) (isActive c) (chat_createdAt c) (now s) in
    (Ok row,
     tick (set_chats (replace_row chat_id c row (chats s)) s)).

End ChatRepository.

Module MessageRepository.

(** [findOne({ where: { id } })], for an [id] that is a uuid. *)
Definition findOne (id : string) : Async (option Message) :=
  fun s => (Ok (find (fun m => String.eqb (msg_id m) id) (messages s)), s).

Definition insert (input : CreateMessageInput) : Async Message :=
  db_write ;;;
  fun s =>
    let row := mkMessage (gen_uuid (next_uuid s)) (cmi_content input)
                         (cmi_senderId input) (cmi_chatId input) false None (now s) in
    (Ok row, fresh (set_messages (messages s ++ [row]) s)).

Definition update (m : Message) : Async Message :=
  db_write ;;;
  fun s =>
    (Ok m,
     tick (set_messages (replace_row msg_id m m (messages s)) s)).

(** [remove(message)]; [message_reads.message_id] is declared
    [ON DELETE CASCADE]. *)
Definition remove (m : Message) : Async unit :=
  db_write ;;;
  fun s =>
    (Ok tt,
     tick (set_message_reads
             (filter (fun r => negb (String.eqb (mr_messageId r) (msg_id m)))
                     (message_reads s))
             (set_messages (filter (fun r => negb (String.eqb (msg_id r) (msg_id m)))
                                   (messages s)) s))).

End MessageRepository.

Module MessageReadRepository.

Definition matches (messageId userId : string) (r : MessageRead) : bool :=
  String.eqb (mr_messageId r) messageId && String.eqb (mr_userId r) userId.

(** [findOne({ where: { messageId, userId } })] *)
Definition findOne (messageId userId : string) : Async (option MessageRead) :=
  fun s => (Ok (find (matches messageId userId) (message_reads s)), s).

(** [find({ where: { messageId } })] *)
Definition find_by_message (messageId : string) : Async (list MessageRead) :=
  fun s => (Ok (filter (fun r => String.eqb (mr_messageId r) messageId)
                       (message_reads s)), s).

Definition insert (messageId userId : string) : Async MessageRead :=
  db_write ;;;
  fun s =>
    let row := mkMessageRead (gen_uuid (next_uuid s)) messageId userId (now s) in
    (Ok row, fresh (set_message_reads (message_reads s ++ [row]) s)).

End MessageReadRepository.

Module UnreadCountRepository.

Definition matches (chatId userId : string) (r : UnreadCount) : bool :=
  String.eqb (uc_chatId r) chatId && String.eqb (uc_userId r) userId.

(** [findOne({ where: { chatId, userId } })] *)
Definition findOne (chatId userId : string) : Async (option UnreadCount) :=
  fun s => (Ok (find (matches chatId userId) (unread_counts s)), s).

(** [save(create({chatId, userId, unreadCount}))]; the entity is
    [@Unique(['chatId', 'userId'])]. The row is taken to be one the table
    holds ([Schema.unread_count_row]). *)
Definition insert (chatId userId : string) (count : Z) : Async UnreadCount :=
  db_write ;;;
  fun s =>
    if existsb (matches chatId userId) (unread_counts s)
    then (Throw (QueryFailedError "duplicate key value violates unique constraint"), s)
    else
      let row := mkUnreadCount (gen_uuid (next_uuid s)) chatId userId count
                               (now s) (now s) in
      (Ok row, fresh (set_unread_counts (unread_counts s ++ [row]) s)).

(** [save(row)] of a loaded row: update by primary key, taken as a write
    also when no column has changed, of a row the table holds. *)
Definition update (r : UnreadCount) : Async UnreadCount :=
  db_write ;;;
  fun s =>
    let row := mkUnreadCount (uc_id r) (uc_chatId r) (uc_userId r) (unreadCount r)
                             (uc_createdAt r) (now s) in
    (Ok row,
     tick (set_unread_counts (replace_row uc_id r row (unread_counts s)) s)).

End UnreadCountRepository.

(* ================================================================== *)
(** * Sender service (write side) *)
(* ================================================================== *)

Module ChatService.

Definition create (input : CreateChatInput) : Async Chat :=
  savedChat <- ChatRepository.insert input ;;
  publish (chatAdded savedChat) ;;;
  ret savedChat.

Definition findOne (id : string) : Async Chat :=
  chat <- ChatRepository.findOne id ;;
  match chat with
  | None => throw (NotFoundException ("Chat with ID " ++ id ++ " not found"))
  | Some c => ret c
  end.

Definition with_participants (l : list string) (c : Chat) : Chat :=
  mkChat (chat_id c) (chat_name c) (chat_description c) (chatType c) l
         (isActive c) (chat_createdAt c) (chat_updatedAt c).

Definition addParticipant (chatId userId : string) : Async Chat :=
  chat <- findOne chatId ;;
  if negb (includes (participantIds chat) userId)
  then ChatRepository.update
         (with_participants (participantIds chat ++ [userId]) chat)
  else ret chat.

Definition addParticipants (chatId : string) (userIds : list string) : Async Chat :=
  chat <- findOne chatId ;;
  let newParticipants :=
    filter (fun userId => negb (includes (participantIds chat) userId)) userIds in
  if (0 <? List.length newParticipants)%nat
  then
    savedChat <- ChatRepository.update
                   (with_participants (participantIds chat ++ newParticipants) chat) ;;
    publish (chatUpdated savedChat) ;;;
    ret savedChat
  else ret chat.

Definition removeParticipant (chatId userId : string) : Async Chat :=
  chat <- findOne chatId ;;
  ChatRepository.update (with_participants (without userId (participantIds chat)) chat).

Definition remove (chatId : string) : Async Chat :=
  chat <- findOne chatId ;;
  ChatRepository.update
    (mkChat (chat_id chat) (chat_name chat) (chat_description chat) (chatType chat)
            (participantIds chat) false (chat_createdAt chat) (chat_updatedAt chat)).

Definition isParticipant (chatId userId : string) : Async bool :=
  chat <- findOne chatId ;;
  ret (includes (participantIds chat) userId).

End ChatService.

Module UnreadCountService.

Definition with_count (n : Z) (r : UnreadCount) : UnreadCount :=
  mkUnreadCount (uc_id r) (uc_chatId r) (uc_userId r) n
                (uc_createdAt r) (uc_updatedAt r).

Definition incrementUnreadCount (chatId userId : string) : Async UnreadCount :=
  unreadCount_ <- UnreadCountRepository.findOne chatId userId ;;
  savedUnreadCount <-
    match unreadCount_ with
    | None => UnreadCountRepository.insert chatId userId 1
    | Some r => UnreadCountRepository.update (with_count (unreadCount r + 1) r)
    end ;;
  publish (unreadCountUpdated chatId userId (unreadCount savedUnreadCount)) ;;;
  ret savedUnreadCount.

Definition resetUnreadCount (chatId userId : string) : Async UnreadCount :=
  unreadCount_ <- UnreadCountRepository.findOne chatId userId ;;
  savedUnreadCount <-
    match unreadCount_ with
    | None => UnreadCountRepository.insert chatId userId 0
    | Some r => UnreadCountRepository.update (with_count 0 r)
    end ;;
  publish (unreadCountUpdated chatId userId (unreadCount savedUnreadCount)) ;;;
  ret savedUnreadCount.

(** [unreadCount?.unreadCount || 0] *)
Definition getUnreadCount (chatId userId : string) : Async Z :=
  unreadCount_ <- UnreadCountRepository.findOne chatId userId ;;
  ret (match unreadCount_ with
       | None => 0
       | Some r => if unreadCount r =? 0 then 0 else unreadCount r
       end)%Z.

End UnreadCountService.

Module MessageService.

Definition findOne (id : string) : Async Message :=
  message <- MessageRepository.findOne id ;;
  match message with
  | None => throw (NotFoundException ("Message with ID " ++ id ++ " not found"))
  | Some m => ret m
  end.

Definition create (input : CreateMessageInput) : Async Message :=
  isParticipant <- ChatService.isParticipant (cmi_chatId input) (cmi_senderId input) ;;
  if negb isParticipant
  then throw (ForbiddenException "User is not a participant in this chat")
  else
    savedMessage <- MessageRepository.insert input ;;
    publish (messageAdded savedMessage) ;;;
    publish (chatMessageNotification (cmi_chatId input) savedMessage
                                     (cmi_senderId input)) ;;;
    publish (messageUpdateForChatList (cmi_chatId input) savedMessage
                                      (cmi_senderId input)) ;;;
    chat <- ChatService.findOne (cmi_chatId input) ;;
    let otherParticipants := without (cmi_senderId input) (participantIds chat) in
    for_each otherParticipants
      (fun participantId =>
         UnreadCountService.incrementUnreadCount (cmi_chatId input) participantId ;;;
         ret tt) ;;;
    ret savedMessage.

Definition update (id content userId : string) : Async Message :=
  message <- findOne id ;;
  if negb (String.eqb (msg_senderId message) userId)
  then throw (ForbiddenException "Only the sender can edit this message")
  else
    fun s =>
      (updatedMessage <-
         MessageRepository.update
           (mkMessage (msg_id message) content (msg_senderId message)
                      (msg_chatId message) true (Some (now s))
                      (msg_createdAt message)) ;;
       publish (messageUpdated updatedMessage) ;;;
       ret updatedMessage) s.

(** The entity is read after [remove] as it was loaded. *)
Definition remove (id userId : string) : Async Message :=
  message <- findOne id ;;
  if negb (String.eqb (msg_senderId message) userId)
  then throw (ForbiddenException "Only the sender can delete this message")
  else
    MessageRepository.remove message ;;;
    publish (messageDeleted (msg_id message) (msg_chatId message)) ;;;
    ret message.

Definition markMessageAsRead (messageId userId : string) : Async MessageRead :=
  message <- findOne messageId ;;
  isParticipant <- ChatService.isParticipant (msg_chatId message) userId ;;
  if negb isParticipant
  then throw (ForbiddenException "User is not a participant in this chat")
  else
    existingRead <- MessageReadRepository.findOne messageId userId ;;
    match existingRead with
    | Some r => ret r
    | None =>
        savedRead <- MessageReadRepository.insert messageId userId ;;
        _chat <- ChatService.findOne (msg_chatId message) ;;
        unreadCount_ <- UnreadCountService.getUnreadCount (msg_chatId message) userId ;;
        (if (0 <? unreadCount_)%Z
         then UnreadCountService.resetUnreadCount (msg_chatId message) userId ;;; ret tt
         else ret tt) ;;;
        publish (messageReadUpdated messageId userId (readAt savedRead)) ;;;
        ret savedRead
    end.

End MessageService.

(* ================================================================== *)
(** * Receiver service (read side) *)
(* ================================================================== *)

Record MessageReadUser := mkMessageReadUser {
  mru_userId : string;
  mru_readAt : nat
}.

Record MessageReadStatus := mkMessageReadStatus {
  mrs_messageId     : string;
  totalParticipants : nat;
  readByCount       : nat;
  isFullyRead       : bool;
  readByUsers       : list MessageReadUser
}.

Module Receiver.

Definition getMessageReadStatus (messageId : string) : Async MessageReadStatus :=
  message <- MessageService.findOne messageId ;;
  chat <- ChatService.findOne (msg_chatId message) ;;
  let otherParticipants := without (msg_senderId message) (participantIds chat) in
  let totalParticipants := List.length otherParticipants in
  reads <- MessageReadRepository.find_by_message messageId ;;
  let readByCount := List.length reads in
  let isFullyRead := (totalParticipants <=? readByCount)%nat in
  let readByUsers := map (fun r => mkMessageReadUser (mr_userId r) (readAt r)) reads in
  ret (mkMessageReadStatus messageId totalParticipants readByCount isFullyRead
                           readByUsers).

(** A client subscription: the GraphQL field and its variable. *)
Inductive Subscription :=
| sub_messageAdded (chatId : string)
| sub_messageUpdated (chatId : string)
| sub_messageDeleted (chatId : string)
| sub_chatMessageNotification (userId : string)
| sub_messageUpdateForChatList (userId : string)
| sub_messageReadUpdated (messageId : string)
| sub_chatAdded (userId : string)
| sub_chatUpdated (userId : string)
| sub_unreadCountUpdated (userId : string).

(** The [filter] of each [@Subscription]; a subscription only sees the
    payloads of the topic its [asyncIterator] listens to. *)
Definition filter_ (sub : Subscription) (payload : Event) : bool :=
  match sub, payload with
  | sub_messageAdded chatId, messageAdded m => String.eqb (msg_chatId m) chatId
  | sub_messageUpdated chatId, messageUpdated m => String.eqb (msg_chatId m) chatId
  | sub_messageDeleted chatId, messageDeleted _ c => String.eqb c chatId
  | sub_chatMessageNotification userId, chatMessageNotification _ _ senderId =>
      negb (String.eqb senderId userId)
  | sub_messageUpdateForChatList userId, messageUpdateForChatList _ _ senderId =>
      negb (String.eqb senderId userId)
  | sub_messageReadUpdated messageId, messageReadUpdated m _ _ => String.eqb m messageId
  | sub_chatAdded userId, chatAdded c => includes (participantIds c) userId
  | sub_chatUpdated userId, chatUpdated c => includes (participantIds c) userId
  | sub_unreadCountUpdated userId, unreadCountUpdated _ u _ => String.eqb u userId
  | _, _ => false
  end.

(** Fan-out of one broker event to the registered client subscriptions. *)
Definition forward (registry : list Subscription) (payload : Event) : list Subscription :=
  filter (fun sub => filter_ sub payload) registry.

End Receiver.

(* ================================================================== *)
(** * Client read model: [useUnreadCounts] *)
(* ================================================================== *)

Module Client.

(** [Record<string, number>]: chatId -> count *)
Definition UnreadCounts := list (string * Z).

Fixpoint lookup (chatId : string) (m : UnreadCounts) : option Z :=
  match m with
  | [] => None
  | (k, v) :: m' => if String.eqb k chatId then Some v else lookup chatId m'
  end.

(** [{ ...prev, [update.chatId]: update.unreadCount }] *)
Fixpoint assign (chatId : string) (v : Z) (prev : UnreadCounts) : UnreadCounts :=
  match prev with
  | [] => [(chatId, v)]
  | (k, w) :: m' => if String.eqb k chatId then (k, v) :: m'
                    else (k, w) :: assign chatId v m'
  end.

(** [onData] of the [unreadCountUpdated] subscription of user [userId]:
    the receiver forwards only the payloads that pass the filter. *)
Definition onData (userId : string) (prev : UnreadCounts) (payload : Event)
  : UnreadCounts :=
  if Receiver.filter_ (Receiver.sub_unreadCountUpdated userId) payload
  then match payload with
       | unreadCountUpdated chatId _ count => assign chatId count prev
       | _ => prev
       end
  else prev.

(** [unreadCounts[chatId] || 0] *)
Definition getUnreadCount (m : UnreadCounts) (chatId : string) : Z :=
  match lookup chatId m with
  | None => 0
  | Some v => if (v =? 0)%Z then 0 else v
  end%Z.

(** [getUnreadCount(chatId) > 0] *)
Definition hasUnreadMessages (m : UnreadCounts) (chatId : string) : bool :=
(0 <? getUnreadCount m chatId)%Z.

End Client.

(* ================================================================== *)
(** * Commands of the sender service and reachable stores *)
(* ================================================================== *)

(** The mutations exposed by [ChatResolver] and [MessageResolver] of the
    sender service. *)
Inductive Command :=
| createChat (createChatInput : CreateChatInput)
| addParticipant (chatId userId : string)
| addParticipants (chatId : string) (userIds : list string)
| removeParticipant (chatId userId : string)
| removeChat (id : string)
| createMessage (createMessageInput : CreateMessageInput)
| updateMessage (id content userId : string)
| removeMessage (id userId : string)
| markMessageAsRead (messageId userId : string).

Definition discard {A} (m : Async A) : Async unit := m ;;; ret tt.

Definition execute (c : Command) : Async unit :=
  match c with
  | createChat input => discard (ChatService.create input)
  | addParticipant chatId userId => discard (ChatService.addParticipant chatId userId)
  | addParticipants chatId userIds => discard (ChatService.addParticipants chatId userIds)
  | removeParticipant chatId userId =>
      discard (ChatService.removeParticipant chatId userId)
  | removeChat id => discard (ChatService.remove id)
  | createMessage input => discard (MessageService.create input)
  | updateMessage id content userId => discard (MessageService.update id content userId)
  | removeMessage id userId => discard (MessageService.remove id userId)
  | markMessageAsRead messageId userId =>
      discard (MessageService.markMessageAsRead messageId userId)
  end.

(** The store after a sequence of commands, failed ones included. *)
Definition run (cs : list Command) (s : Store) : Store :=
  fold_left (fun s c => snd (execute c s)) cs s.

(** Stores that arise from the empty one by commands, with the store
    becoming unavailable or available again at any moment. *)
Inductive reachable : Store -> Prop :=
| reachable_empty : reachable empty_store
| reachable_execute s c : reachable s -> reachable (snd (execute c s))
| reachable_outage s w : reachable s -> reachable (set_writes_left w s).



(* ================================================================== *)
(** * Well-formed stores *)
(* ================================================================== *)

(** [id] is one of the keys the store has generated so far. *)
Definition generated (n : nat) (id : string) : Prop :=
  exists k, k < n /\ id = gen_uuid k.

Definition receipt_key (r : MessageRead) : string * string :=
  (mr_messageId r, mr_userId r).

(** Primary keys are distinct and were generated by the store, unread
    counts are not negative and no (message, user) pair has two receipts. *)
Record wf (s : Store) : Prop := mk_wf {
  wf_uc_ids   : NoDup (map uc_id (unread_counts s));
  wf_uc_gen   : Forall (generated (next_uuid s)) (map uc_id (unread_counts s));
  wf_chat_ids : NoDup (map chat_id (chats s));
  wf_chat_gen : Forall (generated (next_uuid s)) (map chat_id (chats s));
  wf_nonneg   : Forall (fun r => (0 <= unreadCount r)%Z) (unread_counts s);
  wf_receipts : NoDup (map receipt_key (message_reads s))
}.

(** The row of a key in a table, as [findOne] sees it. *)
Definition stored_count (chatId userId : string) (s : Store) : option Z :=
  option_map unreadCount
             (find (UnreadCountRepository.matches chatId userId) (unread_counts s)).

(** The value a missing row stands for. *)
Definition count_of (chatId userId : string) (s : Store) : Z :=
  match stored_count chatId userId s with
  | Some n => n
  | None => 0%Z
  end.

(** [userId] holds a read receipt for [messageId]. *)
Definition holds_receipt (s : Store) (messageId userId : string) : Prop :=
  exists r, In r (message_reads s) /\
            mr_messageId r = messageId /\ mr_userId r = userId.

(** The reading of "fully read" in the specification: every participant
    other than the sender holds a receipt. *)
Definition read_by_all_others (s : Store) (m : Message) (c : Chat) : Prop :=
  forall u, In u (participantIds c) -> u <> msg_senderId m ->
            holds_receipt s (msg_id m) u.

(* ================================================================== *)
(** * The unread counter as a state machine *)
(* ================================================================== *)

Inductive CounterOp :=
| increment (chatId userId : string)
| resetToZero (chatId userId : string).

Definition apply_op (op : CounterOp) : Async UnreadCount :=
  match op with
  | increment chatId userId => UnreadCountService.incrementUnreadCount chatId userId
  | resetToZero chatId userId => UnreadCountService.resetUnreadCount chatId userId
  end.

(** Operations one after the other. *)
Definition run_ops (ops : list CounterOp) (s : Store) : Store :=
  fold_left (fun s op => snd (apply_op op s)) ops s.

Definition is_increment (chatId userId : string) (op : CounterOp) : bool :=
  match op with
  | increment c u => String.eqb c chatId && String.eqb u userId
  | resetToZero _ _ => false
  end.

Definition is_reset (chatId userId : string) (op : CounterOp) : bool :=
  match op with
  | increment _ _ => false
  | resetToZero c u => String.eqb c chatId && String.eqb u userId
  end.

(** The number of increments of a key that no reset of that key follows. *)
Fixpoint increments_after_last_reset (chatId userId : string) (ops : list CounterOp)
  : nat :=
  match ops with
  | [] => 0
  | op :: rest =>
      if existsb (is_reset chatId userId) rest
      then increments_after_last_reset chatId userId rest
      else (if is_increment chatId userId op then 1 else 0)
           + increments_after_last_reset chatId userId rest
  end.

(** ** Calls in flight

    An [async] call yields at every [await]. Between two awaits of one
    call of [incrementUnreadCount] or [resetUnreadCount], another call, of
    this or of another instance of the service, may run. *)
Inductive Progress :=
| at_findOne
| at_save (unreadCount_ : option UnreadCount)
| at_publish (savedUnreadCount : UnreadCount)
| settled (r : Result UnreadCount).

Record Call := mkCall {
  call_op : CounterOp;
  call_at : Progress
}.

Definition start (op : CounterOp) : Call := mkCall op at_findOne.

Definition op_chatId (op : CounterOp) : string :=
  match op with increment c _ | resetToZero c _ => c end.
Definition op_userId (op : CounterOp) : string :=
  match op with increment _ u | resetToZero _ u => u end.

(** The next await of a call. *)
Definition advance (c : Call) (s : Store) : Call * Store :=
  let op := call_op c in
  match call_at c with
  | at_findOne =>
      match UnreadCountRepository.findOne (op_chatId op) (op_userId op) s with
      | (Ok found, s') => (mkCall op (at_save found), s')
      | (Throw e, s') => (mkCall op (settled (Throw e)), s')
      end
  | at_save found =>
      match
        match found, op with
        | None, increment c u => UnreadCountRepository.insert c u 1
        | None, resetToZero c u => UnreadCountRepository.insert c u 0
        | Some r, increment _ _ =>
            UnreadCountRepository.update
              (UnreadCountService.with_count (unreadCount r + 1) r)
        | Some r, resetToZero _ _ =>
            UnreadCountRepository.update (UnreadCountService.with_count 0 r)
        end s
      with
      | (Ok saved, s') => (mkCall op (at_publish saved), s')
      | (Throw e, s') => (mkCall op (settled (Throw e)), s')
      end
  | at_publish saved =>
      match publish (unreadCountUpdated (op_chatId op) (op_userId op)
                                        (unreadCount saved)) s with
      | (_, s') => (mkCall op (settled (Ok saved)), s')
      end
  | settled _ => (c, s)
  end.

(** Replace the [i]-th call. *)
Fixpoint set_nth {A} (i : nat) (x : A) (l : list A) : list A :=
  match l, i with
  | [], _ => []
  | _ :: l', 0 => x :: l'
  | y :: l', S i' => y :: set_nth i' x l'
  end.

(** A schedule names, await by await, the call that runs next. *)
Fixpoint interleave (schedule : list nat) (calls : list Call) (s : Store)
  : list Call * Store :=
  match schedule with
  | [] => (calls, s)
  | i :: schedule' =>
      match nth_error calls i with
      | None => interleave schedule' calls s
      | Some c =>
          let (c', s') := advance c s in
          interleave schedule' (set_nth i c' calls) s'
      end
  end.

(** The schedule that runs [n] calls one after the other, each through
    its three awaits. *)
Fixpoint serial_from (i n : nat) : list nat :=
  match n with
  | 0 => []
  | S n' => i :: i :: i :: serial_from (S i) n'
  end.
Definition serial (n : nat) : list nat := serial_from 0 n.

(** What a counter operation that went through has done: [row] is the
    saved row, [n] the value the operation writes. *)
Record counter_post (chatId userId : string) (n : Z) (s : Store)
       (row : UnreadCount) (s' : Store) : Prop := mk_counter_post {
  cp_value     : unreadCount row = n;
  cp_stored    : find (UnreadCountRepository.matches chatId userId) (unread_counts s')
                 = Some row;
  cp_others    : forall c u, UnreadCountRepository.matches chatId userId
                               (mkUnreadCount "" c u 0 0 0) = false ->
                             find (UnreadCountRepository.matches c u) (unread_counts s')
                             = find (UnreadCountRepository.matches c u) (unread_counts s);
  cp_published : published s' = published s ++ [unreadCountUpdated chatId userId n];
  cp_chats     : chats s' = chats s;
  cp_messages  : messages s' = messages s;
  cp_reads     : message_reads s' = message_reads s;
  cp_available : writes_left s = None -> writes_left s' = None;
  cp_wf        : wf s'
}.

(** The value an operation writes, given the value it finds. *)
Definition written (op : CounterOp) (found : Z) : Z :=
  match op with
  | increment _ _ => (found + 1)%Z
  | resetToZero _ _ => 0%Z
  end.

(** A computation that keeps stores well-formed, whether it returns or
    throws. *)
Definition keeps {A} (m : Async A) : Prop :=
  forall s, wf s -> wf (snd (m s)).

(** [op] is an operation on the counter of ([chatId], [userId]). *)
Definition touches (chatId userId : string) (op : CounterOp) : bool :=
  is_increment chatId userId op || is_reset chatId userId op.

(* ================================================================== *)
(** * Concrete stores *)
(* ================================================================== *)

(** Chat [uuid-0] with participants U1, U2 and U3, in which U1 has sent
    "hi" (message [uuid-1]). *)
Definition scenario_A : list Command :=
  [ createChat (mkCreateChatInput "C" None None ["U1"; "U2"; "U3"]);
    createMessage (mkCreateMessageInput "hi" "U1" "uuid-0") ].

Definition store_A : Store := run scenario_A empty_store.

(** The receipts of one (message, user) pair. *)
Definition receipts_of (messageId userId : string) (s : Store) : list MessageRead :=
  filter (MessageReadRepository.matches messageId userId) (message_reads s).

(** Events of the [unreadCountUpdated] topic; a reset publishes one. *)
Definition is_counter_update (e : Event) : bool :=
  match e with
  | unreadCountUpdated _ _ _ => true
  | _ => false
  end.

(** A chat created with U2 listed twice. *)
Definition store_duplicate : Store :=
  run [createChat (mkCreateChatInput "C" None None ["U1"; "U2"; "U2"])] empty_store.

(** U2 has read the message of U1 and has then been removed from the
    chat; U3 has not read it. *)
Definition store_removed : Store :=
  run (scenario_A ++ [markMessageAsRead "uuid-1" "U2";
                      removeParticipant "uuid-0" "U2"]) empty_store.

(** U2 and U3 have both read the message of U1. *)
Definition store_read_by_all : Store :=
  run (scenario_A ++ [markMessageAsRead "uuid-1" "U2";
                      markMessageAsRead "uuid-1" "U3"]) empty_store.

(** U1 has marked the own message as read. *)
Definition store_self_read : Store :=
  run (scenario_A ++ [markMessageAsRead "uuid-1" "U1"]) empty_store.

(** The chat of [scenario_A] before any message. *)
Definition store_chat : Store :=
  run [createChat (mkCreateChatInput "C" None None ["U1"; "U2"; "U3"])] empty_store.

(** A chat whose only participant is U1. *)
Definition store_single : Store :=
  run [createChat (mkCreateChatInput "C" None None ["U1"])] empty_store.

(** A computation that leaves the chats alone. *)
Definition keeps_chats {A} (m : Async A) : Prop :=
  forall s, chats (snd (m s)) = chats s.

(** The chat of [scenario_A] before any message, on a store that accepts
    two more writes. *)
Definition store_failing : Store :=
  set_writes_left (Some 2)
    (run [createChat (mkCreateChatInput "C" None None ["U1"; "U2"; "U3"])] empty_store).

(** On an unavailable store, [m] throws at once. *)
Definition aborts {A} (m : Async A) : Prop :=
  forall s, writes_left s = Some 0 -> m s = (Throw StoreUnavailable, s).

(** On an unavailable store, [m] changes nothing: it is rejected by the
    store, or it ends before any write, as it does on an available store. *)
Definition quiet {A} (m : Async A) : Prop :=
  forall s, writes_left s = Some 0 ->
            snd (m s) = s /\
            (fst (m s) = Throw StoreUnavailable \/
             m (set_writes_left None s) = (fst (m s), set_writes_left None s)).

(** The calls of [ops], each settled with the result it has when the
    operations run one after the other from [s]. *)
Fixpoint settle_all (ops : list CounterOp) (s : Store) : list Call :=
  match ops with
  | [] => []
  | op :: rest =>
      mkCall op (settled (fst (apply_op op s))) :: settle_all rest (snd (apply_op op s))
  end.

Definition returned (c : Call) : bool :=
  match call_at c with
  | settled (Ok _) => true
  | _ => false
  end.

(* ================================================================== *)
(** * Front end and broker connection *)
(* ================================================================== *)

Module ChatWindow.

(** The effect of [ChatWindow] that marks messages as read on view: the
    mutations it sends, in order, for the messages shown. [markedAsRead]
    is the set of message ids already marked by this view. *)
Definition autoMark (userId chatId : string) (counts : Client.UnreadCounts)
           (markedAsRead : list string) (messages : list Message) : list Command :=
if String.eqb userId "" || (List.length messages =? 0)%nat then []
else if (Client.getUnreadCount counts chatId =? 0)%Z then []
else
  map (fun message => markMessageAsRead (msg_id message) userId)
      (filter (fun message =>
                 negb (String.eqb (msg_senderId message) userId
                       || includes markedAsRead (msg_id message)))
              messages).

End ChatWindow.

Module RedisPubSub.

(** [retryStrategy]: the delay in milliseconds before reconnection
    attempt number [times]. *)
Definition retryStrategy (times : Z) : Z := Z.min (times * 50) 2000.

End RedisPubSub.

(** The events a client of [userId] receives, applied in order. *)
Definition replay (userId : string) (prev : Client.UnreadCounts) (events : list Event)
  : Client.UnreadCounts :=
  fold_left (Client.onData userId) events prev.

(* ================================================================== *)
(** * Readers that do not mark their own messages *)
(* ================================================================== *)

(** [c] asks for a receipt of a message for its own sender. *)
Definition marks_own_message (s : Store) (c : Command) : Prop :=
  match c with
  | markMessageAsRead messageId userId =>
      exists m, find (fun m => String.eqb (msg_id m) messageId) (messages s) = Some m /\
                msg_senderId m = userId
  | _ => False
  end.

(** The stores reached when no command marks a message for its sender. *)
Inductive reachable_by_readers : Store -> Prop :=
| by_readers_empty : reachable_by_readers empty_store
| by_readers_execute s c :
    reachable_by_readers s -> ~ marks_own_message s c ->
    reachable_by_readers (snd (execute c s))
| by_readers_outage s w :
    reachable_by_readers s -> reachable_by_readers (set_writes_left w s).

(** Messages have distinct generated ids, and every receipt belongs to a
    stored message and to a user other than its sender. *)
Record receipts_wf (s : Store) : Prop := mk_receipts_wf {
  rw_ids   : NoDup (map msg_id (messages s));
  rw_gen   : Forall (generated (next_uuid s)) (map msg_id (messages s));
  rw_reads : forall r, In r (message_reads s) ->
                       exists m, In m (messages s) /\ msg_id m = mr_messageId r /\
                                 msg_senderId m <> mr_userId r
}.

(** [s'] has the messages and receipts of [s] and has generated no fewer
    keys. *)
Definition extends (s s' : Store) : Prop :=
  messages s' = messages s /\ message_reads s' = message_reads s /\
  next_uuid s <= next_uuid s'.

Definition frames {A} (m : Async A) : Prop :=
  forall s, extends s (snd (m s)).

(** U2 has read the message of U1. *)
Definition store_read_by_U2 : Store :=
  snd (execute (markMessageAsRead "uuid-1" "U2")
         (snd (execute (createMessage (mkCreateMessageInput "hi" "U1" "uuid-0"))
                 (snd (execute (createChat (mkCreateChatInput "C" None None
                                              ["U1"; "U2"; "U3"]))
                               empty_store))))).
(* ================================================================== *)
(** * Tables: lookups, inserts and updates by primary key *)
(* ================================================================== *)

Section Tables.

Variable Row : Type.
Variable key : Row -> string.

Lemma find_app_last (p : Row -> bool) (l : list Row) (row : Row) :
  find p (l ++ [row]) =
  match find p l with
  | Some x => Some x
  | None => if p row then Some row else None
  end.
Proof.
  induction l as [|x l IH]; simpl; [reflexivity|].
  destruct (p x); [reflexivity | exact IH].
Qed.

Lemma find_existsb (p : Row -> bool) (l : list Row) :
  find p l = None -> existsb p l = false.
Proof.
  induction l as [|x l IH]; simpl; [reflexivity|].
  destruct (p x); [discriminate | exact IH].
Qed.

Lemma find_In (p : Row -> bool) (l : list Row) (r : Row) :
  find p l = Some r -> In r l /\ p r = true.
Proof. apply find_some. Qed.

Lemma key_unique (l : list Row) (x y : Row) :
  NoDup (map key l) -> In x l -> In y l -> key x = key y -> x = y.
Proof.
  induction l as [|z l IH]; simpl; [tauto|].
  intros Hnd Hx Hy Hk. inversion Hnd as [|? ? Hnotin Hnd']; subst.
  destruct Hx as [->|Hx], Hy as [->|Hy]; auto.
  - exfalso. apply Hnotin. rewrite Hk. now apply in_map.
  - exfalso. apply Hnotin. rewrite <- Hk. now apply in_map.
Qed.

Lemma replace_row_keys (r row : Row) (l : list Row) :
  key row = key r -> map key (replace_row key r row l) = map key l.
Proof.
  intros Hk. unfold replace_row. induction l as [|x l IH]; simpl; [reflexivity|].
  rewrite IH. destruct (String.eqb (key x) (key r)) eqn:E; [|reflexivity].
  apply String.eqb_eq in E. now rewrite Hk, E.
Qed.

Lemma replace_row_Forall (P : Row -> Prop) (r row : Row) (l : list Row) :
  Forall P l -> P row -> Forall P (replace_row key r row l).
Proof.
  intros Hl Hrow. unfold replace_row. induction Hl; simpl; constructor; auto.
  destruct (String.eqb (key x) (key r)); assumption.
Qed.

(** The first row that [p] selects is the updated one. *)
Lemma find_replace_same (p : Row -> bool) (r row : Row) (l : list Row) :
  find p l = Some r -> p row = true ->
  find p (replace_row key r row l) = Some row.
Proof.
  intros Hf Hrow. unfold replace_row.
  induction l as [|x l IH]; simpl in *; [discriminate|].
  destruct (String.eqb (key x) (key r)) eqn:E.
  - now rewrite Hrow.
  - destruct (p x) eqn:Px.
    + injection Hf as ->. now rewrite String.eqb_refl in E.
    + auto.
Qed.

(** A lookup that selects neither the old nor the new row is not
    affected by the update. *)
Lemma find_replace_other (p : Row -> bool) (r row : Row) (l : list Row) :
  NoDup (map key l) -> In r l -> p r = false -> p row = false ->
  find p (replace_row key r row l) = find p l.
Proof.
  intros Hnd Hin Hr Hrow.
  assert (Hu : forall x, In x l -> key x = key r -> x = r)
    by (intros x Hx Hk; eapply key_unique; eauto).
  clear Hnd Hin. unfold replace_row.
  induction l as [|x l IH]; simpl; [reflexivity|].
  destruct (String.eqb (key x) (key r)) eqn:E.
  - apply String.eqb_eq in E. rewrite (Hu x (or_introl eq_refl) E), Hr, Hrow.
    apply IH. intros y Hy. apply Hu. now right.
  - destruct (p x); [reflexivity|]. apply IH. intros y Hy. apply Hu. now right.
Qed.

Lemma replace_row_In (r row : Row) (l : list Row) (x : Row) :
  In x (replace_row key r row l) -> x = row \/ (In x l /\ key x <> key r).
Proof.
  unfold replace_row. rewrite in_map_iff. intros [y [Hy Hin]].
  destruct (String.eqb (key y) (key r)) eqn:E.
  - now left.
  - right. subst y. split; [assumption|]. now apply String.eqb_neq.
Qed.

Lemma replace_row_In_other (r row : Row) (l : list Row) (x : Row) :
  In x l -> key x <> key r -> In x (replace_row key r row l).
Proof.
  intros Hin Hk. unfold replace_row. apply in_map_iff. exists x.
  apply String.eqb_neq in Hk. now rewrite Hk.
Qed.

Lemma replace_row_In_same (r row : Row) (l : list Row) :
  In r l -> In row (replace_row key r row l).
Proof.
  intros Hin. unfold replace_row. apply in_map_iff. exists r.
  now rewrite String.eqb_refl.
Qed.

End Tables.

(* ================================================================== *)
(** * Generated keys *)
(* ================================================================== *)

Lemma gen_uuid_inj (n k : nat) : gen_uuid n = gen_uuid k -> n = k.
Proof.
  unfold gen_uuid. simpl. intros H. injection H as H.
  assert (Some (Nat.to_uint n) = Some (Nat.to_uint k)) as E
    by (rewrite <- !NilEmpty.usu; now rewrite H).
  injection E as E.
  rewrite <- (DecimalNat.Unsigned.of_to n), <- (DecimalNat.Unsigned.of_to k).
  now rewrite E.
Qed.

Lemma generated_mono (n n' : nat) (id : string) :
  n <= n' -> generated n id -> generated n' id.
Proof. intros Hle [k [Hk ->]]. exists k. split; [lia | reflexivity]. Qed.

Lemma generated_fresh (n : nat) (ids : list string) :
  Forall (generated n) ids -> ~ In (gen_uuid n) ids.
Proof.
  intros Hall Hin. rewrite Forall_forall in Hall.
  destruct (Hall _ Hin) as [k [Hk E]]. apply gen_uuid_inj in E. lia.
Qed.

(* ================================================================== *)
(** * The unread counter *)
(* ================================================================== *)

Lemma db_write_cases (s : Store) :
  (writes_left s = Some 0 /\ db_write s = (Throw StoreUnavailable, s)) \/
  (writes_left s <> Some 0 /\
   exists w, db_write s = (Ok tt, set_writes_left w s) /\
             (writes_left s = None -> w = None)).
Proof.
  unfold db_write. destruct s as [c m r u p n t [[|w]|]]; simpl.
  - left. auto.
  - right. split; [discriminate|]. exists (Some w). split; [reflexivity | discriminate].
  - right. split; [discriminate|]. exists None. auto.
Qed.

Lemma matches_key (c u c' u' : string) (a : string) (n : Z) (t1 t2 : nat) :
  UnreadCountRepository.matches c u (mkUnreadCount a c' u' n t1 t2)
  = (String.eqb c' c && String.eqb u' u)%bool.
Proof. reflexivity. Qed.

Lemma matches_same (c u : string) (r : UnreadCount) :
  uc_chatId r = c -> uc_userId r = u -> UnreadCountRepository.matches c u r = true.
Proof.
  intros <- <-. unfold UnreadCountRepository.matches. now rewrite !String.eqb_refl.
Qed.

Lemma matches_inv (c u : string) (r : UnreadCount) :
  UnreadCountRepository.matches c u r = true -> uc_chatId r = c /\ uc_userId r = u.
Proof.
  unfold UnreadCountRepository.matches. rewrite andb_true_iff, !String.eqb_eq. tauto.
Qed.

(** Two lookups that select the same row look for the same key. *)
Lemma matches_other (c u c' u' : string) (r : UnreadCount) :
  UnreadCountRepository.matches c u (mkUnreadCount "" c' u' 0 0 0) = false ->
  UnreadCountRepository.matches c u r = true ->
  UnreadCountRepository.matches c' u' r = false.
Proof.
  intros Hne Hr. apply matches_inv in Hr as [Hc Hu].
  destruct (UnreadCountRepository.matches c' u' r) eqn:E; [|reflexivity].
  apply matches_inv in E as [Hc' Hu']. rewrite matches_key in Hne.
  rewrite <- Hc', <- Hu', Hc, Hu, !String.eqb_refl in Hne. discriminate.
Qed.

Lemma insert_run (c u : string) (n : Z) (s : Store) :
  find (UnreadCountRepository.matches c u) (unread_counts s) = None ->
  let row := mkUnreadCount (gen_uuid (next_uuid s)) c u n (now s) (now s) in
  (writes_left s = Some 0 /\
   UnreadCountRepository.insert c u n s = (Throw StoreUnavailable, s)) \/
  (writes_left s <> Some 0 /\
   exists w, (writes_left s = None -> w = None) /\
             UnreadCountRepository.insert c u n s =
             (Ok row, fresh (set_unread_counts (unread_counts s ++ [row])
                                               (set_writes_left w s)))).
Proof.
  intros Hfind row. unfold UnreadCountRepository.insert, bind.
  destruct (db_write_cases s) as [[H0 ->]|[H0 [w [-> Hw]]]]; [left; auto | right].
  split; [assumption|]. exists w. split; [assumption|].
  cbn [writes_left set_writes_left unread_counts].
  now rewrite (find_existsb _ _ Hfind).
Qed.

Lemma update_run (r : UnreadCount) (s : Store) :
  let row := mkUnreadCount (uc_id r) (uc_chatId r) (uc_userId r) (unreadCount r)
                           (uc_createdAt r) (now s) in
  (writes_left s = Some 0 /\
   UnreadCountRepository.update r s = (Throw StoreUnavailable, s)) \/
  (writes_left s <> Some 0 /\
   exists w, (writes_left s = None -> w = None) /\
             UnreadCountRepository.update r s =
             (Ok row, tick (set_unread_counts (replace_row uc_id r row (unread_counts s))
                                              (set_writes_left w s)))).
Proof.
  intros row. unfold UnreadCountRepository.update, bind.
  destruct (db_write_cases s) as [[H0 ->]|[H0 [w [-> Hw]]]]; [left; auto | right].
  split; [assumption|]. exists w. split; [assumption|]. reflexivity.
Qed.

(** ** Well-formedness is kept by the writes to [unread_counts] *)

Lemma wf_insert_count (c u : string) (n : Z) (s : Store) (w : option nat) (ev : list Event) :
  wf s -> (0 <= n)%Z ->
  wf (set_published ev
        (fresh (set_unread_counts
                  (unread_counts s
                   ++ [mkUnreadCount (gen_uuid (next_uuid s)) c u n (now s) (now s)])
                  (set_writes_left w s)))).
Proof.
  intros [H1 H2 H3 H4 H5 H6] Hn. constructor; cbn.
  - rewrite map_app. simpl. apply NoDup_app_remove_r with (l' := []).
    rewrite app_nil_r. apply NoDup_app; [assumption | repeat constructor; simpl; tauto |].
    intros x Hx [<-|[]]. now apply (generated_fresh H2).
  - rewrite map_app. apply Forall_app. split.
    + eapply Forall_impl; [|exact H2]. intros a. apply generated_mono. lia.
    + repeat constructor. exists (next_uuid s). split; [lia | reflexivity].
  - assumption.
  - eapply Forall_impl; [|exact H4]. intros a. apply generated_mono. lia.
  - apply Forall_app. split; [assumption | repeat constructor; assumption].
  - assumption.
Qed.

Lemma wf_update_count (r row : UnreadCount) (s : Store) (w : option nat) (ev : list Event) :
  wf s -> uc_id row = uc_id r -> (0 <= unreadCount row)%Z ->
  wf (set_published ev
        (tick (set_unread_counts (replace_row uc_id r row (unread_counts s))
                                 (set_writes_left w s)))).
Proof.
  intros [H1 H2 H3 H4 H5 H6] Hid Hn. constructor; cbn; try assumption.
  - now rewrite replace_row_keys.
  - now rewrite replace_row_keys.
  - now apply replace_row_Forall.
Qed.

Lemma bind_ok {A B} {m : Async A} (k : A -> Async B) {s a s'} :
  m s = (Ok a, s') -> bind m k s = k a s'.
Proof. intros H. unfold bind. now rewrite H. Qed.

Lemma bind_throw {A B} {m : Async A} (k : A -> Async B) {s e s'} :
  m s = (Throw e, s') -> bind m k s = (Throw e, s').
Proof. intros H. unfold bind. now rewrite H. Qed.

Lemma findOne_bind {B} (c u : string) (k : option UnreadCount -> Async B) (s : Store) :
  bind (UnreadCountRepository.findOne c u) k s
  = k (find (UnreadCountRepository.matches c u) (unread_counts s)) s.
Proof. reflexivity. Qed.

(** One operation on a counter: either the store rejects the write and
    nothing happens, or the row of the key holds the written value, every
    other key is untouched and the value is published. *)
Lemma counter_op_spec (op : CounterOp) (s : Store) :
  wf s ->
  (writes_left s = Some 0 /\ apply_op op s = (Throw StoreUnavailable, s)) \/
  (writes_left s <> Some 0 /\
   exists row s',
     apply_op op s = (Ok row, s') /\
     counter_post (op_chatId op) (op_userId op)
                  (written op (count_of (op_chatId op) (op_userId op) s)) s row s').
Proof.
  intros Hwf.
  assert (Hgen : forall c u (n : Z),
    (0 <= n)%Z ->
    (forall r, find (UnreadCountRepository.matches c u) (unread_counts s) = Some r ->
               n = written op (unreadCount r)) ->
    (find (UnreadCountRepository.matches c u) (unread_counts s) = None ->
               n = written op 0) ->
    let save := match find (UnreadCountRepository.matches c u) (unread_counts s) with
                | None => UnreadCountRepository.insert c u n
                | Some r => UnreadCountRepository.update (UnreadCountService.with_count n r)
                end in
    let m := (saved <- save ;;
              publish (unreadCountUpdated c u (unreadCount saved)) ;;; ret saved) in
    (writes_left s = Some 0 /\ m s = (Throw StoreUnavailable, s)) \/
    (writes_left s <> Some 0 /\
     exists row s', m s = (Ok row, s') /\
                    counter_post c u (written op (count_of c u s)) s row s')).
  { intros c u n Hn HSome HNone save m. subst save m.
    unfold count_of, stored_count.
    destruct (find (UnreadCountRepository.matches c u) (unread_counts s)) as [r|] eqn:Hf.
    - specialize (HSome r eq_refl). simpl option_map. cbv iota. rewrite <- HSome.
      destruct (find_In _ _ Hf) as [Hin Hm]. apply matches_inv in Hm as [Hc Hu].
      destruct (update_run (UnreadCountService.with_count n r) s)
        as [[H0 E]|[H0 [w [Hw E]]]].
      + left. split; [assumption|]. now rewrite (bind_throw _ E).
      + right. split; [assumption|]. rewrite (bind_ok _ E). cbn.
        change (replace_row uc_id (UnreadCountService.with_count n r))
          with (replace_row uc_id r).
        eexists. eexists. split; [reflexivity|].
        constructor; cbn; try reflexivity; try assumption.
        * apply find_replace_same; [exact Hf | now apply matches_same].
        * intros c' u' Hk. apply find_replace_other.
          -- apply (wf_uc_ids Hwf).
          -- assumption.
          -- eapply matches_other; [exact Hk|]. now apply matches_same.
          -- eapply matches_other; [exact Hk|]. now apply matches_same.
        * now apply wf_update_count.
    - specialize (HNone eq_refl). simpl option_map. cbv iota. rewrite <- HNone.
      destruct (insert_run c u n s Hf) as [[H0 E]|[H0 [w [Hw E]]]].
      + left. split; [assumption|]. now rewrite (bind_throw _ E).
      + right. split; [assumption|]. rewrite (bind_ok _ E). cbn.
        eexists. eexists. split; [reflexivity|].
        constructor; cbn; try reflexivity; try assumption.
        * rewrite find_app_last, Hf. now rewrite matches_same.
        * intros c' u' Hk. rewrite find_app_last.
          destruct (find (UnreadCountRepository.matches c' u') (unread_counts s));
            [reflexivity|].
          erewrite matches_other; [reflexivity | exact Hk | now apply matches_same].
        * now apply wf_insert_count. }
  destruct op as [c u|c u]; cbn [apply_op op_chatId op_userId].
  - unfold UnreadCountService.incrementUnreadCount. rewrite findOne_bind.
    destruct (find (UnreadCountRepository.matches c u) (unread_counts s)) as [r|] eqn:Hf.
    + specialize (Hgen c u (unreadCount r + 1)%Z). rewrite Hf in Hgen. apply Hgen.
      * pose proof (wf_nonneg Hwf) as Hnn. rewrite Forall_forall in Hnn.
        specialize (Hnn r (proj1 (find_In _ _ Hf))). lia.
      * intros r' E. now injection E as <-.
      * discriminate.
    + specialize (Hgen c u 1%Z). rewrite Hf in Hgen. apply Hgen; [lia | discriminate | reflexivity].
  - unfold UnreadCountService.resetUnreadCount. rewrite findOne_bind.
    destruct (find (UnreadCountRepository.matches c u) (unread_counts s)) as [r|] eqn:Hf.
    + specialize (Hgen c u 0%Z). rewrite Hf in Hgen. apply Hgen; [lia | reflexivity | discriminate].
    + specialize (Hgen c u 0%Z). rewrite Hf in Hgen. apply Hgen; [lia | discriminate | reflexivity].
Qed.

(* ================================================================== *)
(** * Every command keeps the store well-formed *)
(* ================================================================== *)

Lemma wf_frame (s s' : Store) :
  wf s ->
  unread_counts s' = unread_counts s -> chats s' = chats s ->
  message_reads s' = message_reads s -> next_uuid s <= next_uuid s' ->
  wf s'.
Proof.
  intros [H1 H2 H3 H4 H5 H6] Eu Ec Er Hn.
  constructor; rewrite ?Eu, ?Ec, ?Er; try assumption.
  - eapply Forall_impl; [|exact H2]. intros a. now apply generated_mono.
  - eapply Forall_impl; [|exact H4]. intros a. now apply generated_mono.
Qed.

Lemma keeps_ret {A} (a : A) : keeps (ret a).
Proof. intros s H. exact H. Qed.

Lemma keeps_throw {A} (e : Exception) : keeps (@throw A e).
Proof. intros s H. exact H. Qed.

Lemma keeps_bind {A B} (m : Async A) (k : A -> Async B) :
  keeps m -> (forall a, keeps (k a)) -> keeps (bind m k).
Proof.
  intros Hm Hk s Hs. unfold bind. specialize (Hm s Hs).
  destruct (m s) as [[a|e] s']; [apply (Hk a s' Hm) | exact Hm].
Qed.

Lemma keeps_for_each {A} (l : list A) (f : A -> Async unit) :
  (forall x, keeps (f x)) -> keeps (for_each l f).
Proof.
  intros Hf. induction l as [|x l' IH]; simpl.
  - apply keeps_ret.
  - apply keeps_bind; [apply Hf | intros ?; exact IH].
Qed.

Lemma keeps_read {A} (f : Store -> A) : keeps (fun s => (Ok (f s), s)).
Proof. intros s H. exact H. Qed.

Lemma keeps_db_write : keeps db_write.
Proof.
  intros s H. unfold db_write.
  destruct (writes_left s) as [[|n]|]; simpl; try assumption.
  apply (wf_frame _ H); simpl; auto.
Qed.

Lemma keeps_publish (e : Event) : keeps (publish e).
Proof. intros s H. apply (wf_frame _ H); simpl; auto. Qed.

Lemma keeps_discard {A} (m : Async A) : keeps m -> keeps (discard m).
Proof. intros H. apply keeps_bind; [exact H | intros ?; apply keeps_ret]. Qed.

Create HintDb keeps.
#[local] Hint Resolve keeps_ret keeps_throw keeps_read keeps_db_write keeps_publish
  : keeps.

Lemma keeps_chat_insert (input : CreateChatInput) : keeps (ChatRepository.insert input).
Proof.
  apply keeps_bind; [apply keeps_db_write|]. intros _ s [H1 H2 H3 H4 H5 H6].
  constructor; cbn; try assumption.
  - eapply Forall_impl; [|exact H2]. intros a. apply generated_mono. lia.
  - rewrite map_app. simpl. apply NoDup_app_remove_r with (l' := []).
    rewrite app_nil_r. apply NoDup_app; [assumption | repeat constructor; simpl; tauto |].
    intros x Hx [<-|[]]. now apply (generated_fresh H4).
  - rewrite map_app. apply Forall_app. split.
    + eapply Forall_impl; [|exact H4]. intros a. apply generated_mono. lia.
    + repeat constructor. exists (next_uuid s). split; [lia | reflexivity].
Qed.

Lemma keeps_chat_update (c : Chat) : keeps (ChatRepository.update c).
Proof.
  apply keeps_bind; [apply keeps_db_write|]. intros _ s [H1 H2 H3 H4 H5 H6].
  constructor; cbn; try assumption; now rewrite replace_row_keys.
Qed.

Lemma keeps_message_insert (input : CreateMessageInput) :
  keeps (MessageRepository.insert input).
Proof.
  apply keeps_bind; [apply keeps_db_write|]. intros _ s H.
  apply (wf_frame _ H); simpl; auto.
Qed.

Lemma keeps_message_update (m : Message) : keeps (MessageRepository.update m).
Proof.
  apply keeps_bind; [apply keeps_db_write|]. intros _ s H.
  apply (wf_frame _ H); simpl; auto.
Qed.

(** Deleting rows keeps the remaining keys distinct. *)
Lemma filter_keeps_distinct_keys {Row K} (key : Row -> K) (keep : Row -> bool)
      (rows : list Row) :
  NoDup (map key rows) -> NoDup (map key (filter keep rows)).
Proof.
  intros Hnd. induction rows as [|row rows IH]; simpl; [constructor|].
  simpl in Hnd. apply NoDup_cons_iff in Hnd as [Hnew Hnd].
  destruct (keep row); simpl; [|now apply IH].
  constructor; [|now apply IH].
  rewrite in_map_iff. intros [other [Hk Hin]].
  apply Hnew. rewrite <- Hk. apply in_map.
  apply filter_In in Hin. tauto.
Qed.

Lemma keeps_message_remove (m : Message) : keeps (MessageRepository.remove m).
Proof.
  apply keeps_bind; [apply keeps_db_write|]. intros _ s [H1 H2 H3 H4 H5 H6].
  constructor; cbn; try assumption. now apply filter_keeps_distinct_keys.
Qed.

Lemma keeps_counter_op (op : CounterOp) : keeps (apply_op op).
Proof.
  intros s H. destruct (counter_op_spec op H) as [[_ ->]|[_ [row [s' [-> Hp]]]]].
  - exact H.
  - exact (cp_wf Hp).
Qed.

Lemma keeps_chat_findOne (id : string) : keeps (ChatService.findOne id).
Proof.
  apply keeps_bind; [apply keeps_read|]. intros [c|]; auto with keeps.
Qed.

Lemma keeps_message_findOne (id : string) : keeps (MessageService.findOne id).
Proof.
  apply keeps_bind; [apply keeps_read|]. intros [c|]; auto with keeps.
Qed.

Lemma keeps_isParticipant (c u : string) : keeps (ChatService.isParticipant c u).
Proof.
  apply keeps_bind; [apply keeps_chat_findOne|]. intros ?. apply keeps_ret.
Qed.

Lemma keeps_getUnreadCount (c u : string) : keeps (UnreadCountService.getUnreadCount c u).
Proof. apply keeps_bind; [apply keeps_read|]. intros ?. apply keeps_ret. Qed.

#[local] Hint Resolve keeps_chat_insert keeps_chat_update keeps_message_insert
  keeps_message_update keeps_message_remove keeps_chat_findOne keeps_message_findOne
  keeps_isParticipant keeps_getUnreadCount keeps_discard : keeps.

Ltac keeps_step :=
  first [ solve [auto with keeps]
        | apply (keeps_counter_op (increment _ _))
        | apply (keeps_counter_op (resetToZero _ _))
        | apply keeps_for_each; intros ?
        | match goal with
          | |- keeps (if ?b then _ else _) => destruct b
          | |- keeps (match ?x with _ => _ end) => destruct x
          | |- keeps (bind _ _) => apply keeps_bind; [|intros ?]
          end ].

Lemma keeps_read_insert (m u : string) (s : Store) :
  wf s -> find (MessageReadRepository.matches m u) (message_reads s) = None ->
  wf (snd (MessageReadRepository.insert m u s)).
Proof.
  intros H Hf. unfold MessageReadRepository.insert, bind.
  pose proof (keeps_db_write H) as Hw.
  assert (Hr : message_reads (snd (db_write s)) = message_reads s).
  { unfold db_write. destruct (writes_left s) as [[|n]|]; reflexivity. }
  destruct (db_write s) as [[[]|e] s1]; simpl in *; [|assumption].
  destruct Hw as [H1 H2 H3 H4 H5 H6]. constructor; cbn; try assumption.
  - eapply Forall_impl; [|exact H2]. intros a. apply generated_mono. lia.
  - eapply Forall_impl; [|exact H4]. intros a. apply generated_mono. lia.
  - rewrite map_app. simpl. apply NoDup_app_remove_r with (l' := []).
    rewrite app_nil_r. apply NoDup_app; [assumption | repeat constructor; simpl; tauto |].
    intros x Hx [<-|[]]. rewrite Hr in Hx. apply in_map_iff in Hx as [r [Hk Hin]].
    pose proof (find_none _ _ Hf r Hin) as Hn.
    unfold MessageReadRepository.matches in Hn. unfold receipt_key in Hk.
    simpl in Hk. injection Hk as E1 E2. now rewrite E1, E2, !String.eqb_refl in Hn.
Qed.

Lemma keeps_execute (c : Command) : keeps (execute c).
Proof.
  destruct c; cbn [execute]; apply keeps_discard.
  - unfold ChatService.create. repeat keeps_step.
  - unfold ChatService.addParticipant. repeat keeps_step.
  - unfold ChatService.addParticipants. repeat keeps_step.
  - unfold ChatService.removeParticipant. repeat keeps_step.
  - unfold ChatService.remove. repeat keeps_step.
  - unfold MessageService.create. repeat keeps_step.
  - unfold MessageService.update. repeat keeps_step.
    intros s Hs.
    apply (keeps_bind (m := MessageRepository.update _)); [| intros ? |exact Hs];
      repeat keeps_step.
  - unfold MessageService.remove. repeat keeps_step.
  - unfold MessageService.markMessageAsRead.
    apply keeps_bind; [auto with keeps | intros msg].
    apply keeps_bind; [auto with keeps | intros [|]]; simpl; [|apply keeps_throw].
    intros s Hs. unfold bind at 1. unfold MessageReadRepository.findOne.
    destruct (find (MessageReadRepository.matches messageId userId) (message_reads s))
      as [r|] eqn:Hf; [exact Hs|].
    unfold bind at 1. pose proof (keeps_read_insert _ _ Hs Hf) as Hi.
    destruct (MessageReadRepository.insert messageId userId s) as [[a|e] s1];
      simpl in Hi; [|exact Hi].
    revert s1 Hi. change (keeps
      (_chat <- ChatService.findOne (msg_chatId msg) ;;
       unreadCount_ <- UnreadCountService.getUnreadCount (msg_chatId msg) userId ;;
       (if (0 <? unreadCount_)%Z
        then UnreadCountService.resetUnreadCount (msg_chatId msg) userId ;;; ret tt
        else ret tt) ;;;
       publish (messageReadUpdated messageId userId (readAt a)) ;;;
       ret a)).
    repeat keeps_step.
Qed.

Lemma wf_empty : wf empty_store.
Proof. constructor; simpl; constructor. Qed.

Lemma reachable_wf (s : Store) : reachable s -> wf s.
Proof.
  induction 1 as [|s c _ IH|s w _ IH].
  - apply wf_empty.
  - now apply keeps_execute.
  - apply (wf_frame _ IH); simpl; auto.
Qed.

Lemma reachable_run (cs : list Command) (s : Store) :
  reachable s -> reachable (run cs s).
Proof.
  revert s. induction cs as [|c cs IH]; simpl; intros s H; [exact H|].
  apply IH. now constructor.
Qed.

(* ================================================================== *)
(** * Sequences of counter operations *)
(* ================================================================== *)

Lemma getUnreadCount_spec (c u : string) (s : Store) :
  UnreadCountService.getUnreadCount c u s = (Ok (count_of c u s), s).
Proof.
  unfold UnreadCountService.getUnreadCount. rewrite findOne_bind.
  unfold count_of, stored_count, ret.
  destruct (find (UnreadCountRepository.matches c u) (unread_counts s)) as [r|];
    simpl; [|reflexivity].
  destruct (unreadCount r =? 0)%Z eqn:E; [|reflexivity].
  apply Z.eqb_eq in E. now rewrite E.
Qed.

Lemma touches_key (c u : string) (op : CounterOp) :
  touches c u op = (String.eqb (op_chatId op) c && String.eqb (op_userId op) u)%bool.
Proof. destruct op; unfold touches; simpl; [apply orb_false_r | reflexivity]. Qed.

Lemma count_after_op (op : CounterOp) (s : Store) :
  wf s -> writes_left s = None ->
  exists row s',
    apply_op op s = (Ok row, s') /\ wf s' /\ writes_left s' = None /\
    forall c u,
      stored_count c u s' =
      if touches c u op then Some (written op (count_of c u s)) else stored_count c u s.
Proof.
  intros Hwf Hw.
  destruct (counter_op_spec op Hwf) as [[H0 _]|[_ [row [s' [E Hp]]]]];
    [congruence|].
  exists row, s'.
  split; [exact E|]. split; [exact (cp_wf Hp)|]. split; [exact (cp_available Hp Hw)|].
  intros c u. rewrite touches_key.
  destruct (String.eqb (op_chatId op) c && String.eqb (op_userId op) u)%bool eqn:K.
  - apply andb_true_iff in K as [K1 K2]. apply String.eqb_eq in K1, K2. subst c u.
    unfold stored_count at 1. rewrite (cp_stored Hp). simpl. now rewrite (cp_value Hp).
  - unfold stored_count. rewrite (cp_others Hp); [reflexivity|].
    rewrite matches_key. rewrite <- K.
    now rewrite (String.eqb_sym c), (String.eqb_sym u).
Qed.

Lemma count_of_stored (c u : string) (s : Store) (n : Z) :
  stored_count c u s = Some n -> count_of c u s = n.
Proof. unfold count_of. now intros ->. Qed.

Lemma written_touch (c u : string) (op : CounterOp) (n : Z) :
  touches c u op = true ->
  written op n = if is_reset c u op then 0%Z else (n + 1)%Z.
Proof. destruct op; unfold touches; simpl; [reflexivity|]. now intros ->. Qed.

(** The value of a key after a sequence of operations on an available
    store: zero or the initial value, according to whether the key was
    reset, plus the increments that no reset follows. *)
Lemma run_ops_count (ops : list CounterOp) :
  forall s, wf s -> writes_left s = None ->
  wf (run_ops ops s) /\ writes_left (run_ops ops s) = None /\
  forall c u,
    count_of c u (run_ops ops s)
    = ((if existsb (is_reset c u) ops then 0 else count_of c u s)
       + Z.of_nat (increments_after_last_reset c u ops))%Z /\
    (existsb (touches c u) ops = true \/ stored_count c u s <> None ->
     stored_count c u (run_ops ops s) <> None).
Proof.
  induction ops as [|op ops IH]; intros s Hwf Hw.
  - simpl. split; [exact Hwf|]. split; [exact Hw|]. intros c u. split; [lia|].
    intros [H|H]; [discriminate | exact H].
  - destruct (count_after_op op Hwf Hw) as [row [s1 [E [Hwf1 [Hw1 Hc]]]]].
    unfold run_ops. simpl fold_left. rewrite E. simpl snd.
    fold (run_ops ops s1). destruct (IH s1 Hwf1 Hw1) as [IHwf [IHw IHc]].
    split; [exact IHwf|]. split; [exact IHw|]. intros c u.
    destruct (IHc c u) as [IH1 IH2]. split.
    + rewrite IH1. cbn [existsb increments_after_last_reset].
      destruct (existsb (is_reset c u) ops) eqn:R.
      * rewrite orb_true_r. reflexivity.
      * rewrite orb_false_r. unfold count_of at 1. rewrite Hc.
        destruct (touches c u op) eqn:T.
        -- rewrite (written_touch _ _ _ _ T).
           unfold touches in T. destruct (is_reset c u op) eqn:R1.
           ++ assert (is_increment c u op = false) as ->
               by (destruct op; simpl in *; [discriminate | reflexivity]).
              simpl. lia.
           ++ rewrite orb_false_r in T. rewrite T. rewrite Nat2Z.inj_add. lia.
        -- unfold touches in T. apply orb_false_iff in T as [-> ->].
           fold (count_of c u s). simpl. lia.
    + intros H. apply IH2. cbn [existsb] in H.
      destruct (existsb (touches c u) ops); [now left | right].
      rewrite Hc. destruct (touches c u op); [discriminate|].
      rewrite orb_false_r in H. destruct H as [H|H]; [discriminate | exact H].
Qed.

(* ================================================================== *)
(** * The client read model and the subscription filters *)
(* ================================================================== *)

Lemma lookup_assign (chatId : string) (v : Z) (prev : Client.UnreadCounts) :
  Client.lookup chatId (Client.assign chatId v prev) = Some v.
Proof.
  induction prev as [|[k w] m IH]; simpl.
  - now rewrite String.eqb_refl.
  - destruct (String.eqb k chatId) eqn:E; simpl; rewrite E; [reflexivity | exact IH].
Qed.

Lemma client_converges (userId chatId : string) (count : Z) (prev : Client.UnreadCounts) :
  Client.getUnreadCount
    (Client.onData userId prev (unreadCountUpdated chatId userId count)) chatId
  = count.
Proof.
  unfold Client.onData, Client.getUnreadCount. simpl.
  rewrite String.eqb_refl, lookup_assign.
  destruct (count =? 0)%Z eqn:E; [|reflexivity]. apply Z.eqb_eq in E. now rewrite E.
Qed.

Lemma forward_In (registry : list Receiver.Subscription) (payload : Event)
      (sub : Receiver.Subscription) :
  In sub (Receiver.forward registry payload)
  <-> In sub registry /\ Receiver.filter_ sub payload = true.
Proof. unfold Receiver.forward. apply filter_In. Qed.

Lemma findOne_chat_ok (id : string) (s s' : Store) (c : Chat) :
  ChatService.findOne id s = (Ok c, s') ->
  s' = s /\ find (fun c => String.eqb (chat_id c) id && isActive c)%bool (chats s) = Some c.
Proof.
  unfold ChatService.findOne, bind, ChatRepository.findOne.
  destruct (find _ (chats s)) as [c'|]; simpl; [|discriminate].
  intros H. injection H as -> ->. auto.
Qed.

(* ================================================================== *)
(** * Marking a message as read *)
(* ================================================================== *)

(** What a counter operation leaves alone, on any store. *)
Lemma counter_op_frame (op : CounterOp) (s s' : Store) (r : Result UnreadCount) :
  apply_op op s = (r, s') ->
  chats s' = chats s /\ messages s' = messages s /\
  message_reads s' = message_reads s /\
  exists evs, published s' = published s ++ evs /\
              List.length (filter is_counter_update evs) <= 1 /\
              (forall row, r = Ok row -> List.length (filter is_counter_update evs) = 1).
Proof.
  assert (Hgen : forall c u n,
    let save := match find (UnreadCountRepository.matches c u) (unread_counts s) with
                | None => UnreadCountRepository.insert c u n
                | Some r => UnreadCountRepository.update (UnreadCountService.with_count n r)
                end in
    (saved <- save ;;
     publish (unreadCountUpdated c u (unreadCount saved)) ;;; ret saved) s = (r, s') ->
    chats s' = chats s /\ messages s' = messages s /\
    message_reads s' = message_reads s /\
    exists evs, published s' = published s ++ evs /\
                List.length (filter is_counter_update evs) <= 1 /\
                (forall row, r = Ok row -> List.length (filter is_counter_update evs) = 1)).
  { intros c u n save.
    assert (Hthrow : forall e, (Throw e, s) = (r, s') ->
      chats s' = chats s /\ messages s' = messages s /\
      message_reads s' = message_reads s /\
      exists evs, published s' = published s ++ evs /\
                  List.length (filter is_counter_update evs) <= 1 /\
                  (forall row, r = Ok row -> List.length (filter is_counter_update evs) = 1)).
    { intros e H. injection H as <- <-. repeat split; auto.
      exists []. rewrite app_nil_r. repeat split; auto. discriminate. }
    subst save.
    destruct (find (UnreadCountRepository.matches c u) (unread_counts s)) as [r0|] eqn:Hf.
    - destruct (update_run (UnreadCountService.with_count n r0) s)
        as [[_ E]|[_ [w [_ E]]]].
      + rewrite (bind_throw _ E). apply Hthrow.
      + rewrite (bind_ok _ E). cbn. intros H. injection H as <- <-. cbn.
        repeat split; auto. eexists. split; [reflexivity|]. simpl. auto.
    - destruct (insert_run c u n s Hf) as [[_ E]|[_ [w [_ E]]]].
      + rewrite (bind_throw _ E). apply Hthrow.
      + rewrite (bind_ok _ E). cbn. intros H. injection H as <- <-. cbn.
        repeat split; auto. eexists. split; [reflexivity|]. simpl. auto. }
  destruct op as [c u|c u]; cbn [apply_op].
  - unfold UnreadCountService.incrementUnreadCount. rewrite findOne_bind.
    destruct (find (UnreadCountRepository.matches c u) (unread_counts s)) as [r0|] eqn:Hf.
    + specialize (Hgen c u (unreadCount r0 + 1)%Z). rewrite Hf in Hgen. exact Hgen.
    + specialize (Hgen c u 1%Z). rewrite Hf in Hgen. exact Hgen.
  - unfold UnreadCountService.resetUnreadCount. rewrite findOne_bind.
    destruct (find (UnreadCountRepository.matches c u) (unread_counts s)) as [r0|] eqn:Hf.
    + specialize (Hgen c u 0%Z). rewrite Hf in Hgen. exact Hgen.
    + specialize (Hgen c u 0%Z). rewrite Hf in Hgen. exact Hgen.
Qed.

Lemma message_findOne_bind {B} (id : string) (k : Message -> Async B) (s : Store) :
  bind (MessageService.findOne id) k s =
  match find (fun m => String.eqb (msg_id m) id) (messages s) with
  | Some m => k m s
  | None => (Throw (NotFoundException ("Message with ID " ++ id ++ " not found")), s)
  end.
Proof.
  unfold MessageService.findOne, MessageRepository.findOne, bind.
  destruct (find _ (messages s)); reflexivity.
Qed.

Lemma chat_findOne_bind {B} (id : string) (k : Chat -> Async B) (s : Store) :
  bind (ChatService.findOne id) k s =
  match find (fun c => String.eqb (chat_id c) id && isActive c) (chats s) with
  | Some c => k c s
  | None => (Throw (NotFoundException ("Chat with ID " ++ id ++ " not found")), s)
  end.
Proof.
  unfold ChatService.findOne, ChatRepository.findOne, bind.
  destruct (find _ (chats s)); reflexivity.
Qed.

Lemma isParticipant_bind {B} (id u : string) (k : bool -> Async B) (s : Store) :
  bind (ChatService.isParticipant id u) k s =
  match find (fun c => String.eqb (chat_id c) id && isActive c) (chats s) with
  | Some c => k (includes (participantIds c) u) s
  | None => (Throw (NotFoundException ("Chat with ID " ++ id ++ " not found")), s)
  end.
Proof.
  unfold ChatService.isParticipant, ChatService.findOne, ChatRepository.findOne, bind.
  destruct (find _ (chats s)); reflexivity.
Qed.

Lemma read_findOne_bind {B} (m u : string) (k : option MessageRead -> Async B) (s : Store) :
  bind (MessageReadRepository.findOne m u) k s
  = k (find (MessageReadRepository.matches m u) (message_reads s)) s.
Proof. reflexivity. Qed.

(** The checks of [markMessageAsRead] read the store; what follows them
    runs when no receipt is found. *)
Lemma markMessageAsRead_unfold (messageId userId : string) (s : Store) :
  MessageService.markMessageAsRead messageId userId s =
  match find (fun m => String.eqb (msg_id m) messageId) (messages s) with
  | None => (Throw (NotFoundException ("Message with ID " ++ messageId ++ " not found")), s)
  | Some message =>
      match find (fun c => String.eqb (chat_id c) (msg_chatId message) && isActive c)
                 (chats s) with
      | None =>
          (Throw (NotFoundException
                    ("Chat with ID " ++ msg_chatId message ++ " not found")), s)
      | Some chat =>
          if includes (participantIds chat) userId
          then
            match find (MessageReadRepository.matches messageId userId)
                       (message_reads s) with
            | Some r => (Ok r, s)
            | None =>
                (savedRead <- MessageReadRepository.insert messageId userId ;;
                 _chat <- ChatService.findOne (msg_chatId message) ;;
                 unreadCount_ <- UnreadCountService.getUnreadCount
                                   (msg_chatId message) userId ;;
                 (if (0 <? unreadCount_)%Z
                  then UnreadCountService.resetUnreadCount (msg_chatId message) userId
                       ;;; ret tt
                  else ret tt) ;;;
                 publish (messageReadUpdated messageId userId (readAt savedRead)) ;;;
                 ret savedRead) s
            end
          else (Throw (ForbiddenException "User is not a participant in this chat"), s)
      end
  end.
Proof.
  unfold MessageService.markMessageAsRead. rewrite message_findOne_bind.
  destruct (find _ (messages s)) as [message|]; [|reflexivity].
  rewrite isParticipant_bind.
  destruct (find _ (chats s)) as [chat|]; [|reflexivity].
  destruct (includes (participantIds chat) userId); [|reflexivity].
  change (negb true) with false. cbv iota. rewrite read_findOne_bind.
  destruct (find _ (message_reads s)) as [r|]; reflexivity.
Qed.

Lemma read_insert_run (m u : string) (s : Store) :
  let row := mkMessageRead (gen_uuid (next_uuid s)) m u (now s) in
  (writes_left s = Some 0 /\
   MessageReadRepository.insert m u s = (Throw StoreUnavailable, s)) \/
  (writes_left s <> Some 0 /\
   exists w, (writes_left s = None -> w = None) /\
             MessageReadRepository.insert m u s =
             (Ok row, fresh (set_message_reads (message_reads s ++ [row])
                                               (set_writes_left w s)))).
Proof.
  intros row. unfold MessageReadRepository.insert, bind.
  destruct (db_write_cases s) as [[H0 ->]|[H0 [w [-> Hw]]]]; [left; auto | right].
  split; [assumption|]. exists w. split; [assumption | reflexivity].
Qed.

(** The run of [markMessageAsRead] past the checks: a receipt is added,
    the counter is reset at most once. *)
Lemma mark_fresh_spec (messageId userId chatId : string) (s s1 : Store) (r : MessageRead) :
  (savedRead <- MessageReadRepository.insert messageId userId ;;
   _chat <- ChatService.findOne chatId ;;
   unreadCount_ <- UnreadCountService.getUnreadCount chatId userId ;;
   (if (0 <? unreadCount_)%Z
    then UnreadCountService.resetUnreadCount chatId userId ;;; ret tt
    else ret tt) ;;;
   publish (messageReadUpdated messageId userId (readAt savedRead)) ;;;
   ret savedRead) s = (Ok r, s1) ->
  messages s1 = messages s /\ chats s1 = chats s /\
  message_reads s1 = message_reads s ++ [r] /\
  mr_messageId r = messageId /\ mr_userId r = userId /\
  exists evs, published s1 = published s ++ evs /\
              List.length (filter is_counter_update evs) <= 1.
Proof.
  destruct (read_insert_run messageId userId s) as [[_ E]|[_ [w [_ E]]]].
  { rewrite (bind_throw _ E). discriminate. }
  rewrite (bind_ok _ E). clear E.
  set (row := mkMessageRead (gen_uuid (next_uuid s)) messageId userId (now s)).
  set (s0 := fresh _).
  destruct (ChatService.findOne chatId s0) as [[c|e] s0'] eqn:Ec.
  2:{ rewrite (bind_throw _ Ec). discriminate. }
  rewrite (bind_ok _ Ec). apply findOne_chat_ok in Ec as [-> _].
  rewrite (bind_ok _ (getUnreadCount_spec chatId userId s0)).
  destruct (0 <? count_of chatId userId s0)%Z.
  - unfold bind at 1. unfold bind at 1.
    destruct (UnreadCountService.resetUnreadCount chatId userId s0) as [[saved|e] s2] eqn:Er;
      [|discriminate].
    apply (counter_op_frame (resetToZero chatId userId)) in Er
      as [Hc [Hm [Hr [evs [Hp [Hle _]]]]]].
    cbn. intros H. injection H as <- <-. cbn. rewrite Hc, Hm, Hr.
    repeat split; auto. exists (evs ++ [messageReadUpdated messageId userId (now s)]).
    rewrite Hp. cbn. rewrite <- app_assoc. split; [reflexivity|].
    rewrite filter_app. simpl. rewrite app_nil_r. exact Hle.
  - cbn. intros H. injection H as <- <-. cbn. repeat split; auto.
    eexists. split; [reflexivity|]. simpl. lia.
Qed.

(* ================================================================== *)
(** * Sending a message *)
(* ================================================================== *)

Lemma create_unfold (input : CreateMessageInput) (s : Store) :
  MessageService.create input s =
  match find (fun c => String.eqb (chat_id c) (cmi_chatId input) && isActive c)
             (chats s) with
  | None =>
      (Throw (NotFoundException ("Chat with ID " ++ cmi_chatId input ++ " not found")), s)
  | Some chat0 =>
      if includes (participantIds chat0) (cmi_senderId input)
      then
        (savedMessage <- MessageRepository.insert input ;;
         publish (messageAdded savedMessage) ;;;
         publish (chatMessageNotification (cmi_chatId input) savedMessage
                                          (cmi_senderId input)) ;;;
         publish (messageUpdateForChatList (cmi_chatId input) savedMessage
                                           (cmi_senderId input)) ;;;
         chat <- ChatService.findOne (cmi_chatId input) ;;
         for_each (without (cmi_senderId input) (participantIds chat))
           (fun participantId =>
              UnreadCountService.incrementUnreadCount (cmi_chatId input) participantId ;;;
              ret tt) ;;;
         ret savedMessage) s
      else (Throw (ForbiddenException "User is not a participant in this chat"), s)
  end.
Proof.
  unfold MessageService.create. rewrite isParticipant_bind.
  destruct (find _ (chats s)) as [chat|]; [|reflexivity].
  destruct (includes (participantIds chat) (cmi_senderId input)); reflexivity.
Qed.

Lemma message_insert_run (input : CreateMessageInput) (s : Store) :
  let row := mkMessage (gen_uuid (next_uuid s)) (cmi_content input)
                       (cmi_senderId input) (cmi_chatId input) false None (now s) in
  (writes_left s = Some 0 /\
   MessageRepository.insert input s = (Throw StoreUnavailable, s)) \/
  (writes_left s <> Some 0 /\
   exists w, (writes_left s = None -> w = None) /\
             MessageRepository.insert input s =
             (Ok row, fresh (set_messages (messages s ++ [row]) (set_writes_left w s)))).
Proof.
  intros row. unfold MessageRepository.insert, bind.
  destruct (db_write_cases s) as [[H0 ->]|[H0 [w [-> Hw]]]]; [left; auto | right].
  split; [assumption|]. exists w. split; [assumption | reflexivity].
Qed.

(** The loop of [create]: one increment per entry of the list. *)
Lemma increments_spec (c : string) (l : list string) :
  forall s s' r,
    wf s ->
    for_each l (fun participantId =>
                  UnreadCountService.incrementUnreadCount c participantId ;;; ret tt) s
    = (Ok r, s') ->
    (forall u, In u l ->
               stored_count c u s'
               = Some (count_of c u s + Z.of_nat (count_occ string_dec l u))%Z) /\
    (forall c' u', c' <> c \/ ~ In u' l ->
                   find (UnreadCountRepository.matches c' u') (unread_counts s')
                   = find (UnreadCountRepository.matches c' u') (unread_counts s)).
Proof.
  induction l as [|x l IH]; intros s s' r Hwf H.
  - simpl in H. injection H as _ <-. split; [intros u []|reflexivity].
  - cbn [for_each] in H. unfold bind at 1 in H. unfold bind at 1 in H.
    destruct (counter_op_spec (increment c x) Hwf) as [[_ E]|[_ [row [s1 [E Hp]]]]];
      cbn [apply_op] in E; rewrite E in H; [discriminate|].
    cbn [op_chatId op_userId written] in Hp. cbv beta iota in H. unfold ret at 1 in H.
    destruct (IH s1 s' r (cp_wf Hp) H) as [IHa IHb].
    assert (Hother : forall c' u', c' <> c \/ u' <> x ->
              find (UnreadCountRepository.matches c' u') (unread_counts s1)
              = find (UnreadCountRepository.matches c' u') (unread_counts s)).
    { intros c' u' Hne. apply (cp_others Hp). rewrite matches_key.
      apply andb_false_iff. rewrite !String.eqb_neq.
      destruct Hne as [Hne|Hne]; [left | right]; congruence. }
    split.
    + intros u Hu. cbn [count_occ].
      destruct (string_dec x u) as [->|Hne].
      * destruct (in_dec string_dec u l) as [Hin|Hnin].
        -- rewrite (IHa u Hin). f_equal.
           unfold count_of at 1, stored_count. rewrite (cp_stored Hp). simpl.
           rewrite (cp_value Hp); lia.
        -- unfold stored_count. rewrite (IHb c u (or_intror Hnin)), (cp_stored Hp).
           simpl. rewrite (cp_value Hp).
           rewrite (proj1 (count_occ_not_In string_dec l u) Hnin). f_equal; lia.
      * destruct Hu as [Hu|Hu]; [congruence|].
        rewrite (IHa u Hu). do 2 f_equal. unfold count_of, stored_count.
        rewrite Hother; [reflexivity|]. right. congruence.
    + intros c' u' Hne. rewrite IHb.
      * apply Hother. destruct Hne as [Hne|Hne]; [now left | right].
        intros ->. apply Hne. now left.
      * destruct Hne as [Hne|Hne]; [now left | right]. intros Hin. apply Hne. now right.
Qed.

Lemma without_In (x u : string) (l : list string) :
  In u (without x l) <-> In u l /\ u <> x.
Proof.
  unfold without. rewrite filter_In, negb_true_iff, String.eqb_neq. tauto.
Qed.

(** [create] past its checks, when it returns: the message is stored and
    the counters went through the loop. *)
Lemma create_ok (input : CreateMessageInput) (s s' : Store) (m : Message) :
  wf s ->
  MessageService.create input s = (Ok m, s') ->
  exists chat s0,
    find (fun c => String.eqb (chat_id c) (cmi_chatId input) && isActive c) (chats s)
    = Some chat /\
    includes (participantIds chat) (cmi_senderId input) = true /\
    wf s0 /\ unread_counts s0 = unread_counts s /\
    for_each (without (cmi_senderId input) (participantIds chat))
      (fun participantId =>
         UnreadCountService.incrementUnreadCount (cmi_chatId input) participantId ;;;
         ret tt) s0 = (Ok tt, s').
Proof.
  intros Hwf H. rewrite create_unfold in H.
  destruct (find _ (chats s)) as [chat|] eqn:Ec; [|discriminate].
  destruct (includes (participantIds chat) (cmi_senderId input)) eqn:Ei; [|discriminate].
  destruct (message_insert_run input s) as [[_ E]|[_ [w [_ E]]]].
  { rewrite (bind_throw _ E) in H. discriminate. }
  rewrite (bind_ok _ E) in H. clear E.
  unfold bind at 1 2 3 in H. unfold publish at 1 2 3 in H. cbv beta iota in H.
  match type of H with
  | bind _ _ ?s0 = _ => set (st := s0) in H
  end.
  rewrite chat_findOne_bind in H.
  change (chats st) with (chats s) in H. rewrite Ec in H.
  exists chat, st. split; [reflexivity|]. split; [exact Ei|].
  split; [apply (wf_frame _ Hwf); simpl; auto|]. split; [reflexivity|].
  unfold bind at 1 in H.
  destruct (for_each _ _ st) as [[[]|e] s2]; [|discriminate].
  now injection H as _ <-.
Qed.

(* ================================================================== *)
(** * The read status of a message *)
(* ================================================================== *)

Lemma findOne_message_ok (id : string) (s s' : Store) (m : Message) :
  MessageService.findOne id s = (Ok m, s') ->
  s' = s /\ find (fun m => String.eqb (msg_id m) id) (messages s) = Some m.
Proof.
  unfold MessageService.findOne, bind, MessageRepository.findOne.
  destruct (find _ (messages s)) as [m'|]; simpl; [|discriminate].
  intros H. injection H as -> ->. auto.
Qed.

Lemma getMessageReadStatus_unfold (messageId : string) (s : Store) :
  Receiver.getMessageReadStatus messageId s =
  match find (fun m => String.eqb (msg_id m) messageId) (messages s) with
  | None => (Throw (NotFoundException ("Message with ID " ++ messageId ++ " not found")), s)
  | Some message =>
      match find (fun c => String.eqb (chat_id c) (msg_chatId message) && isActive c)
                 (chats s) with
      | None =>
          (Throw (NotFoundException
                    ("Chat with ID " ++ msg_chatId message ++ " not found")), s)
      | Some chat =>
          let reads := filter (fun r => String.eqb (mr_messageId r) messageId)
                              (message_reads s) in
          let others := without (msg_senderId message) (participantIds chat) in
          (Ok (mkMessageReadStatus messageId (List.length others) (List.length reads)
                 (List.length others <=? List.length reads)%nat
                 (map (fun r => mkMessageReadUser (mr_userId r) (readAt r)) reads)), s)
      end
  end.
Proof.
  unfold Receiver.getMessageReadStatus. rewrite message_findOne_bind.
  destruct (find _ (messages s)) as [message|]; [|reflexivity].
  rewrite chat_findOne_bind.
  destruct (find _ (chats s)) as [chat|]; reflexivity.
Qed.

(** Receipts of one message with distinct keys have distinct readers. *)
Lemma readers_NoDup (messageId : string) (l : list MessageRead) :
  NoDup (map receipt_key l) ->
  NoDup (map mr_userId
             (filter (fun r => String.eqb (mr_messageId r) messageId) l)).
Proof.
  induction l as [|r l IH]; simpl; [constructor|].
  intros H. inversion H as [|? ? Hnotin Hnd]; subst.
  destruct (String.eqb (mr_messageId r) messageId) eqn:E; [|auto].
  simpl. constructor; [|auto]. intros Hin. apply Hnotin.
  apply in_map_iff in Hin as [r' [Hu Hr']]. apply filter_In in Hr' as [Hr' E'].
  apply String.eqb_eq in E, E'. apply in_map_iff. exists r'. split; [|exact Hr'].
  unfold receipt_key. now rewrite Hu, E, E'.
Qed.

Lemma holds_receipt_reader (s : Store) (messageId u : string) :
  holds_receipt s messageId u <->
  In u (map mr_userId
            (filter (fun r => String.eqb (mr_messageId r) messageId) (message_reads s))).
Proof.
  unfold holds_receipt. rewrite in_map_iff. split.
  - intros [r [Hin [Hm Hu]]]. exists r. split; [exact Hu|].
    apply filter_In. split; [exact Hin|]. now apply String.eqb_eq.
  - intros [r [Hu Hr]]. apply filter_In in Hr as [Hin E]. apply String.eqb_eq in E.
    exists r. auto.
Qed.

(* ================================================================== *)
(** * Receipts *)
(* ================================================================== *)

(** In a well-formed store a (message, user) pair has at most one
    receipt. *)
Lemma receipts_unique (s : Store) (messageId userId : string) :
  wf s -> List.length (receipts_of messageId userId s) <= 1.
Proof.
  intros Hwf. pose proof (wf_receipts Hwf) as Hnd. unfold receipts_of.
  induction (message_reads s) as [|r l IH]; simpl; [lia|].
  inversion Hnd as [|? ? Hnotin Hnd']; subst.
  destruct (MessageReadRepository.matches messageId userId r) eqn:E; [|auto].
  simpl. apply le_n_S.
  destruct (filter (MessageReadRepository.matches messageId userId) l) as [|r' l'] eqn:F;
    [simpl; lia|].
  exfalso. apply Hnotin.
  assert (Hin : In r' (filter (MessageReadRepository.matches messageId userId) l))
    by (rewrite F; now left).
  apply filter_In in Hin as [Hin E'].
  unfold MessageReadRepository.matches in E, E'.
  apply andb_true_iff in E as [E1 E2]. apply andb_true_iff in E' as [E1' E2'].
  apply String.eqb_eq in E1, E2, E1', E2'.
  apply in_map_iff. exists r'. split; [|exact Hin].
  unfold receipt_key. congruence.
Qed.

(* ================================================================== *)
(** * Participants *)
(* ================================================================== *)

Lemma keeps_chats_ret {A} (a : A) : keeps_chats (ret a).
Proof. intros s. reflexivity. Qed.

Lemma keeps_chats_throw {A} (e : Exception) : keeps_chats (@throw A e).
Proof. intros s. reflexivity. Qed.

Lemma keeps_chats_bind {A B} (m : Async A) (k : A -> Async B) :
  keeps_chats m -> (forall a, keeps_chats (k a)) -> keeps_chats (bind m k).
Proof.
  intros Hm Hk s. unfold bind. specialize (Hm s).
  destruct (m s) as [[a|e] s']; simpl in *; [|exact Hm].
  now rewrite Hk.
Qed.

Lemma keeps_chats_for_each {A} (l : list A) (f : A -> Async unit) :
  (forall x, keeps_chats (f x)) -> keeps_chats (for_each l f).
Proof.
  intros Hf. induction l as [|x l' IH]; simpl.
  - apply keeps_chats_ret.
  - apply keeps_chats_bind; [apply Hf | intros ?; exact IH].
Qed.

Lemma keeps_chats_read {A} (f : Store -> A) : keeps_chats (fun s => (Ok (f s), s)).
Proof. intros s. reflexivity. Qed.

Lemma keeps_chats_db_write : keeps_chats db_write.
Proof. intros s. unfold db_write. destruct (writes_left s) as [[|n]|]; reflexivity. Qed.

Lemma keeps_chats_publish (e : Event) : keeps_chats (publish e).
Proof. intros s. reflexivity. Qed.

Lemma keeps_chats_counter_op (op : CounterOp) : keeps_chats (apply_op op).
Proof.
  intros s. destruct (apply_op op s) as [r s'] eqn:E.
  now apply counter_op_frame in E.
Qed.

Lemma keeps_chats_after_write {A} (f : Store -> Result A * Store) :
  (forall s, chats (snd (f s)) = chats s) -> keeps_chats (db_write ;;; f).
Proof.
  intros H. apply keeps_chats_bind; [apply keeps_chats_db_write | intros _; exact H].
Qed.

Create HintDb keeps_chats.
#[local] Hint Resolve keeps_chats_ret keeps_chats_throw keeps_chats_read
  keeps_chats_db_write keeps_chats_publish : keeps_chats.

Ltac keeps_chats_step :=
  first [ solve [auto with keeps_chats]
        | apply (keeps_chats_counter_op (increment _ _))
        | apply (keeps_chats_counter_op (resetToZero _ _))
        | apply keeps_chats_for_each; intros ?
        | apply keeps_chats_after_write; intros ?; reflexivity
        | match goal with
          | |- keeps_chats (if ?b then _ else _) => destruct b
          | |- keeps_chats (match ?x with _ => _ end) => destruct x
          | |- keeps_chats (bind _ _) => apply keeps_chats_bind; [|intros ?]
          end ].

Lemma keeps_chats_chat_findOne (id : string) : keeps_chats (ChatService.findOne id).
Proof. unfold ChatService.findOne, ChatRepository.findOne. repeat keeps_chats_step. Qed.

Lemma keeps_chats_message_findOne (id : string) : keeps_chats (MessageService.findOne id).
Proof.
  unfold MessageService.findOne, MessageRepository.findOne. repeat keeps_chats_step.
Qed.

#[local] Hint Resolve keeps_chats_chat_findOne keeps_chats_message_findOne : keeps_chats.

(** The message commands do not write to [chats]. *)
Lemma message_commands_keep_chats (c : Command) :
  match c with
  | createMessage _ | updateMessage _ _ _ | removeMessage _ _ | markMessageAsRead _ _ =>
      keeps_chats (execute c)
  | _ => True
  end.
Proof.
  destruct c; try exact I; cbn [execute]; unfold discard.
  - unfold MessageService.create, ChatService.isParticipant, MessageRepository.insert.
    repeat keeps_chats_step.
  - unfold MessageService.update, MessageRepository.update.
    repeat keeps_chats_step.
    intros s. apply (keeps_chats_bind (m := db_write ;;; _)); [|intros ?];
      repeat keeps_chats_step.
  - unfold MessageService.remove, MessageRepository.remove. repeat keeps_chats_step.
  - unfold MessageService.markMessageAsRead, ChatService.isParticipant,
      UnreadCountService.getUnreadCount,
      MessageReadRepository.findOne, MessageReadRepository.insert,
      UnreadCountRepository.findOne.
    repeat keeps_chats_step.
Qed.

Lemma chat_update_run (c : Chat) (s : Store) :
  let row := mkChat (chat_id c) (chat_name c) (chat_description c) (chatType c)
                    (participantIds c) (isActive c) (chat_createdAt c) (now s) in
  (writes_left s = Some 0 /\ ChatRepository.update c s = (Throw StoreUnavailable, s)) \/
  (writes_left s <> Some 0 /\
   exists w, ChatRepository.update c s =
             (Ok row, tick (set_chats (replace_row chat_id c row (chats s))
                                      (set_writes_left w s)))).
Proof.
  intros row. unfold ChatRepository.update, bind.
  destruct (db_write_cases s) as [[H0 ->]|[H0 [w [-> Hw]]]]; [left; auto | right].
  split; [assumption|]. exists w. reflexivity.
Qed.

Lemma replaced_chat (found row chat : Chat) (l : list Chat) :
  NoDup (map chat_id l) -> In found l -> In chat l -> chat_id row = chat_id found ->
  (chat = found /\ In row (replace_row chat_id found row l)) \/
  (chat_id chat <> chat_id found /\ In chat (replace_row chat_id found row l)).
Proof.
  intros Hnd Hf Hc Hid.
  destruct (string_dec (chat_id chat) (chat_id found)) as [E|E].
  - left. split; [eapply key_unique; eauto | now apply replace_row_In_same].
  - right. split; [exact E | now apply replace_row_In_other].
Qed.

(* ================================================================== *)
(** * Commands on an unavailable store *)
(* ================================================================== *)

Lemma aborts_write {A} (k : Async A) : aborts (db_write ;;; k).
Proof. intros s H. unfold bind, db_write. now rewrite H. Qed.

Lemma aborts_bind {A B} (m : Async A) (k : A -> Async B) : aborts m -> aborts (bind m k).
Proof. intros Hm s H. unfold bind. now rewrite (Hm s H). Qed.

Lemma quiet_aborts {A} (m : Async A) : aborts m -> quiet m.
Proof. intros Hm s H. rewrite (Hm s H). simpl. auto. Qed.

Lemma quiet_ret {A} (a : A) : quiet (ret a).
Proof. intros s H. simpl. auto. Qed.

Lemma quiet_throw {A} (e : Exception) : quiet (@throw A e).
Proof. intros s H. simpl. auto. Qed.

Lemma quiet_read {A} (f : Store -> A) :
  (forall s, f (set_writes_left None s) = f s) -> quiet (fun s => (Ok (f s), s)).
Proof. intros Hf s H. simpl. rewrite Hf. auto. Qed.

Lemma quiet_bind {A B} (m : Async A) (k : A -> Async B) :
  quiet m -> (forall a, quiet (k a)) -> quiet (bind m k).
Proof.
  intros Hm Hk s H. unfold bind. destruct (Hm s H) as [Hs Hr].
  destruct (m s) as [[a|e] s1]; simpl in *; subst s1.
  - destruct Hr as [Hr|Hr]; [discriminate|]. rewrite Hr.
    exact (Hk a s H).
  - split; [reflexivity|].
    destruct Hr as [Hr|Hr]; [injection Hr as ->; now left | right]. now rewrite Hr.
Qed.

Lemma quiet_pointwise {A} (F : Store -> Async A) :
  (forall s0, quiet (F s0)) ->
  (forall s, F (set_writes_left None s) = F s) ->
  quiet (fun s => F s s).
Proof.
  intros HF Hind s H. destruct (HF s s H) as [Hs Hr]. split; [exact Hs|].
  destruct Hr as [Hr|Hr]; [now left | right]. now rewrite Hind.
Qed.

Create HintDb quiet.
#[local] Hint Resolve quiet_ret quiet_throw : quiet.

Ltac quiet_step :=
  first [ solve [auto with quiet]
        | apply quiet_aborts; first [ apply aborts_write
                                    | apply aborts_bind; apply aborts_write
                                    | apply aborts_bind; apply aborts_bind;
                                      apply aborts_write ]
        | apply quiet_read; intros ?; reflexivity
        | match goal with
          | |- quiet (if ?b then _ else _) => destruct b
          | |- quiet (match ?x with _ => _ end) => destruct x
          | |- quiet (bind _ _) => apply quiet_bind; [|intros ?]
          end ].

Lemma quiet_execute (c : Command) : quiet (execute c).
Proof.
  destruct c; cbn [execute]; unfold discard.
  - unfold ChatService.create, ChatRepository.insert. repeat quiet_step.
  - unfold ChatService.addParticipant, ChatService.findOne, ChatRepository.findOne,
      ChatRepository.update.
    repeat quiet_step.
  - unfold ChatService.addParticipants, ChatService.findOne, ChatRepository.findOne,
      ChatRepository.update.
    repeat quiet_step.
  - unfold ChatService.removeParticipant, ChatService.findOne, ChatRepository.findOne,
      ChatRepository.update.
    repeat quiet_step.
  - unfold ChatService.remove, ChatService.findOne, ChatRepository.findOne,
      ChatRepository.update.
    repeat quiet_step.
  - unfold MessageService.create, ChatService.isParticipant, ChatService.findOne,
      ChatRepository.findOne, MessageRepository.insert.
    repeat quiet_step.
  - unfold MessageService.update, MessageService.findOne, MessageRepository.findOne,
      MessageRepository.update.
    repeat quiet_step.
    apply (quiet_pointwise
             (fun s0 => updatedMessage <-
                          (db_write ;;;
                           (fun s1 => (Ok (mkMessage (msg_id a) content (msg_senderId a)
                                                     (msg_chatId a) true (Some (now s0))
                                                     (msg_createdAt a)),
                                       tick (set_messages
                                               (replace_row msg_id
                                                  (mkMessage (msg_id a) content
                                                     (msg_senderId a) (msg_chatId a) true
                                                     (Some (now s0)) (msg_createdAt a))
                                                  (mkMessage (msg_id a) content
                                                     (msg_senderId a) (msg_chatId a) true
                                                     (Some (now s0)) (msg_createdAt a))
                                                  (messages s1)) s1)))) ;;
                        publish (messageUpdated updatedMessage) ;;; ret updatedMessage)).
    + intros s0. repeat quiet_step.
    + intros s. reflexivity.
  - unfold MessageService.remove, MessageService.findOne, MessageRepository.findOne,
      MessageRepository.remove.
    repeat quiet_step.
  - unfold MessageService.markMessageAsRead, MessageService.findOne,
      MessageRepository.findOne, ChatService.isParticipant, ChatService.findOne,
      ChatRepository.findOne, MessageReadRepository.findOne, MessageReadRepository.insert.
    repeat quiet_step.
Qed.

(* ================================================================== *)
(** * Calls in flight *)
(* ================================================================== *)

(** The three awaits of a call, taken without interruption, are the
    operation. *)
Lemma advance_thrice (op : CounterOp) (s : Store) :
  let (c1, s1) := advance (start op) s in
  let (c2, s2) := advance c1 s1 in
  advance c2 s2 = (mkCall op (settled (fst (apply_op op s))), snd (apply_op op s)).
Proof.
  unfold start, advance at 1. cbn [call_at call_op].
  unfold UnreadCountRepository.findOne at 1.
  unfold advance at 1. cbn [call_at call_op].
  destruct op as [c u|c u]; cbn [apply_op op_chatId op_userId].
  - unfold UnreadCountService.incrementUnreadCount. rewrite findOne_bind.
    destruct (find (UnreadCountRepository.matches c u) (unread_counts s)) as [r|].
    + unfold bind.
      destruct (UnreadCountRepository.update _ s) as [[saved|e] s']; reflexivity.
    + unfold bind.
      destruct (UnreadCountRepository.insert c u 1 s) as [[saved|e] s']; reflexivity.
  - unfold UnreadCountService.resetUnreadCount. rewrite findOne_bind.
    destruct (find (UnreadCountRepository.matches c u) (unread_counts s)) as [r|].
    + unfold bind.
      destruct (UnreadCountRepository.update _ s) as [[saved|e] s']; reflexivity.
    + unfold bind.
      destruct (UnreadCountRepository.insert c u 0 s) as [[saved|e] s']; reflexivity.
Qed.

Lemma nth_error_middle {A} (l l' : list A) (x : A) :
  nth_error (l ++ x :: l') (List.length l) = Some x.
Proof. induction l as [|y l IH]; simpl; [reflexivity | exact IH]. Qed.

Lemma set_nth_middle {A} (l l' : list A) (x y : A) :
  set_nth (List.length l) y (l ++ x :: l') = l ++ y :: l'.
Proof. induction l as [|z l IH]; simpl; [reflexivity | now rewrite IH]. Qed.

(** The serial schedule runs the operations one after the other. *)
Lemma interleave_serial (ops : list CounterOp) :
  forall (finished : list Call) (s : Store),
    interleave (serial_from (List.length finished) (List.length ops))
               (finished ++ map start ops) s
    = (finished ++ settle_all ops s, run_ops ops s).
Proof.
  induction ops as [|op ops IH]; intros finished s; [reflexivity|].
  cbn [List.length serial_from map settle_all].
  pose proof (advance_thrice op s) as H3.
  cbn [interleave]. rewrite nth_error_middle.
  destruct (advance (start op) s) as [c1 s1]. rewrite set_nth_middle.
  rewrite nth_error_middle.
  destruct (advance c1 s1) as [c2 s2]. rewrite set_nth_middle.
  rewrite nth_error_middle, H3, set_nth_middle.
  specialize (IH (finished ++ [mkCall op (settled (fst (apply_op op s)))])
                 (snd (apply_op op s))).
  rewrite length_app, Nat.add_1_r, <- !app_assoc in IH. exact IH.
Qed.

Lemma settle_all_returned (ops : list CounterOp) :
  forall s, wf s -> writes_left s = None ->
            forallb returned (settle_all ops s) = true.
Proof.
  induction ops as [|op ops IH]; intros s Hwf Hw; [reflexivity|].
  destruct (count_after_op op Hwf Hw) as [row [s1 [E [Hwf1 [Hw1 _]]]]].
  cbn [settle_all forallb]. rewrite E. cbn. now apply IH.
Qed.

Lemma discard_snd {A} (m : Async A) (s : Store) : snd (discard m s) = snd (m s).
Proof. unfold discard, bind. destruct (m s) as [[a|e] s']; reflexivity. Qed.

(* ================================================================== *)
(** * Editing and deleting messages *)
(* ================================================================== *)

Lemma message_update_run (m : Message) (s : Store) :
  (writes_left s = Some 0 /\ MessageRepository.update m s = (Throw StoreUnavailable, s)) \/
  (writes_left s <> Some 0 /\
   exists w, (writes_left s = None -> w = None) /\
             MessageRepository.update m s =
             (Ok m, tick (set_messages (replace_row msg_id m m (messages s))
                                       (set_writes_left w s)))).
Proof.
  unfold MessageRepository.update, bind.
  destruct (db_write_cases s) as [[H0 ->]|[H0 [w [-> Hw]]]]; [left; auto | right].
  split; [assumption|]. exists w. split; [assumption | reflexivity].
Qed.

Lemma message_remove_run (m : Message) (s : Store) :
  (writes_left s = Some 0 /\ MessageRepository.remove m s = (Throw StoreUnavailable, s)) \/
  (writes_left s <> Some 0 /\
   exists w, (writes_left s = None -> w = None) /\
             MessageRepository.remove m s =
             (Ok tt,
              tick (set_message_reads
                      (filter (fun r => negb (String.eqb (mr_messageId r) (msg_id m)))
                              (message_reads s))
                      (set_messages
                         (filter (fun r => negb (String.eqb (msg_id r) (msg_id m)))
                                 (messages s))
                         (set_writes_left w s))))).
Proof.
  unfold MessageRepository.remove, bind.
  destruct (db_write_cases s) as [[H0 ->]|[H0 [w [-> Hw]]]]; [left; auto | right].
  split; [assumption|]. exists w. split; [assumption | reflexivity].
Qed.

Lemma find_id_found (id : string) (l : list Message) (m : Message) :
  find (fun m => String.eqb (msg_id m) id) l = Some m -> In m l /\ msg_id m = id.
Proof.
  intros H. apply find_some in H as [Hin E]. apply String.eqb_eq in E. auto.
Qed.

(** No row of a deleted key is left. *)
Lemma find_after_delete {Row} (key : Row -> string) (id : string) (l : list Row) :
  find (fun r => String.eqb (key r) id)
       (filter (fun r => negb (String.eqb (key r) id)) l) = None.
Proof.
  induction l as [|x l IH]; simpl; [reflexivity|].
  destruct (String.eqb (key x) id) eqn:E; simpl; [exact IH|]. now rewrite E.
Qed.

Lemma message_findOne_found (id : string) (s : Store) (m : Message) :
  find (fun m => String.eqb (msg_id m) id) (messages s) = Some m ->
  MessageService.findOne id s = (Ok m, s).
Proof.
  intros H. unfold MessageService.findOne, MessageRepository.findOne, bind.
  now rewrite H.
Qed.

Lemma message_findOne_missing (id : string) (s : Store) :
  find (fun m => String.eqb (msg_id m) id) (messages s) = None ->
  MessageService.findOne id s
  = (Throw (NotFoundException ("Message with ID " ++ id ++ " not found")), s).
Proof.
  intros H. unfold MessageService.findOne, MessageRepository.findOne, bind.
  now rewrite H.
Qed.

Lemma chat_findOne_found (id : string) (s : Store) (c : Chat) :
  find (fun c => String.eqb (chat_id c) id && isActive c)%bool (chats s) = Some c ->
  ChatService.findOne id s = (Ok c, s).
Proof.
  intros H. unfold ChatService.findOne, ChatRepository.findOne, bind.
  now rewrite H.
Qed.

Lemma chat_findOne_missing (id : string) (s : Store) :
  find (fun c => String.eqb (chat_id c) id && isActive c)%bool (chats s) = None ->
  ChatService.findOne id s
  = (Throw (NotFoundException ("Chat with ID " ++ id ++ " not found")), s).
Proof.
  intros H. unfold ChatService.findOne, ChatRepository.findOne, bind.
  now rewrite H.
Qed.

(** The loop of [create] over distinct users: what it publishes and
    what it leaves alone. *)
Lemma increments_published (c : string) (l : list string) :
  forall s s' r,
    wf s -> NoDup l ->
    for_each l (fun participantId =>
                  UnreadCountService.incrementUnreadCount c participantId ;;; ret tt) s
    = (Ok r, s') ->
    published s'
    = published s ++ map (fun u => unreadCountUpdated c u (count_of c u s + 1)%Z) l /\
    messages s' = messages s /\ message_reads s' = message_reads s /\
    chats s' = chats s.
Proof.
  induction l as [|x l IH]; intros s s' r Hwf Hnd H.
  - simpl in H. injection H as _ <-. simpl. now rewrite app_nil_r.
  - cbn [for_each] in H. unfold bind at 1 in H. unfold bind at 1 in H.
    destruct (counter_op_spec (increment c x) Hwf) as [[_ E]|[_ [row [s1 [E Hp]]]]];
      cbn [apply_op] in E; rewrite E in H; [discriminate|].
    cbn [op_chatId op_userId written] in Hp. cbv beta iota in H. unfold ret at 1 in H.
    apply NoDup_cons_iff in Hnd as [Hnew Hnd].
    destruct (IH s1 s' r (cp_wf Hp) Hnd H) as [Hpub [Hm [Hr Hc]]].
    rewrite Hpub, Hm, Hr, Hc, (cp_published Hp), (cp_messages Hp), (cp_reads Hp),
      (cp_chats Hp).
    split; [|auto]. rewrite <- app_assoc. simpl. do 2 f_equal.
    apply map_ext_in. intros u Hu. f_equal. f_equal.
    unfold count_of, stored_count. rewrite (cp_others Hp); [reflexivity|].
    rewrite matches_key. apply andb_false_iff. right. apply String.eqb_neq.
    intros ->. contradiction.
Qed.

Lemma create_ok_events (input : CreateMessageInput) (s s' : Store) (m : Message) :
  wf s ->
  MessageService.create input s = (Ok m, s') ->
  exists chat s0,
    find (fun c => String.eqb (chat_id c) (cmi_chatId input) && isActive c) (chats s)
    = Some chat /\
    m = mkMessage (gen_uuid (next_uuid s)) (cmi_content input) (cmi_senderId input)
                  (cmi_chatId input) false None (now s) /\
    wf s0 /\ unread_counts s0 = unread_counts s /\
    messages s0 = messages s ++ [m] /\ message_reads s0 = message_reads s /\
    chats s0 = chats s /\
    published s0
    = published s ++ [messageAdded m;
                      chatMessageNotification (cmi_chatId input) m (cmi_senderId input);
                      messageUpdateForChatList (cmi_chatId input) m (cmi_senderId input)] /\
    for_each (without (cmi_senderId input) (participantIds chat))
      (fun participantId =>
         UnreadCountService.incrementUnreadCount (cmi_chatId input) participantId ;;;
         ret tt) s0 = (Ok tt, s').
Proof.
  intros Hwf H. rewrite create_unfold in H.
  destruct (find _ (chats s)) as [chat|] eqn:Ec; [|discriminate].
  destruct (includes (participantIds chat) (cmi_senderId input)) eqn:Ei; [|discriminate].
  destruct (message_insert_run input s) as [[_ E]|[_ [w [_ E]]]].
  { rewrite (bind_throw _ E) in H. discriminate. }
  rewrite (bind_ok _ E) in H. clear E.
  unfold bind at 1 2 3 in H. unfold publish at 1 2 3 in H. cbv beta iota in H.
  match type of H with
  | bind _ _ ?s0 = _ => set (st := s0) in H
  end.
  rewrite chat_findOne_bind in H.
  change (chats st) with (chats s) in H. rewrite Ec in H.
  unfold bind at 1 in H.
  destruct (for_each _ _ st) as [[[]|e] s2] eqn:Eloop; [|discriminate].
  injection H as <- <-.
  exists chat, st. split; [reflexivity|]. split; [reflexivity|].
  split; [apply (wf_frame _ Hwf); simpl; auto|]. split; [reflexivity|].
  split; [reflexivity|]. split; [reflexivity|]. split; [reflexivity|].
  split; [|exact Eloop]. cbn. now rewrite <- !app_assoc.
Qed.

Lemma count_of_nonneg (c u : string) (s : Store) : wf s -> (0 <= count_of c u s)%Z.
Proof.
  intros Hwf. unfold count_of, stored_count.
  destruct (find (UnreadCountRepository.matches c u) (unread_counts s)) as [r|] eqn:E;
    simpl; [|lia].
  pose proof (wf_nonneg Hwf) as Hnn. rewrite Forall_forall in Hnn.
  apply Hnn. now apply find_some in E.
Qed.

(** The run of [markMessageAsRead] past the checks, on a well-formed
    store: the counter of the reader ends at zero. *)
Lemma mark_fresh_counts (messageId userId chatId : string) (s s1 : Store) (r : MessageRead) :
  wf s ->
  find (MessageReadRepository.matches messageId userId) (message_reads s) = None ->
  (savedRead <- MessageReadRepository.insert messageId userId ;;
   _chat <- ChatService.findOne chatId ;;
   unreadCount_ <- UnreadCountService.getUnreadCount chatId userId ;;
   (if (0 <? unreadCount_)%Z
    then UnreadCountService.resetUnreadCount chatId userId ;;; ret tt
    else ret tt) ;;;
   publish (messageReadUpdated messageId userId (readAt savedRead)) ;;;
   ret savedRead) s = (Ok r, s1) ->
  r = mkMessageRead (gen_uuid (next_uuid s)) messageId userId (now s) /\
  count_of chatId userId s1 = 0%Z /\
  (forall c u, UnreadCountRepository.matches chatId userId (mkUnreadCount "" c u 0 0 0)
               = false ->
               find (UnreadCountRepository.matches c u) (unread_counts s1)
               = find (UnreadCountRepository.matches c u) (unread_counts s)) /\
  published s1
  = published s
    ++ (if (0 <? count_of chatId userId s)%Z
        then [unreadCountUpdated chatId userId 0] else [])
    ++ [messageReadUpdated messageId userId (now s)].
Proof.
  intros Hwf Hnone.
  pose proof (keeps_read_insert _ _ Hwf Hnone) as Hwf0.
  destruct (read_insert_run messageId userId s) as [[_ E]|[_ [w [_ E]]]].
  { rewrite (bind_throw _ E). discriminate. }
  rewrite E in Hwf0. simpl in Hwf0. rewrite (bind_ok _ E). clear E.
  set (s0 := fresh _) in *.
  destruct (ChatService.findOne chatId s0) as [[c|e] s0'] eqn:Ec.
  2:{ rewrite (bind_throw _ Ec). discriminate. }
  rewrite (bind_ok _ Ec). apply findOne_chat_ok in Ec as [-> _].
  rewrite (bind_ok _ (getUnreadCount_spec chatId userId s0)).
  change (count_of chatId userId s0) with (count_of chatId userId s).
  destruct (0 <? count_of chatId userId s)%Z eqn:Epos.
  - unfold bind at 1. unfold bind at 1.
    destruct (counter_op_spec (resetToZero chatId userId) Hwf0)
      as [[_ Er]|[_ [row [s2 [Er Hp]]]]]; cbn [apply_op] in Er; rewrite Er;
      [discriminate|].
    cbn [op_chatId op_userId written] in Hp.
    cbn. intros H. injection H as <- <-. cbn.
    split; [reflexivity|]. split; [|split].
    + unfold count_of, stored_count. cbn. rewrite (cp_stored Hp). simpl.
      exact (cp_value Hp).
    + intros c' u' Hk. cbn. now rewrite (cp_others Hp).
    + rewrite (cp_published Hp). cbn. now rewrite <- app_assoc.
  - cbn. intros H. injection H as <- <-. cbn.
    split; [reflexivity|]. split; [|split; reflexivity].
    change (count_of chatId userId _) with (count_of chatId userId s).
    apply Z.ltb_ge in Epos. pose proof (count_of_nonneg chatId userId Hwf). lia.
Qed.

(* ================================================================== *)
(** * Chats *)
(* ================================================================== *)

Lemma includes_In (l : list string) (x : string) : includes l x = true <-> In x l.
Proof.
  unfold includes. rewrite existsb_exists. split.
  - intros [y [Hin E]]. apply String.eqb_eq in E. now subst y.
  - intros Hin. exists x. split; [exact Hin | apply String.eqb_refl].
Qed.

Lemma includes_not_In (l : list string) (x : string) : includes l x = false <-> ~ In x l.
Proof.
  rewrite <- includes_In. destruct (includes l x); split; congruence.
Qed.

Lemma chat_insert_run (input : CreateChatInput) (s : Store) :
  let row := mkChat (gen_uuid (next_uuid s)) (cci_name input) (cci_description input)
                    (match cci_chatType input with Some t => t | None => "group" end)
                    (cci_participantIds input) true (now s) (now s) in
  (writes_left s = Some 0 /\ ChatRepository.insert input s = (Throw StoreUnavailable, s)) \/
  (writes_left s <> Some 0 /\
   exists w, ChatRepository.insert input s =
             (Ok row, fresh (set_chats (chats s ++ [row]) (set_writes_left w s)))).
Proof.
  intros row. unfold ChatRepository.insert, bind.
  destruct (db_write_cases s) as [[H0 ->]|[H0 [w [-> Hw]]]]; [left; auto | right].
  split; [assumption|]. exists w. reflexivity.
Qed.

(** After an update that deactivates the rows of a chat id, no active row
    of that id is left. *)
Lemma find_deactivated (found row : Chat) (l : list Chat) :
  isActive row = false ->
  find (fun c => String.eqb (chat_id c) (chat_id found) && isActive c)%bool
       (replace_row chat_id found row l) = None.
Proof.
  intros Hrow. unfold replace_row. induction l as [|x l IH]; simpl; [reflexivity|].
  destruct (String.eqb (chat_id x) (chat_id found)) eqn:E.
  - rewrite Hrow, andb_false_r. exact IH.
  - rewrite E. exact IH.
Qed.

(** A chat with a key the store has not generated yet is not found. *)
Lemma find_fresh_chat (s : Store) :
  wf s ->
  find (fun c => String.eqb (chat_id c) (gen_uuid (next_uuid s)) && isActive c)%bool
       (chats s) = None.
Proof.
  intros Hwf. destruct (find _ (chats s)) as [c|] eqn:E; [|reflexivity].
  exfalso. apply find_some in E as [Hin Hc]. apply andb_true_iff in Hc as [Hc _].
  apply String.eqb_eq in Hc.
  apply (generated_fresh (wf_chat_gen Hwf)). rewrite <- Hc. now apply in_map.
Qed.

(* ================================================================== *)
(** * A client that follows the counter events *)
(* ================================================================== *)

Lemma lookup_assign_other (c c' : string) (v : Z) (prev : Client.UnreadCounts) :
  c' <> c -> Client.lookup c' (Client.assign c v prev) = Client.lookup c' prev.
Proof.
  intros Hne. induction prev as [|[k w] m IH]; simpl.
  - apply String.eqb_neq in Hne. rewrite String.eqb_sym. now rewrite Hne.
  - destruct (String.eqb k c) eqn:E; simpl.
    + apply String.eqb_eq in E. subst k.
      assert (String.eqb c c' = false) as ->
          by (apply String.eqb_neq; congruence).
      reflexivity.
    + destruct (String.eqb k c'); [reflexivity | exact IH].
Qed.

Lemma onData_counter (userId c u : string) (n : Z) (prev : Client.UnreadCounts) (c' : string) :
  Client.getUnreadCount (Client.onData userId prev (unreadCountUpdated c u n)) c'
  = if (String.eqb u userId && String.eqb c c')%bool
    then n else Client.getUnreadCount prev c'.
Proof.
  unfold Client.onData. cbn [Receiver.filter_].
  destruct (String.eqb u userId); cbn [andb]; [|reflexivity].
  unfold Client.getUnreadCount.
  destruct (String.eqb c c') eqn:E.
  - apply String.eqb_eq in E. subst c'. rewrite lookup_assign.
    destruct (n =? 0)%Z eqn:En; [|reflexivity]. apply Z.eqb_eq in En. now rewrite En.
  - apply String.eqb_neq in E. rewrite lookup_assign_other; [reflexivity | congruence].
Qed.

(* ================================================================== *)
(** * Receipts when nobody marks an own message *)
(* ================================================================== *)

Lemma extends_refl (s : Store) : extends s s.
Proof. repeat split; auto. Qed.

Lemma extends_trans (s1 s2 s3 : Store) : extends s1 s2 -> extends s2 s3 -> extends s1 s3.
Proof.
  intros [A1 [B1 C1]] [A2 [B2 C2]]. repeat split; try congruence. lia.
Qed.

Lemma frames_ret {A} (a : A) : frames (ret a).
Proof. intros s. apply extends_refl. Qed.

Lemma frames_throw {A} (e : Exception) : frames (@throw A e).
Proof. intros s. apply extends_refl. Qed.

Lemma frames_bind {A B} (m : Async A) (k : A -> Async B) :
  frames m -> (forall a, frames (k a)) -> frames (bind m k).
Proof.
  intros Hm Hk s. unfold bind. specialize (Hm s).
  destruct (m s) as [[a|e] s']; simpl in *; [|exact Hm].
  eapply extends_trans; [exact Hm | apply Hk].
Qed.

Lemma frames_for_each {A} (l : list A) (f : A -> Async unit) :
  (forall x, frames (f x)) -> frames (for_each l f).
Proof.
  intros Hf. induction l as [|x l' IH]; simpl.
  - apply frames_ret.
  - apply frames_bind; [apply Hf | intros ?; exact IH].
Qed.

Lemma frames_read {A} (f : Store -> A) : frames (fun s => (Ok (f s), s)).
Proof. intros s. apply extends_refl. Qed.

Lemma frames_db_write : frames db_write.
Proof.
  intros s. unfold db_write.
  destruct (writes_left s) as [[|n]|]; repeat split; simpl; auto.
Qed.

Lemma frames_publish (e : Event) : frames (publish e).
Proof. intros s. repeat split; simpl; auto. Qed.

Lemma frames_after_write {A} (f : Store -> Result A * Store) :
  (forall s, extends s (snd (f s))) -> frames (db_write ;;; f).
Proof.
  intros H. apply frames_bind; [apply frames_db_write | intros _; exact H].
Qed.

Create HintDb frames.
#[local] Hint Resolve frames_ret frames_throw frames_read frames_db_write frames_publish
  : frames.

Ltac frames_step :=
  first [ solve [auto with frames]
        | apply frames_for_each; intros ?
        | apply frames_after_write; intros ?; repeat split; simpl; auto; fail
        | match goal with
          | |- frames (if ?b then _ else _) => destruct b
          | |- frames (match ?x with _ => _ end) => destruct x
          | |- frames (bind _ _) => apply frames_bind; [|intros ?]
          end ].

Lemma frames_counter_insert (c u : string) (n : Z) :
  frames (UnreadCountRepository.insert c u n).
Proof.
  unfold UnreadCountRepository.insert. apply frames_after_write. intros s.
  destruct (existsb _ _); repeat split; simpl; auto.
Qed.

Lemma frames_counter_update (r : UnreadCount) : frames (UnreadCountRepository.update r).
Proof.
  unfold UnreadCountRepository.update. apply frames_after_write. intros s.
  repeat split; simpl; auto.
Qed.

#[local] Hint Resolve frames_counter_insert frames_counter_update : frames.

Lemma frames_counter_op (op : CounterOp) : frames (apply_op op).
Proof.
  destruct op; cbn [apply_op];
    unfold UnreadCountService.incrementUnreadCount, UnreadCountService.resetUnreadCount,
      UnreadCountRepository.findOne;
    repeat frames_step.
Qed.

Lemma frames_chat_findOne (id : string) : frames (ChatService.findOne id).
Proof. unfold ChatService.findOne, ChatRepository.findOne. repeat frames_step. Qed.

Lemma frames_chat_insert (input : CreateChatInput) : frames (ChatRepository.insert input).
Proof.
  unfold ChatRepository.insert. apply frames_after_write. intros s.
  repeat split; simpl; auto.
Qed.

Lemma frames_chat_update (c : Chat) : frames (ChatRepository.update c).
Proof.
  unfold ChatRepository.update. apply frames_after_write. intros s.
  repeat split; simpl; auto.
Qed.

#[local] Hint Resolve frames_chat_findOne frames_chat_insert frames_chat_update
  : frames.

(** The chat commands write neither messages nor receipts. *)
Lemma chat_commands_frame (c : Command) :
  match c with
  | createChat _ | addParticipant _ _ | addParticipants _ _ | removeParticipant _ _
  | removeChat _ => frames (execute c)
  | _ => True
  end.
Proof.
  destruct c; try exact I; cbn [execute]; unfold discard.
  - unfold ChatService.create. repeat frames_step.
  - unfold ChatService.addParticipant. repeat frames_step.
  - unfold ChatService.addParticipants. repeat frames_step.
  - unfold ChatService.removeParticipant. repeat frames_step.
  - unfold ChatService.remove. repeat frames_step.
Qed.

Lemma receipts_wf_extends (s s' : Store) : receipts_wf s -> extends s s' -> receipts_wf s'.
Proof.
  intros [H1 H2 H3] [Em [Er Hn]]. constructor; rewrite ?Em, ?Er; try assumption.
  eapply Forall_impl; [|exact H2]. intros a. now apply generated_mono.
Qed.

Lemma receipts_wf_empty : receipts_wf empty_store.
Proof. constructor; simpl; try constructor. intros r []. Qed.

(** The part of [create] after the message is saved. *)
Lemma frames_create_rest (input : CreateMessageInput) (savedMessage : Message) :
  frames (publish (messageAdded savedMessage) ;;;
          publish (chatMessageNotification (cmi_chatId input) savedMessage
                                           (cmi_senderId input)) ;;;
          publish (messageUpdateForChatList (cmi_chatId input) savedMessage
                                            (cmi_senderId input)) ;;;
          chat <- ChatService.findOne (cmi_chatId input) ;;
          for_each (without (cmi_senderId input) (participantIds chat))
            (fun participantId =>
               UnreadCountService.incrementUnreadCount (cmi_chatId input) participantId ;;;
               ret tt) ;;;
          ret savedMessage).
Proof.
  repeat first [ apply (frames_counter_op (increment _ _)) | frames_step ].
Qed.

(** The part of [markMessageAsRead] after the receipt is saved. *)
Lemma frames_mark_rest (messageId userId chatId : string) (savedRead : MessageRead) :
  frames (_chat <- ChatService.findOne chatId ;;
          unreadCount_ <- UnreadCountService.getUnreadCount chatId userId ;;
          (if (0 <? unreadCount_)%Z
           then UnreadCountService.resetUnreadCount chatId userId ;;; ret tt
           else ret tt) ;;;
          publish (messageReadUpdated messageId userId (readAt savedRead)) ;;;
          ret savedRead).
Proof.
  unfold UnreadCountService.getUnreadCount, UnreadCountRepository.findOne.
  repeat first [ apply (frames_counter_op (resetToZero _ _)) | frames_step ].
Qed.

Lemma Forall_map_filter {A B} (P : B -> Prop) (f : A -> B) (p : A -> bool) (l : list A) :
  Forall P (map f l) -> Forall P (map f (filter p l)).
Proof.
  rewrite !Forall_forall. intros H y Hy. apply H.
  apply in_map_iff in Hy as [x [<- Hx]]. apply in_map.
  apply filter_In in Hx. tauto.
Qed.

Lemma receipts_wf_execute (c : Command) (s : Store) :
  receipts_wf s -> ~ marks_own_message s c -> receipts_wf (snd (execute c s)).
Proof.
  intros Hwf Hpolite.
  destruct c as [input|id u|id us|id u|id|input|id content u|id u|id u];
    try (eapply receipts_wf_extends; [exact Hwf|];
         first [ apply (chat_commands_frame (createChat input))
               | apply (chat_commands_frame (addParticipant id u))
               | apply (chat_commands_frame (addParticipants id us))
               | apply (chat_commands_frame (removeParticipant id u))
               | apply (chat_commands_frame (removeChat id)) ]; fail);
    cbn [execute]; rewrite discard_snd.
  - (* createMessage *)
    rewrite create_unfold.
    destruct (find _ (chats s)) as [chat|]; [|exact Hwf].
    destruct (includes (participantIds chat) (cmi_senderId input)); [|exact Hwf].
    destruct (message_insert_run input s) as [[_ E]|[_ [w [_ E]]]].
    { now rewrite (bind_throw _ E). }
    rewrite (bind_ok _ E). cbv beta.
    eapply receipts_wf_extends; [|apply frames_create_rest].
    destruct Hwf as [H1 H2 H3]. constructor; cbn -[gen_uuid].
    + rewrite map_app. simpl. apply NoDup_app_remove_r with (l' := []).
      rewrite app_nil_r. apply NoDup_app; [assumption | repeat constructor; simpl; tauto |].
      intros x Hx [<-|[]]. now apply (generated_fresh H2).
    + rewrite map_app. apply Forall_app. split.
      * eapply Forall_impl; [|exact H2]. intros a. apply generated_mono. lia.
      * repeat constructor. exists (next_uuid s). split; [lia | reflexivity].
    + intros r Hr. destruct (H3 r Hr) as [m [Hin H]]. exists m.
      split; [apply in_or_app; now left | exact H].
  - (* updateMessage *)
    unfold MessageService.update. rewrite message_findOne_bind.
    destruct (find _ (messages s)) as [m|] eqn:Hf; [|exact Hwf].
    destruct (negb (String.eqb (msg_senderId m) u)); [exact Hwf|]. cbv beta.
    match goal with
    | |- context [MessageRepository.update ?m'] =>
        destruct (message_update_run m' s) as [[_ E]|[_ [w [_ E]]]]; set (row := m') in *
    end.
    { now rewrite (bind_throw _ E). }
    rewrite (bind_ok _ E). cbn -[row].
    change (replace_row msg_id row row) with (replace_row msg_id m row).
    destruct (find_id_found _ _ Hf) as [Hin Hid].
    destruct Hwf as [H1 H2 H3]. constructor; cbn -[row].
    + now rewrite replace_row_keys.
    + now rewrite replace_row_keys.
    + intros r Hr. destruct (H3 r Hr) as [m0 [Hin0 [Hid0 Hs0]]].
      destruct (string_dec (msg_id m0) (msg_id m)) as [E0|E0].
      * assert (m0 = m) by (eapply key_unique; eauto). subst m0.
        exists row. split; [now apply replace_row_In_same | auto].
      * exists m0. split; [now apply replace_row_In_other | auto].
  - (* removeMessage *)
    unfold MessageService.remove. rewrite message_findOne_bind.
    destruct (find _ (messages s)) as [m|] eqn:Hf; [|exact Hwf].
    destruct (negb (String.eqb (msg_senderId m) u)); [exact Hwf|].
    destruct (message_remove_run m s) as [[_ E]|[_ [w [_ E]]]].
    { now rewrite (bind_throw _ E). }
    rewrite (bind_ok _ E). cbn.
    destruct Hwf as [H1 H2 H3]. constructor; cbn.
    + now apply filter_keeps_distinct_keys.
    + now apply Forall_map_filter.
    + intros r Hr. apply filter_In in Hr as [Hr Hne].
      destruct (H3 r Hr) as [m0 [Hin0 [Hid0 Hs0]]]. exists m0.
      split; [|auto]. apply filter_In. split; [exact Hin0|]. now rewrite Hid0.
  - (* markMessageAsRead *)
    rewrite markMessageAsRead_unfold.
    destruct (find _ (messages s)) as [m|] eqn:Hf; [|exact Hwf].
    destruct (find _ (chats s)) as [chat|]; [|exact Hwf].
    destruct (includes (participantIds chat) u); [|exact Hwf].
    destruct (find _ (message_reads s)) as [r0|]; [exact Hwf|].
    destruct (read_insert_run id u s) as [[_ E]|[_ [w [_ E]]]].
    { now rewrite (bind_throw _ E). }
    rewrite (bind_ok _ E). cbv beta.
    eapply receipts_wf_extends; [|apply frames_mark_rest].
    destruct (find_id_found _ _ Hf) as [Hin Hid].
    destruct Hwf as [H1 H2 H3]. constructor; cbn -[gen_uuid].
    + assumption.
    + eapply Forall_impl; [|exact H2]. intros a. apply generated_mono. lia.
    + intros r Hr. apply in_app_or in Hr as [Hr|[<-|[]]]; [now apply H3|].
      exists m. split; [exact Hin|]. split; [exact Hid|]. cbn.
      intros Hs. apply Hpolite. cbn. exists m. auto.
Qed.

Lemma reachable_by_readers_wf (s : Store) : reachable_by_readers s -> receipts_wf s.
Proof.
  induction 1 as [|s c _ IH Hp|s w _ IH].
  - apply receipts_wf_empty.
  - now apply receipts_wf_execute.
  - eapply receipts_wf_extends; [exact IH|]. repeat split; simpl; auto.
Qed.

(* ================================================================== *)
(** * Column types *)
(* ================================================================== *)

Lemma substring_all (t : string) : substring 0 (String.length t) t = t.
Proof. induction t as [|a t IH]; simpl; [reflexivity | now rewrite IH]. Qed.

(** Every generated key is a uuid. *)
Lemma uuid_gen (n : nat) : Schema.uuid (gen_uuid n) = true.
Proof.
  unfold Schema.uuid, gen_uuid.
  set (t := NilEmpty.string_of_uint (Nat.to_uint n)).
  cbn [append String.length Nat.sub substring].
  rewrite Nat.sub_0_r, substring_all. unfold t.
  rewrite NilEmpty.usu, DecimalNat.Unsigned.of_to. apply String.eqb_refl.
Qed.

Lemma uuid_generated (n : nat) (id : string) : generated n id -> Schema.uuid id = true.
Proof. intros [k [_ ->]]. apply uuid_gen. Qed.

(** ** The rows of [unread_counts] stay within the column types *)

(** A counter operation changes at most the row of its key. *)
Lemma counter_op_rows (op : CounterOp) (s : Store) (P : UnreadCount -> Prop) :
  Forall P (unread_counts s) ->
  (forall row, uc_chatId row = op_chatId op -> uc_userId row = op_userId op ->
               unreadCount row
               = written op (count_of (op_chatId op) (op_userId op) s) ->
               P row) ->
  Forall P (unread_counts (snd (apply_op op s))).
Proof.
  intros Hall Hrow.
  assert (Hgen : forall c u n,
    (forall row, uc_chatId row = c -> uc_userId row = u -> unreadCount row = n -> P row) ->
    let save := match find (UnreadCountRepository.matches c u) (unread_counts s) with
                | None => UnreadCountRepository.insert c u n
                | Some r => UnreadCountRepository.update (UnreadCountService.with_count n r)
                end in
    Forall P (unread_counts
                (snd ((saved <- save ;;
                       publish (unreadCountUpdated c u (unreadCount saved)) ;;;
                       ret saved) s)))).
  { intros c u n HP save. subst save.
    destruct (find (UnreadCountRepository.matches c u) (unread_counts s)) as [r|] eqn:Hf.
    - destruct (find_In _ _ Hf) as [_ Hm]. apply matches_inv in Hm as [Hc Hu].
      destruct (update_run (UnreadCountService.with_count n r) s)
        as [[_ E]|[_ [w [_ E]]]].
      + now rewrite (bind_throw _ E).
      + rewrite (bind_ok _ E). cbn. apply replace_row_Forall; [exact Hall|].
        now apply HP.
    - destruct (insert_run c u n s Hf) as [[_ E]|[_ [w [_ E]]]].
      + now rewrite (bind_throw _ E).
      + rewrite (bind_ok _ E). cbn. apply Forall_app. split; [exact Hall|].
        repeat constructor. now apply HP. }
  unfold count_of, stored_count in Hrow.
  destruct op as [c u|c u]; cbn [apply_op op_chatId op_userId written] in *.
  - unfold UnreadCountService.incrementUnreadCount. rewrite findOne_bind.
    destruct (find (UnreadCountRepository.matches c u) (unread_counts s)) as [r|] eqn:Hf.
    + specialize (Hgen c u (unreadCount r + 1)%Z). rewrite Hf in Hgen.
      apply Hgen. exact Hrow.
    + specialize (Hgen c u 1%Z). rewrite Hf in Hgen. apply Hgen. exact Hrow.
  - unfold UnreadCountService.resetUnreadCount. rewrite findOne_bind.
    destruct (find (UnreadCountRepository.matches c u) (unread_counts s)) as [r|] eqn:Hf.
    + specialize (Hgen c u 0%Z). rewrite Hf in Hgen. apply Hgen. exact Hrow.
    + specialize (Hgen c u 0%Z). rewrite Hf in Hgen. apply Hgen. exact Hrow.
Qed.

Lemma count_of_after_op (op : CounterOp) (s : Store) (c u : string) :
  wf s -> writes_left s = None ->
  count_of c u (snd (apply_op op s))
  = if touches c u op then written op (count_of c u s) else count_of c u s.
Proof.
  intros Hwf Hw. destruct (count_after_op op Hwf Hw) as [row [s1 [E [_ [_ Hc]]]]].
  rewrite E. simpl snd. unfold count_of at 1. rewrite Hc.
  now destruct (touches c u op).
Qed.

Lemma unread_count_row_chats (s s' : Store) (r : UnreadCount) :
  chats s' = chats s -> Schema.unread_count_row s' r = Schema.unread_count_row s r.
Proof.
  intros E. unfold Schema.unread_count_row, Schema.references_chat. now rewrite E.
Qed.

(** As long as no counter is incremented beyond the largest [INTEGER],
    every store of a run of counter operations is one the table holds. *)
Lemma run_ops_accepted (ops : list CounterOp) :
  forall s, wf s -> writes_left s = None ->
    Schema.unread_counts_ok s = true ->
    Forall (fun op => Schema.references_chat s (op_chatId op) = true /\
                      Schema.VARCHAR 255 (op_userId op) = true) ops ->
    (forall c u,
        (count_of c u s + Z.of_nat (List.length (filter (is_increment c u) ops))
         <= 2147483647)%Z) ->
    forall k, Schema.unread_counts_ok (run_ops (firstn k ops) s) = true.
Proof.
  induction ops as [|op ops IH]; intros s Hwf Hw Hok Href Hbound k.
  - now rewrite firstn_nil.
  - destruct k as [|k]; [exact Hok|].
    cbn [firstn]. unfold run_ops. cbn [fold_left].
    fold (run_ops (firstn k ops) (snd (apply_op op s))).
    destruct (count_after_op op Hwf Hw) as [row [s1 [E [Hwf1 [Hw1 _]]]]].
    pose proof (@counter_op_frame op s s1 (Ok row) E) as [Hchats _].
    pose proof (@count_of_after_op op s) as Hcount.
    rewrite E in *. cbn [snd] in *.
    inversion Href as [|? ? [Hrc Hru] Href']; subst.
    apply IH; [exact Hwf1 | exact Hw1 | | |].
    + unfold Schema.unread_counts_ok. apply forallb_forall. apply Forall_forall.
      apply Forall_impl with (P := fun r => Schema.unread_count_row s r = true);
        [intros r Hr; rewrite (@unread_count_row_chats s s1 r Hchats); exact Hr|].
      replace (unread_counts s1) with (unread_counts (snd (apply_op op s)))
        by now rewrite E.
      apply counter_op_rows.
      * apply Forall_forall. apply forallb_forall. exact Hok.
      * intros r Hc Hu Hn. unfold Schema.unread_count_row.
        rewrite Hc, Hu, Hn, Hrc, Hru. cbn [andb].
        pose proof (count_of_nonneg (op_chatId op) (op_userId op) Hwf) as H0.
        specialize (Hbound (op_chatId op) (op_userId op)).
        unfold Schema.INTEGER. apply andb_true_iff. rewrite !Z.leb_le.
        destruct op as [c u|c u]; cbn [written op_chatId op_userId] in *; [|lia].
        cbn [filter is_increment] in Hbound. rewrite !String.eqb_refl in Hbound.
        cbn [andb List.length] in Hbound. lia.
    + eapply Forall_impl; [|exact Href'].
      intros o [H1 H2]. split; [|exact H2].
      unfold Schema.references_chat in *. now rewrite Hchats.
    + intros c u. rewrite (Hcount c u Hwf Hw). specialize (Hbound c u).
      pose proof (count_of_nonneg c u Hwf) as H0. cbn [filter] in Hbound.
      destruct (touches c u op) eqn:T.
      * rewrite (written_touch _ _ _ _ T). unfold touches in T.
        destruct (is_reset c u op) eqn:R.
        -- destruct (is_increment c u op); cbn [List.length] in Hbound; lia.
        -- rewrite orb_false_r in T. rewrite T in Hbound.
           cbn [List.length] in Hbound. lia.
      * destruct (is_increment c u op); cbn [List.length] in Hbound; lia.
Qed.

Lemma increments_only (c u : string) (n : nat) :
  existsb (is_reset c u) (repeat (increment c u) n) = false /\
  increments_after_last_reset c u (repeat (increment c u) n) = n.
Proof.
  induction n as [|n [IH1 IH2]]; [split; reflexivity|].
  cbn [repeat existsb increments_after_last_reset is_reset is_increment].
  rewrite IH1, IH2, !String.eqb_refl. split; reflexivity.
Qed.

(** ** The first read of a message, on an available store *)

Lemma mark_fresh_returns (messageId userId chatId : string) (s : Store) (chat : Chat) :
  wf s -> writes_left s = None ->
  find (fun c => String.eqb (chat_id c) chatId && isActive c)%bool (chats s)
  = Some chat ->
  find (MessageReadRepository.matches messageId userId) (message_reads s) = None ->
  exists r s1,
    (savedRead <- MessageReadRepository.insert messageId userId ;;
     _chat <- ChatService.findOne chatId ;;
     unreadCount_ <- UnreadCountService.getUnreadCount chatId userId ;;
     (if (0 <? unreadCount_)%Z
      then UnreadCountService.resetUnreadCount chatId userId ;;; ret tt
      else ret tt) ;;;
     publish (messageReadUpdated messageId userId (readAt savedRead)) ;;;
     ret savedRead) s = (Ok r, s1).
Proof.
  intros Hwf Hw Hchat Hnone.
  pose proof (keeps_read_insert _ _ Hwf Hnone) as Hwf0.
  destruct (read_insert_run messageId userId s) as [[H0 _]|[_ [w [Hw0 E]]]];
    [congruence|].
  rewrite E in Hwf0. cbn [snd] in Hwf0. rewrite (bind_ok _ E). clear E.
  rewrite (Hw0 Hw) in *. set (s0 := fresh _) in *.
  assert (Ec : ChatService.findOne chatId s0 = (Ok chat, s0))
    by (apply chat_findOne_found; exact Hchat).
  rewrite (bind_ok _ Ec).
  rewrite (bind_ok _ (getUnreadCount_spec chatId userId s0)).
  destruct (0 <? count_of chatId userId s0)%Z.
  - destruct (counter_op_spec (resetToZero chatId userId) Hwf0)
      as [[H0 _]|[_ [row [s2 [Er _]]]]]; [unfold s0 in H0; cbn in H0; discriminate H0|].
    cbn [apply_op] in Er. unfold bind at 1. unfold bind at 1. rewrite Er.
    unfold bind, publish, ret. cbn [fst snd]. eexists. eexists. reflexivity.
  - unfold bind, publish, ret. eexists. eexists. reflexivity.
Qed.

Lemma nth_error_set_nth {A} (l : list A) (i : nat) (x y : A) :
  nth_error l i = Some x -> nth_error (set_nth i y l) i = Some y.
Proof.
  revert i. induction l as [|z l IH]; intros [|i]; simpl; try discriminate; auto.
Qed.

(** A call that runs through its three awaits with no other call in
    between does what the operation does at once. *)
Lemma interleave_alone (calls : list Call) (i : nat) (op : CounterOp) (s : Store) :
  nth_error calls i = Some (start op) ->
  exists calls',
    interleave [i; i; i] calls s = (calls', snd (apply_op op s)) /\
    nth_error calls' i = Some (mkCall op (settled (fst (apply_op op s)))).
Proof.
  intros Hi. pose proof (advance_thrice op s) as H3.
  cbn [interleave]. rewrite Hi.
  destruct (advance (start op) s) as [c1 s1].
  rewrite (nth_error_set_nth _ _ c1 Hi).
  destruct (advance c1 s1) as [c2 s2].
  rewrite (nth_error_set_nth _ _ c2 (nth_error_set_nth _ _ c1 Hi)), H3.
  eexists. split; [reflexivity|].
  apply (nth_error_set_nth _ _ _
           (nth_error_set_nth _ _ c2 (nth_error_set_nth _ _ c1 Hi))).
Qed.

(* ================================================================== *)
(** * Properties of the specification *)
(* ================================================================== *)

(** ** The unread counter counts the increments since the last reset *)




(** ** Counter events carry the stored value *)




(** ** Notification filters *)

(** C10. A client subscribed with user id [userId] to
    [chatMessageNotification] or to [messageUpdateForChatList] is forwarded
    an event of that topic if and only if the [senderId] of the event is
    not [userId]. Membership in the chat of the event plays no part: a
    subscribed user who is not a participant of that chat is forwarded the
    event too. *)
Theorem notification_forwarded_iff_not_sender
  (registry : list Receiver.Subscription) (chatId senderId userId : string)
  (message : Message) (s : Store) (chat : Chat) :
  (In (Receiver.sub_chatMessageNotification userId) registry ->
   (In (Receiver.sub_chatMessageNotification userId)
       (Receiver.forward registry (chatMessageNotification chatId message senderId))
    <-> senderId <> userId)) /\
  (In (Receiver.sub_messageUpdateForChatList userId) registry ->
   (In (Receiver.sub_messageUpdateForChatList userId)
       (Receiver.forward registry (messageUpdateForChatList chatId message senderId))
    <-> senderId <> userId)) /\
  (ChatService.findOne chatId s = (Ok chat, s) ->
   ~ In userId (participantIds chat) -> senderId <> userId ->
   (In (Receiver.sub_chatMessageNotification userId) registry ->
    In (Receiver.sub_chatMessageNotification userId)
       (Receiver.forward registry (chatMessageNotification chatId message senderId))) /\
   (In (Receiver.sub_messageUpdateForChatList userId) registry ->
    In (Receiver.sub_messageUpdateForChatList userId)
       (Receiver.forward registry (messageUpdateForChatList chatId message senderId)))).
Proof.
  assert (Hn : negb (String.eqb senderId userId) = true <-> senderId <> userId).
  { rewrite negb_true_iff. apply String.eqb_neq. }
  assert (A : In (Receiver.sub_chatMessageNotification userId) registry ->
              (In (Receiver.sub_chatMessageNotification userId)
                  (Receiver.forward registry
                     (chatMessageNotification chatId message senderId))
               <-> senderId <> userId)).
  { intros H1. rewrite forward_In. simpl. rewrite Hn. tauto. }
  assert (B : In (Receiver.sub_messageUpdateForChatList userId) registry ->
              (In (Receiver.sub_messageUpdateForChatList userId)
                  (Receiver.forward registry
                     (messageUpdateForChatList chatId message senderId))
               <-> senderId <> userId)).
  { intros H2. rewrite forward_In. simpl. rewrite Hn. tauto. }
  split; [exact A|]. split; [exact B|]. intros _ _ Hne.
  split; intros H; [apply (A H) | apply (B H)]; exact Hne.
Qed.

Lemma notification_forwarded_iff_not_sender_witness :
  let registry := [Receiver.sub_chatMessageNotification "U9";
                   Receiver.sub_messageUpdateForChatList "U9";
                   Receiver.sub_chatMessageNotification "U1"] in
  let message := mkMessage "uuid-1" "hi" "U1" "uuid-0" false None 1 in
  ~ In "U9" ["U1"; "U2"; "U3"] /\
  In (Receiver.sub_chatMessageNotification "U9")
     (Receiver.forward registry (chatMessageNotification "uuid-0" message "U1")) /\
  ~ In (Receiver.sub_chatMessageNotification "U1")
       (Receiver.forward registry (chatMessageNotification "uuid-0" message "U1")).
Proof.
  intros registry message.
  assert (Hnot : ~ In "U9" ["U1"; "U2"; "U3"]).
  { simpl. intros [H|[H|[H|[]]]]; discriminate. }
  assert (H9 : In (Receiver.sub_chatMessageNotification "U9") registry)
    by (simpl; auto).
  assert (H1 : In (Receiver.sub_chatMessageNotification "U1") registry)
    by (simpl; auto).
  assert (Hne : "U1" <> "U9") by discriminate.
  pose (chat := mkChat "uuid-0" "C" None "group" ["U1"; "U2"; "U3"] true 0 0).
  assert (Ec : ChatService.findOne "uuid-0" store_A = (Ok chat, store_A))
    by (vm_compute; reflexivity).
  split; [exact Hnot|]. split.
  - exact (proj1 (proj2 (proj2
      (@notification_forwarded_iff_not_sender registry "uuid-0" "U1" "U9" message
         store_A chat)) Ec Hnot Hne) H9).
  - intros Hin.
    apply (proj1 (proj1
      (@notification_forwarded_iff_not_sender registry "uuid-0" "U1" "U1" message
         store_A chat) H1) Hin).
    reflexivity.
Defined.

(** ** Marking as read is idempotent *)

(** C2, as stated, fails: [markMessageAsRead] checks that the user is a
    participant of the chat before it looks for the receipt. U2 has read
    the message and has then been removed from the chat: the receipt
    exists and the second call throws [ForbiddenException]. *)
Lemma removed_reader_is_refused :
  ~ (forall (s : Store) (messageId userId : string),
        reachable s -> holds_receipt s messageId userId ->
        exists r, MessageService.markMessageAsRead messageId userId s = (Ok r, s)).
Proof.
  intros H.
  assert (Hr : reachable store_removed) by (apply reachable_run; constructor).
  assert (Hh : holds_receipt store_removed "uuid-1" "U2").
  { exists (mkMessageRead "uuid-4" "uuid-1" "U2" 4).
    split; [vm_compute; auto | split; reflexivity]. }
  destruct (H store_removed "uuid-1" "U2" Hr Hh) as [r E].
  assert (E' : MessageService.markMessageAsRead "uuid-1" "U2" store_removed
               = (Throw (ForbiddenException "User is not a participant in this chat"),
                  store_removed))
    by (vm_compute; reflexivity).
  rewrite E' in E. discriminate E.
Qed.

(** C2 (amended). For a message that exists and a user who is a
    participant of its chat, which is active, [markMessageAsRead] is
    idempotent. In any store in which the user holds a receipt for the
    message, the call returns a receipt of that pair that is already
    stored, without an error and without touching the store. On an
    available store in which there is none yet, for a user id of at most
    255 characters, the call returns a new receipt, a row the table
    holds, and a second call returns that same receipt and changes
    nothing: the two calls together leave exactly one receipt for the
    pair and publish at most one reset of the unread counter. *)
Theorem markMessageAsRead_idempotent
  (messageId userId : string) (s : Store) (m : Message) (chat : Chat) :
  MessageService.findOne messageId s = (Ok m, s) ->
  ChatService.findOne (msg_chatId m) s = (Ok chat, s) ->
  In userId (participantIds chat) ->
  (holds_receipt s messageId userId ->
   exists r,
     MessageService.markMessageAsRead messageId userId s = (Ok r, s) /\
     In r (message_reads s) /\ mr_messageId r = messageId /\ mr_userId r = userId) /\
  (reachable s -> writes_left s = None -> Schema.VARCHAR 255 userId = true ->
   ~ holds_receipt s messageId userId ->
   exists r s1,
     MessageService.markMessageAsRead messageId userId s = (Ok r, s1) /\
     MessageService.markMessageAsRead messageId userId s1 = (Ok r, s1) /\
     Schema.message_read_row s1 r = true /\
     receipts_of messageId userId s = [] /\
     receipts_of messageId userId s1 = [r] /\
     exists evs, published s1 = published s ++ evs /\
                 List.length (filter is_counter_update evs) <= 1).
Proof.
  intros Hm Hc Hin.
  apply findOne_message_ok in Hm as [_ Hm]. apply findOne_chat_ok in Hc as [_ Hc].
  apply includes_In in Hin.
  assert (Hreceipt :
    holds_receipt s messageId userId <->
    find (MessageReadRepository.matches messageId userId) (message_reads s) <> None).
  { split.
    - intros [r [Hr [H1 H2]]] Hnone.
      pose proof (find_none _ _ Hnone r Hr) as Hn.
      unfold MessageReadRepository.matches in Hn.
      now rewrite H1, H2, !String.eqb_refl in Hn.
    - intros Hne.
      destruct (find _ (message_reads s)) as [r|] eqn:Ef; [|congruence].
      apply find_some in Ef as [Hr Hk].
      unfold MessageReadRepository.matches in Hk.
      apply andb_true_iff in Hk as [H1 H2]. apply String.eqb_eq in H1, H2.
      exists r. auto. }
  split.
  - intros Hh. apply Hreceipt in Hh.
    destruct (find (MessageReadRepository.matches messageId userId) (message_reads s))
      as [r|] eqn:Ef; [|congruence].
    exists r. rewrite markMessageAsRead_unfold, Hm, Hc, Hin, Ef.
    apply find_some in Ef as [Hr Hk].
    unfold MessageReadRepository.matches in Hk.
    apply andb_true_iff in Hk as [H1 H2]. apply String.eqb_eq in H1, H2. auto.
  - intros Hr Hw Hlen Hno.
    assert (Ef : find (MessageReadRepository.matches messageId userId) (message_reads s)
                 = None).
    { destruct (find _ (message_reads s)) eqn:Ef; [|reflexivity].
      exfalso. apply Hno, Hreceipt. congruence. }
    assert (Hnil : receipts_of messageId userId s = []).
    { unfold receipts_of. clear -Ef.
      induction (message_reads s) as [|x l IH]; simpl in *; [reflexivity|].
      destruct (MessageReadRepository.matches messageId userId x); [discriminate|].
      now apply IH. }
    destruct (@mark_fresh_returns messageId userId (msg_chatId m) s chat
                (reachable_wf Hr) Hw Hc Ef) as [r [s1 E]].
    exists r, s1. rewrite !markMessageAsRead_unfold, Hm, Hc, Hin, Ef.
    split; [exact E|].
    apply mark_fresh_spec in E as [Hm1 [Hc1 [Hr1 [Hk1 [Hk2 Hev]]]]].
    assert (Hrow : MessageReadRepository.matches messageId userId r = true).
    { unfold MessageReadRepository.matches. now rewrite Hk1, Hk2, !String.eqb_refl. }
    rewrite Hm1, Hc1, Hr1, Hm, Hc, Hin, find_app_last, Ef, Hrow.
    split; [reflexivity|]. split.
    { unfold Schema.message_read_row. rewrite Hm1, Hk1, Hk2, Hlen, andb_true_r.
      apply existsb_exists. exists m. apply find_some in Hm. exact Hm. }
    split; [exact Hnil|]. split; [|exact Hev].
    unfold receipts_of in *. rewrite Hr1, filter_app, Hnil. simpl. now rewrite Hrow.
Qed.

Lemma markMessageAsRead_idempotent_witness :
  let m := mkMessage "uuid-1" "hi" "U1" "uuid-0" false None 1 in
  let chat := mkChat "uuid-0" "C" None "group" ["U1"; "U2"; "U3"] true 0 0 in
  (exists r s1,
      MessageService.markMessageAsRead "uuid-1" "U2" store_A = (Ok r, s1) /\
      MessageService.markMessageAsRead "uuid-1" "U2" s1 = (Ok r, s1) /\
      receipts_of "uuid-1" "U2" s1 = [r]) /\
  (exists r,
      MessageService.markMessageAsRead "uuid-1" "U3" store_read_by_all
      = (Ok r, store_read_by_all)).
Proof.
  intros m chat.
  assert (Hr : reachable store_A) by (apply reachable_run; constructor).
  assert (E1 : MessageService.findOne "uuid-1" store_A = (Ok m, store_A))
    by (vm_compute; reflexivity).
  assert (E2 : ChatService.findOne (msg_chatId m) store_A = (Ok chat, store_A))
    by (vm_compute; reflexivity).
  assert (E3 : MessageService.findOne "uuid-1" store_read_by_all
               = (Ok m, store_read_by_all))
    by (vm_compute; reflexivity).
  assert (E4 : ChatService.findOne (msg_chatId m) store_read_by_all
               = (Ok chat, store_read_by_all))
    by (vm_compute; reflexivity).
  assert (Hw : writes_left store_A = None) by (vm_compute; reflexivity).
  assert (H2 : In "U2" (participantIds chat)) by (simpl; auto).
  assert (H3 : In "U3" (participantIds chat)) by (simpl; auto).
  assert (Hno : ~ holds_receipt store_A "uuid-1" "U2").
  { intros [r [Hin _]].
    assert (En : message_reads store_A = []) by (vm_compute; reflexivity).
    rewrite En in Hin. destruct Hin. }
  assert (Hh : holds_receipt store_read_by_all "uuid-1" "U3").
  { exists (mkMessageRead "uuid-5" "uuid-1" "U3" 6).
    split; [vm_compute; auto | split; reflexivity]. }
  destruct (@markMessageAsRead_idempotent "uuid-1" "U2" store_A m chat E1 E2 H2)
    as [_ HB].
  destruct (@markMessageAsRead_idempotent "uuid-1" "U3" store_read_by_all m chat
              E3 E4 H3) as [HA _].
  split.
  - destruct (HB Hr Hw eq_refl Hno) as [r [s1 [Ha [Hb [_ [_ [Hc _]]]]]]].
    exists r, s1. auto.
  - destruct (HA Hh) as [r [Ha _]]. exists r. exact Ha.
Defined.

(** ** Sending a message increments the other participants *)

(** C4, as stated, fails: in a chat whose participant list names U2 twice,
    a message of U1 raises the unread count of U2 from 0 to 2. *)
Lemma sendMessage_counts_listed_twice :
  ~ (forall (s s' : Store) (input : CreateMessageInput) (m : Message) (chat : Chat)
            (u : string),
        reachable s ->
        MessageService.create input s = (Ok m, s') ->
        ChatService.findOne (cmi_chatId input) s = (Ok chat, s) ->
        In u (participantIds chat) -> u <> cmi_senderId input ->
        count_of (cmi_chatId input) u s' = (count_of (cmi_chatId input) u s + 1)%Z).
Proof.
  intros H.
  assert (Hr : reachable store_duplicate) by (apply reachable_run; constructor).
  pose (input := mkCreateMessageInput "hi" "U1" "uuid-0").
  pose (m := mkMessage "uuid-1" "hi" "U1" "uuid-0" false None 1).
  pose (chat := mkChat "uuid-0" "C" None "group" ["U1"; "U2"; "U2"] true 0 0).
  assert (E1 : MessageService.create input store_duplicate
               = (Ok m, snd (MessageService.create input store_duplicate)))
    by (vm_compute; reflexivity).
  assert (E2 : ChatService.findOne (cmi_chatId input) store_duplicate
               = (Ok chat, store_duplicate))
    by (vm_compute; reflexivity).
  assert (Hin : In "U2" (participantIds chat)) by (simpl; auto).
  assert (Hne : "U2" <> cmi_senderId input) by discriminate.
  specialize (H store_duplicate _ input m chat "U2" Hr E1 E2 Hin Hne).
  assert (E3 : count_of (cmi_chatId input) "U2"
                        (snd (MessageService.create input store_duplicate)) = 2%Z)
    by (vm_compute; reflexivity).
  assert (E4 : count_of (cmi_chatId input) "U2" store_duplicate = 0%Z)
    by (vm_compute; reflexivity).
  rewrite E3, E4 in H. discriminate H.
Qed.

(** C4 (amended). When [create] returns for a message of sender S in a
    chat whose participant list has no duplicates, the unread count of
    every participant other than S is one more than before (a missing row
    is created with the value 1), and no other counter row, that of S
    included, is touched. *)
Theorem sendMessage_increments_other_participants
  (s s' : Store) (input : CreateMessageInput) (m : Message) (chat : Chat) :
  reachable s ->
  MessageService.create input s = (Ok m, s') ->
  ChatService.findOne (cmi_chatId input) s = (Ok chat, s) ->
  NoDup (participantIds chat) ->
  (forall u, In u (participantIds chat) -> u <> cmi_senderId input ->
             stored_count (cmi_chatId input) u s'
             = Some (count_of (cmi_chatId input) u s + 1)%Z) /\
  (forall u, In u (participantIds chat) -> u <> cmi_senderId input ->
             stored_count (cmi_chatId input) u s = None ->
             stored_count (cmi_chatId input) u s' = Some 1%Z) /\
  find (UnreadCountRepository.matches (cmi_chatId input) (cmi_senderId input))
       (unread_counts s')
  = find (UnreadCountRepository.matches (cmi_chatId input) (cmi_senderId input))
         (unread_counts s) /\
  (forall c u, c <> cmi_chatId input \/ ~ In u (participantIds chat) ->
               find (UnreadCountRepository.matches c u) (unread_counts s')
               = find (UnreadCountRepository.matches c u) (unread_counts s)).
Proof.
  intros Hr Hc Hf Hnd.
  destruct (create_ok _ (reachable_wf Hr) Hc) as [chat' [s0 [Ec [_ [Hwf0 [Eu Hloop]]]]]].
  apply findOne_chat_ok in Hf as [_ Hf]. rewrite Hf in Ec. injection Ec as <-.
  destruct (increments_spec _ _ Hwf0 Hloop) as [Ha Hb].
  assert (Hcount : forall u, count_of (cmi_chatId input) u s0
                             = count_of (cmi_chatId input) u s).
  { intros u. unfold count_of, stored_count. now rewrite Eu. }
  assert (Hinc : forall u, In u (participantIds chat) -> u <> cmi_senderId input ->
             stored_count (cmi_chatId input) u s'
             = Some (count_of (cmi_chatId input) u s + 1)%Z).
  { intros u Hu Hne.
    assert (Hin : In u (without (cmi_senderId input) (participantIds chat)))
      by (apply without_In; auto).
    rewrite (Ha u Hin), Hcount. do 2 f_equal.
    assert (Hnd' : NoDup (without (cmi_senderId input) (participantIds chat)))
      by (apply NoDup_filter; exact Hnd).
    now rewrite (proj1 (NoDup_count_occ' string_dec _) Hnd' u Hin). }
  split; [exact Hinc|]. split.
  - intros u Hu Hne Hnone. rewrite (Hinc u Hu Hne). unfold count_of. now rewrite Hnone.
  - split.
    + rewrite Hb, Eu; [reflexivity|]. right. rewrite without_In. tauto.
    + intros c u Hne. rewrite Hb, Eu; [reflexivity|].
      destruct Hne as [Hne|Hne]; [now left | right]. rewrite without_In. tauto.
Qed.

Lemma sendMessage_increments_other_participants_witness :
  let input := mkCreateMessageInput "again" "U1" "uuid-0" in
  let m := mkMessage "uuid-4" "again" "U1" "uuid-0" false None 4 in
  let chat := mkChat "uuid-0" "C" None "group" ["U1"; "U2"; "U3"] true 0 0 in
  let s' := snd (MessageService.create input store_A) in
  reachable store_A /\
  MessageService.create input store_A = (Ok m, s') /\
  ChatService.findOne "uuid-0" store_A = (Ok chat, store_A) /\
  NoDup (participantIds chat) /\
  stored_count "uuid-0" "U2" s' = Some (count_of "uuid-0" "U2" store_A + 1)%Z /\
  stored_count "uuid-0" "U3" s' = Some (count_of "uuid-0" "U3" store_A + 1)%Z /\
  find (UnreadCountRepository.matches "uuid-0" "U1") (unread_counts s')
  = find (UnreadCountRepository.matches "uuid-0" "U1") (unread_counts store_A).
Proof.
  intros input m chat s'.
  assert (Hr : reachable store_A) by (apply reachable_run; constructor).
  assert (E1 : MessageService.create input store_A = (Ok m, s'))
    by (vm_compute; reflexivity).
  assert (E2 : ChatService.findOne (cmi_chatId input) store_A = (Ok chat, store_A))
    by (vm_compute; reflexivity).
  assert (Hnd : NoDup (participantIds chat)).
  { repeat constructor; simpl; intros H;
      repeat (destruct H as [H|H]; [discriminate|]); exact H. }
  destruct (@sendMessage_increments_other_participants
              store_A s' input m chat Hr E1 E2 Hnd) as [H1 [_ [H2 _]]].
  split; [exact Hr|]. split; [exact E1|]. split; [exact E2|]. split; [exact Hnd|].
  split; [apply (H1 "U2"); [simpl; auto | discriminate]|].
  split; [apply (H1 "U3"); [simpl; auto | discriminate]|].
  exact H2.
Defined.

(** ** Fully read *)

(** C1, as stated, fails: the status compares two counts. U2 reads the
    message of U1 and is then removed from the chat; the one receipt meets
    the one remaining participant other than the sender, and the message
    is reported fully read although U3 holds no receipt. *)
Lemma isFullyRead_counts_former_participants :
  ~ (forall (s : Store) (messageId : string) (m : Message) (chat : Chat)
            (status : MessageReadStatus),
        reachable s ->
        MessageService.findOne messageId s = (Ok m, s) ->
        ChatService.findOne (msg_chatId m) s = (Ok chat, s) ->
        Receiver.getMessageReadStatus messageId s = (Ok status, s) ->
        (isFullyRead status = true <-> read_by_all_others s m chat)).
Proof.
  intros H.
  assert (Hr : reachable store_removed) by (apply reachable_run; constructor).
  pose (m := mkMessage "uuid-1" "hi" "U1" "uuid-0" false None 1).
  pose (chat := mkChat "uuid-0" "C" None "group" ["U1"; "U3"] true 0 6).
  pose (status := mkMessageReadStatus "uuid-1" 1 1 true [mkMessageReadUser "U2" 4]).
  assert (E1 : MessageService.findOne "uuid-1" store_removed = (Ok m, store_removed))
    by (vm_compute; reflexivity).
  assert (E2 : ChatService.findOne (msg_chatId m) store_removed
               = (Ok chat, store_removed))
    by (vm_compute; reflexivity).
  assert (E3 : Receiver.getMessageReadStatus "uuid-1" store_removed
               = (Ok status, store_removed))
    by (vm_compute; reflexivity).
  destruct (H store_removed "uuid-1" m chat status Hr E1 E2 E3) as [Hall _].
  destruct (Hall eq_refl "U3") as [r [Hin [_ Hu]]];
    [simpl; auto | discriminate |].
  assert (Er : message_reads store_removed = [mkMessageRead "uuid-4" "uuid-1" "U2" 4])
    by (vm_compute; reflexivity).
  rewrite Er in Hin. destruct Hin as [<-|[]]. discriminate Hu.
Qed.

(** C1 (amended). [isFullyRead] is [readByCount >= totalParticipants],
    the number of receipts of the message against the number of entries of
    the participant list other than the sender. When the participant list
    has no duplicates and every receipt of the message belongs to a
    participant other than the sender, the message is reported fully read
    if and only if every participant other than the sender holds a receipt
    for it. *)
Theorem isFullyRead_iff_all_others_read
  (s : Store) (messageId : string) (m : Message) (chat : Chat)
  (status : MessageReadStatus) :
  reachable s ->
  MessageService.findOne messageId s = (Ok m, s) ->
  ChatService.findOne (msg_chatId m) s = (Ok chat, s) ->
  Receiver.getMessageReadStatus messageId s = (Ok status, s) ->
  NoDup (participantIds chat) ->
  (forall r, In r (message_reads s) -> mr_messageId r = messageId ->
             In (mr_userId r) (participantIds chat) /\ mr_userId r <> msg_senderId m) ->
  totalParticipants status
  = List.length (without (msg_senderId m) (participantIds chat)) /\
  readByCount status
  = List.length (filter (fun r => String.eqb (mr_messageId r) messageId)
                        (message_reads s)) /\
  isFullyRead status = (totalParticipants status <=? readByCount status)%nat /\
  (isFullyRead status = true <-> read_by_all_others s m chat).
Proof.
  intros Hr Hm Hc Hs Hnd Hreads.
  apply findOne_message_ok in Hm as [_ Hm]. apply findOne_chat_ok in Hc as [_ Hc].
  rewrite getMessageReadStatus_unfold, Hm, Hc in Hs. cbv zeta in Hs.
  injection Hs as <-. cbn [totalParticipants readByCount isFullyRead].
  split; [reflexivity|]. split; [reflexivity|]. split; [reflexivity|].
  assert (Hid : msg_id m = messageId).
  { apply find_some in Hm as [_ E]. now apply String.eqb_eq. }
  set (others := without (msg_senderId m) (participantIds chat)).
  set (reads := filter (fun r => String.eqb (mr_messageId r) messageId) (message_reads s)).
  assert (Hlen : List.length reads = List.length (map mr_userId reads))
    by (now rewrite length_map).
  assert (Hnr : NoDup (map mr_userId reads))
    by (apply readers_NoDup, (wf_receipts (reachable_wf Hr))).
  assert (Hno : NoDup others) by (apply NoDup_filter; exact Hnd).
  assert (Hsub : incl (map mr_userId reads) others).
  { intros u Hu. apply in_map_iff in Hu as [r [<- Hin]].
    apply filter_In in Hin as [Hin E]. apply String.eqb_eq in E.
    apply without_In. now apply Hreads. }
  unfold read_by_all_others. rewrite Hid, Nat.leb_le, Hlen. split.
  - intros Hle u Hu Hne. apply holds_receipt_reader.
    apply (NoDup_length_incl Hnr Hle Hsub). apply without_In. auto.
  - intros Hall. apply NoDup_incl_length; [exact Hno|].
    intros u Hu. apply without_In in Hu as [Hu Hne].
    apply holds_receipt_reader. now apply Hall.
Qed.

Lemma isFullyRead_iff_all_others_read_witness :
  let m := mkMessage "uuid-1" "hi" "U1" "uuid-0" false None 1 in
  let chat := mkChat "uuid-0" "C" None "group" ["U1"; "U2"; "U3"] true 0 0 in
  let status := mkMessageReadStatus "uuid-1" 2 2 true
                  [mkMessageReadUser "U2" 4; mkMessageReadUser "U3" 6] in
  reachable store_read_by_all /\
  MessageService.findOne "uuid-1" store_read_by_all = (Ok m, store_read_by_all) /\
  ChatService.findOne (msg_chatId m) store_read_by_all = (Ok chat, store_read_by_all) /\
  Receiver.getMessageReadStatus "uuid-1" store_read_by_all
  = (Ok status, store_read_by_all) /\
  NoDup (participantIds chat) /\
  (isFullyRead status = true <-> read_by_all_others store_read_by_all m chat).
Proof.
  intros m chat status.
  assert (Hr : reachable store_read_by_all) by (apply reachable_run; constructor).
  assert (E1 : MessageService.findOne "uuid-1" store_read_by_all
               = (Ok m, store_read_by_all))
    by (vm_compute; reflexivity).
  assert (E2 : ChatService.findOne (msg_chatId m) store_read_by_all
               = (Ok chat, store_read_by_all))
    by (vm_compute; reflexivity).
  assert (E3 : Receiver.getMessageReadStatus "uuid-1" store_read_by_all
               = (Ok status, store_read_by_all))
    by (vm_compute; reflexivity).
  assert (Hnd : NoDup (participantIds chat)).
  { repeat constructor; simpl; intros H;
      repeat (destruct H as [H|H]; [discriminate|]); exact H. }
  assert (Er : message_reads store_read_by_all
               = [mkMessageRead "uuid-4" "uuid-1" "U2" 4;
                  mkMessageRead "uuid-5" "uuid-1" "U3" 6])
    by (vm_compute; reflexivity).
  assert (Hreads : forall r, In r (message_reads store_read_by_all) ->
                             mr_messageId r = "uuid-1" ->
                             In (mr_userId r) (participantIds chat) /\
                             mr_userId r <> msg_senderId m).
  { intros r Hin _. rewrite Er in Hin.
    destruct Hin as [<-|[<-|[]]]; simpl; split; auto; discriminate. }
  split; [exact Hr|]. split; [exact E1|]. split; [exact E2|]. split; [exact E3|].
  split; [exact Hnd|].
  exact (proj2 (proj2 (proj2
    (@isFullyRead_iff_all_others_read store_read_by_all "uuid-1" m chat status
       Hr E1 E2 E3 Hnd Hreads)))).
Defined.

(** ** Receipts of the sender *)

(** C6. The sender of a message is a participant of its chat, and
    [markMessageAsRead] checks nothing else: U1 marks the own message as
    read and holds a receipt for it. Once U2 has read the message too, it
    is reported fully read although U3 has not read it. *)
Theorem sender_holds_receipt_for_own_message :
  reachable store_self_read /\
  (exists m, MessageService.findOne "uuid-1" store_self_read = (Ok m, store_self_read) /\
             msg_senderId m = "U1") /\
  holds_receipt store_self_read "uuid-1" "U1" /\
  let s := snd (execute (markMessageAsRead "uuid-1" "U2") store_self_read) in
  ~ holds_receipt s "uuid-1" "U3" /\
  exists status, Receiver.getMessageReadStatus "uuid-1" s = (Ok status, s) /\
                 isFullyRead status = true.
Proof.
  split; [apply reachable_run; constructor|].
  split.
  { exists (mkMessage "uuid-1" "hi" "U1" "uuid-0" false None 1).
    split; [vm_compute; reflexivity | reflexivity]. }
  split.
  { exists (mkMessageRead "uuid-4" "uuid-1" "U1" 4).
    split; [vm_compute; auto | split; reflexivity]. }
  cbv zeta. split.
  - intros [r [Hin [_ Hu]]].
    assert (Er : message_reads
                   (snd (execute (markMessageAsRead "uuid-1" "U2") store_self_read))
                 = [mkMessageRead "uuid-4" "uuid-1" "U1" 4;
                    mkMessageRead "uuid-5" "uuid-1" "U2" 5])
      by (vm_compute; reflexivity).
    rewrite Er in Hin. destruct Hin as [<-|[<-|[]]]; discriminate Hu.
  - exists (mkMessageReadStatus "uuid-1" 2 2 true
              [mkMessageReadUser "U1" 4; mkMessageReadUser "U2" 5]).
    split; [vm_compute; reflexivity | reflexivity].
Qed.

(** ** Participants *)

(** C9, as stated, fails: [removeParticipant] is an exposed mutation and
    removes the last participant of a chat. *)
Lemma removeParticipant_empties_chat :
  ~ (forall (s : Store) (c : Command) (chat chat' : Chat),
        reachable s -> In chat (chats s) ->
        In chat' (chats (snd (execute c s))) -> chat_id chat' = chat_id chat ->
        participantIds chat' <> [] /\
        List.length (participantIds chat) <= List.length (participantIds chat')).
Proof.
  intros H.
  assert (Hr : reachable store_single) by (apply reachable_run; constructor).
  pose (chat := mkChat "uuid-0" "C" None "group" ["U1"] true 0 0).
  pose (chat' := mkChat "uuid-0" "C" None "group" [] true 0 1).
  assert (H1 : In chat (chats store_single)) by (vm_compute; auto).
  assert (H2 : In chat' (chats (snd (execute (removeParticipant "uuid-0" "U1")
                                             store_single))))
    by (vm_compute; auto).
  destruct (H store_single (removeParticipant "uuid-0" "U1") chat chat' Hr H1 H2 eq_refl)
    as [Hne _].
  now apply Hne.
Qed.

(** C9 (amended). The participant list of a chat changes only through
    the explicit operations on it: [addParticipant] and [addParticipants]
    append the users that are not yet listed, [removeParticipant] deletes
    the given user, possibly the last one; every other command leaves the
    list of every existing chat as it is. *)
Theorem participants_change_only_by_add_or_remove
  (s : Store) (c : Command) (chat : Chat) :
  reachable s -> In chat (chats s) ->
  exists chat',
    In chat' (chats (snd (execute c s))) /\ chat_id chat' = chat_id chat /\
    (participantIds chat' = participantIds chat \/
     (exists userId,
         c = addParticipant (chat_id chat) userId /\
         ~ In userId (participantIds chat) /\
         participantIds chat' = participantIds chat ++ [userId]) \/
     (exists userIds,
         c = addParticipants (chat_id chat) userIds /\
         participantIds chat'
         = participantIds chat
           ++ filter (fun u => negb (includes (participantIds chat) u)) userIds) \/
     (exists userId,
         c = removeParticipant (chat_id chat) userId /\
         participantIds chat' = without userId (participantIds chat))).
Proof.
  intros Hr Hin. pose proof (wf_chat_ids (reachable_wf Hr)) as Hnd.
  assert (Hsame : chats (snd (execute c s)) = chats s ->
    exists chat',
      In chat' (chats (snd (execute c s))) /\ chat_id chat' = chat_id chat /\
      (participantIds chat' = participantIds chat \/
       (exists userId,
           c = addParticipant (chat_id chat) userId /\
           ~ In userId (participantIds chat) /\
           participantIds chat' = participantIds chat ++ [userId]) \/
       (exists userIds,
           c = addParticipants (chat_id chat) userIds /\
           participantIds chat'
           = participantIds chat
             ++ filter (fun u => negb (includes (participantIds chat) u)) userIds) \/
       (exists userId,
           c = removeParticipant (chat_id chat) userId /\
           participantIds chat' = without userId (participantIds chat)))).
  { intros E. exists chat. rewrite E. split; [exact Hin|]. split; [reflexivity|].
    left. reflexivity. }
  destruct c as [input|id u|id us|id u|id|input|id content u|id u|id u];
    try (apply Hsame; apply (message_commands_keep_chats
                               (createMessage input)); fail);
    try (apply Hsame; apply (message_commands_keep_chats
                               (updateMessage id content u)); fail);
    try (apply Hsame; apply (message_commands_keep_chats (removeMessage id u)); fail);
    try (apply Hsame; apply (message_commands_keep_chats (markMessageAsRead id u)); fail).
  - (* createChat *)
    cbn [execute]. unfold discard, ChatService.create, ChatRepository.insert, bind.
    destruct (db_write_cases s) as [[_ ->]|[_ [w [-> _]]]]; cbn.
    + exists chat. auto.
    + exists chat. split; [apply in_or_app; now left|]. auto.
  - (* addParticipant *)
    cbn [execute]. rewrite discard_snd. unfold ChatService.addParticipant.
    rewrite chat_findOne_bind.
    destruct (find _ (chats s)) as [found|] eqn:Ef; [|exists chat; auto].
    destruct (includes (participantIds found) u) eqn:Ei; [exists chat; auto|].
    cbn [negb]. apply find_some in Ef as [Hf Hid].
    apply andb_true_iff in Hid as [Hid _]. apply String.eqb_eq in Hid.
    match goal with
    | |- context [ChatRepository.update ?c] => destruct (chat_update_run c s)
        as [[_ E]|[_ [w E]]]
    end.
    + rewrite E. exists chat. auto.
    + rewrite E. cbn.
      match goal with
      | |- context [replace_row chat_id _ ?row _] =>
          change (replace_row chat_id _ row) with (replace_row chat_id found row);
          destruct (@replaced_chat found row chat (chats s) Hnd Hf Hin eq_refl) as [[-> H]|[Hne H]];
          [exists row | exists chat]
      end.
      * split; [exact H|]. split; [reflexivity|]. right. left. exists u.
        split; [now rewrite Hid|]. split; [|reflexivity].
        unfold includes in Ei. intros Hu.
        assert (existsb (String.eqb u) (participantIds found) = true)
          by (apply existsb_exists; exists u; split; [exact Hu | apply String.eqb_refl]).
        congruence.
      * auto.
  - (* addParticipants *)
    cbn [execute]. rewrite discard_snd. unfold ChatService.addParticipants.
    rewrite chat_findOne_bind.
    destruct (find _ (chats s)) as [found|] eqn:Ef; [|exists chat; auto].
    destruct (0 <? _)%nat; [|exists chat; auto].
    apply find_some in Ef as [Hf Hid].
    apply andb_true_iff in Hid as [Hid _]. apply String.eqb_eq in Hid.
    match goal with
    | |- context [ChatRepository.update ?c] => destruct (chat_update_run c s)
        as [[_ E]|[_ [w E]]]
    end.
    + rewrite (bind_throw _ E). exists chat. auto.
    + rewrite (bind_ok _ E). cbn.
      match goal with
      | |- context [replace_row chat_id _ ?row _] =>
          change (replace_row chat_id _ row) with (replace_row chat_id found row);
          destruct (@replaced_chat found row chat (chats s) Hnd Hf Hin eq_refl) as [[-> H]|[Hne H]];
          [exists row | exists chat]
      end.
      * split; [exact H|]. split; [reflexivity|]. right. right. left. exists us.
        split; [now rewrite Hid | reflexivity].
      * auto.
  - (* removeParticipant *)
    cbn [execute]. rewrite discard_snd. unfold ChatService.removeParticipant.
    rewrite chat_findOne_bind.
    destruct (find _ (chats s)) as [found|] eqn:Ef; [|exists chat; auto].
    apply find_some in Ef as [Hf Hid].
    apply andb_true_iff in Hid as [Hid _]. apply String.eqb_eq in Hid.
    match goal with
    | |- context [ChatRepository.update ?c] => destruct (chat_update_run c s)
        as [[_ E]|[_ [w E]]]
    end.
    + rewrite E. exists chat. auto.
    + rewrite E. cbn.
      match goal with
      | |- context [replace_row chat_id _ ?row _] =>
          change (replace_row chat_id _ row) with (replace_row chat_id found row);
          destruct (@replaced_chat found row chat (chats s) Hnd Hf Hin eq_refl) as [[-> H]|[Hne H]];
          [exists row | exists chat]
      end.
      * split; [exact H|]. split; [reflexivity|]. right. right. right. exists u.
        split; [now rewrite Hid | reflexivity].
      * auto.
  - (* removeChat *)
    cbn [execute]. rewrite discard_snd. unfold ChatService.remove.
    rewrite chat_findOne_bind.
    destruct (find _ (chats s)) as [found|] eqn:Ef; [|exists chat; auto].
    apply find_some in Ef as [Hf Hid].
    match goal with
    | |- context [ChatRepository.update ?c] => destruct (chat_update_run c s)
        as [[_ E]|[_ [w E]]]
    end.
    + rewrite E. exists chat. auto.
    + rewrite E. cbn.
      match goal with
      | |- context [replace_row chat_id _ ?row _] =>
          change (replace_row chat_id _ row) with (replace_row chat_id found row);
          destruct (@replaced_chat found row chat (chats s) Hnd Hf Hin eq_refl) as [[-> H]|[Hne H]];
          [exists row | exists chat]
      end; auto.
Qed.

Lemma participants_change_only_by_add_or_remove_witness :
  let chat := mkChat "uuid-0" "C" None "group" ["U1"] true 0 0 in
  let c := addParticipant "uuid-0" "U2" in
  reachable store_single /\ In chat (chats store_single) /\
  exists chat',
    In chat' (chats (snd (execute c store_single))) /\ chat_id chat' = chat_id chat /\
    (participantIds chat' = participantIds chat \/
     (exists userId,
         c = addParticipant (chat_id chat) userId /\
         ~ In userId (participantIds chat) /\
         participantIds chat' = participantIds chat ++ [userId]) \/
     (exists userIds,
         c = addParticipants (chat_id chat) userIds /\
         participantIds chat'
         = participantIds chat
           ++ filter (fun u => negb (includes (participantIds chat) u)) userIds) \/
     (exists userId,
         c = removeParticipant (chat_id chat) userId /\
         participantIds chat' = without userId (participantIds chat))).
Proof.
  intros chat c.
  assert (Hr : reachable store_single) by (apply reachable_run; constructor).
  assert (Hin : In chat (chats store_single)) by (vm_compute; auto).
  split; [exact Hr|]. split; [exact Hin|].
  exact (@participants_change_only_by_add_or_remove store_single c chat Hr Hin).
Defined.

(** ** Failing writes *)

(** C5, as stated, fails: writes are not grouped in a transaction. On a
    store that rejects the third write of [createMessage], the command
    throws after the message was saved, four events were published and the
    counter of U2 was incremented. *)
Lemma later_write_failure_leaves_side_effects :
  ~ (forall (s s' : Store) (c : Command),
        reachable s -> execute c s = (Throw StoreUnavailable, s') ->
        published s' = published s /\ unread_counts s' = unread_counts s).
Proof.
  intros H.
  assert (Hr : reachable store_failing)
    by (apply reachable_outage, reachable_run; constructor).
  pose (c := createMessage (mkCreateMessageInput "hi" "U1" "uuid-0")).
  assert (E : execute c store_failing
              = (Throw StoreUnavailable, snd (execute c store_failing)))
    by (vm_compute; reflexivity).
  destruct (H store_failing _ c Hr E) as [Hp _].
  assert (E1 : List.length (published (snd (execute c store_failing))) = 5)
    by (vm_compute; reflexivity).
  assert (E2 : List.length (published store_failing) = 1)
    by (vm_compute; reflexivity).
  rewrite Hp, E2 in E1. discriminate E1.
Qed.

(** C5 (amended). When the store rejects the first write of a command,
    the command has no side effect: the store is left as it was, so that
    no event is published and no unread counter is modified, and the
    command throws, unless it ends before any write, just as it does on an
    available store. A write that fails later in the command aborts it
    without undoing what preceded. *)
Theorem first_write_failure_has_no_side_effect
  (c : Command) (s s' : Store) (r : Result unit) :
  writes_left s = Some 0 ->
  execute c s = (r, s') ->
  s' = s /\ published s' = published s /\ unread_counts s' = unread_counts s /\
  (r = Throw StoreUnavailable \/
   execute c (set_writes_left None s) = (r, set_writes_left None s)).
Proof.
  intros Hw E. destruct (quiet_execute c s Hw) as [Hs Hr]. rewrite E in Hs, Hr.
  simpl in Hs, Hr. subst s'. auto.
Qed.

Lemma first_write_failure_has_no_side_effect_witness :
  let s := set_writes_left (Some 0) store_A in
  let c := createMessage (mkCreateMessageInput "again" "U1" "uuid-0") in
  writes_left s = Some 0 /\
  execute c s = (Throw StoreUnavailable, snd (execute c s)) /\
  snd (execute c s) = s /\ published (snd (execute c s)) = published s.
Proof.
  intros s c.
  assert (Hw : writes_left s = Some 0) by reflexivity.
  assert (E : execute c s = (Throw StoreUnavailable, snd (execute c s)))
    by (vm_compute; reflexivity).
  destruct (@first_write_failure_has_no_side_effect c s _ _ Hw E) as [H1 [H2 _]].
  split; [exact Hw|]. split; [exact E|]. split; [exact H1 | exact H2].
Defined.

(** ** Concurrent calls on one counter *)




(* ================================================================== *)
(** * Further properties of the services *)
(* ================================================================== *)

(** ** Editing a message *)

(** X1. [update] refuses, with [NotFoundException], a uuid that is not
    the id of a stored message and, with [ForbiddenException], a user who
    is not the sender of the message; it leaves the store as it is. (An
    id that is no uuid is left out: the uuid column rejects it.) *)
Theorem update_rejects
  (id content userId : string) (s : Store) :
  (Schema.uuid id = true ->
   find (fun m => String.eqb (msg_id m) id) (messages s) = None ->
   MessageService.update id content userId s
   = (Throw (NotFoundException ("Message with ID " ++ id ++ " not found")), s)) /\
  (forall m, find (fun m => String.eqb (msg_id m) id) (messages s) = Some m ->
             msg_senderId m <> userId ->
             MessageService.update id content userId s
             = (Throw (ForbiddenException "Only the sender can edit this message"), s)).
Proof.
  unfold MessageService.update. rewrite message_findOne_bind. split.
  - intros _ ->. reflexivity.
  - intros m -> Hne. apply String.eqb_neq in Hne. now rewrite Hne.
Qed.

Lemma update_rejects_witness :
  MessageService.update "uuid-9" "x" "U1" store_A
  = (Throw (NotFoundException "Message with ID uuid-9 not found"), store_A) /\
  MessageService.update "uuid-1" "x" "U2" store_A
  = (Throw (ForbiddenException "Only the sender can edit this message"), store_A).
Proof.
  destruct (update_rejects "uuid-9" "x" "U1" store_A) as [H1 _].
  destruct (update_rejects "uuid-1" "x" "U2" store_A) as [_ H2].
  split.
  - apply H1; vm_compute; reflexivity.
  - apply (H2 (mkMessage "uuid-1" "hi" "U1" "uuid-0" false None 1)).
    + vm_compute. reflexivity.
    + discriminate.
Defined.

(** X2. When the sender edits a message on an available store, the stored
    message gets the new content, is marked as edited at the current
    date and keeps its id, sender, chat and creation date; it is what
    [findOne] returns afterwards and what the one published
    [messageUpdated] event carries. Receipts, counters and chats are not
    touched. *)
Theorem update_by_sender
  (id content : string) (s : Store) (m : Message) :
  find (fun m => String.eqb (msg_id m) id) (messages s) = Some m ->
  writes_left s <> Some 0 ->
  let m' := mkMessage (msg_id m) content (msg_senderId m) (msg_chatId m) true
                      (Some (now s)) (msg_createdAt m) in
  exists s',
    MessageService.update id content (msg_senderId m) s = (Ok m', s') /\
    MessageService.findOne id s' = (Ok m', s') /\
    messages s' = replace_row msg_id m m' (messages s) /\
    published s' = published s ++ [messageUpdated m'] /\
    message_reads s' = message_reads s /\ unread_counts s' = unread_counts s /\
    chats s' = chats s.
Proof.
  intros Hf Hw m'. unfold MessageService.update. rewrite message_findOne_bind, Hf.
  rewrite String.eqb_refl. cbn [negb].
  destruct (message_update_run m' s) as [[H0 _]|[_ [w [_ E]]]]; [contradiction|].
  fold m'. rewrite (bind_ok _ E). cbn.
  eexists. split; [reflexivity|].
  change (replace_row msg_id m' m') with (replace_row msg_id m m').
  split; [|repeat split].
  apply message_findOne_found. cbn.
  apply find_replace_same; [exact Hf|].
  simpl. destruct (find_id_found _ _ Hf) as [_ ->]. apply String.eqb_refl.
Qed.

Lemma update_by_sender_witness :
  let m := mkMessage "uuid-1" "hi" "U1" "uuid-0" false None 1 in
  let m' := mkMessage "uuid-1" "hello" "U1" "uuid-0" true (Some 4) 1 in
  exists s',
    MessageService.update "uuid-1" "hello" "U1" store_A = (Ok m', s') /\
    MessageService.findOne "uuid-1" s' = (Ok m', s').
Proof.
  intros m m'.
  assert (Hf : find (fun m => String.eqb (msg_id m) "uuid-1") (messages store_A) = Some m)
    by (vm_compute; reflexivity).
  assert (Hw : writes_left store_A <> Some 0) by (vm_compute; discriminate).
  destruct (@update_by_sender "uuid-1" "hello" store_A m Hf Hw) as [s' [H1 [H2 _]]].
  exists s'. split; [exact H1 | exact H2].
Defined.

(** ** Deleting a message *)

(** X3. [remove] refuses, with [NotFoundException], a uuid that is not
    the id of a stored message and, with [ForbiddenException], a user who
    is not the sender of the message; it leaves the store as it is. (An
    id that is no uuid is left out: the uuid column rejects it.) *)
Theorem remove_rejects
  (id userId : string) (s : Store) :
  (Schema.uuid id = true ->
   find (fun m => String.eqb (msg_id m) id) (messages s) = None ->
   MessageService.remove id userId s
   = (Throw (NotFoundException ("Message with ID " ++ id ++ " not found")), s)) /\
  (forall m, find (fun m => String.eqb (msg_id m) id) (messages s) = Some m ->
             msg_senderId m <> userId ->
             MessageService.remove id userId s
             = (Throw (ForbiddenException "Only the sender can delete this message"), s)).
Proof.
  unfold MessageService.remove. rewrite message_findOne_bind. split.
  - intros _ ->. reflexivity.
  - intros m -> Hne. apply String.eqb_neq in Hne. now rewrite Hne.
Qed.

Lemma remove_rejects_witness :
  MessageService.remove "uuid-9" "U1" store_A
  = (Throw (NotFoundException "Message with ID uuid-9 not found"), store_A) /\
  MessageService.remove "uuid-1" "U3" store_A
  = (Throw (ForbiddenException "Only the sender can delete this message"), store_A).
Proof.
  destruct (remove_rejects "uuid-9" "U1" store_A) as [H1 _].
  destruct (remove_rejects "uuid-1" "U3" store_A) as [_ H2].
  split.
  - apply H1; vm_compute; reflexivity.
  - apply (H2 (mkMessage "uuid-1" "hi" "U1" "uuid-0" false None 1)).
    + vm_compute. reflexivity.
    + discriminate.
Defined.

(** X4. When the sender deletes a message on an available store, the
    message is no longer found, nobody holds a receipt for it any more
    and the receipts of the other messages are kept. One event is
    published, a [messageDeleted] that the receiver forwards to the
    [messageDeleted] subscribers of the chat of the message and to no
    other subscriber. Unread counters are not touched: the unread count
    a recipient has for the chat still includes the deleted message. *)
Theorem remove_by_sender
  (id : string) (s : Store) (m : Message) :
  find (fun m => String.eqb (msg_id m) id) (messages s) = Some m ->
  writes_left s <> Some 0 ->
  exists r s' e,
    MessageService.remove id (msg_senderId m) s = (Ok r, s') /\
    MessageService.findOne id s'
    = (Throw (NotFoundException ("Message with ID " ++ id ++ " not found")), s') /\
    (forall u, ~ holds_receipt s' id u) /\
    (forall messageId u, messageId <> id ->
                         (holds_receipt s' messageId u <-> holds_receipt s messageId u)) /\
    published s' = published s ++ [e] /\
    (forall sub, Receiver.filter_ sub e = true <->
                 sub = Receiver.sub_messageDeleted (msg_chatId m)) /\
    unread_counts s' = unread_counts s.
Proof.
  intros Hf Hw. destruct (find_id_found _ _ Hf) as [_ Hid].
  unfold MessageService.remove. rewrite message_findOne_bind, Hf.
  rewrite String.eqb_refl. cbn [negb].
  destruct (message_remove_run m s) as [[H0 _]|[_ [w [_ E]]]]; [contradiction|].
  rewrite (bind_ok _ E). cbn. rewrite Hid.
  do 3 eexists. split; [reflexivity|]. split.
  { apply message_findOne_missing. cbn. apply find_after_delete. }
  split.
  { intros u [r [Hin [Hm _]]]. cbn in Hin. apply filter_In in Hin as [_ Hne].
    rewrite Hm, String.eqb_refl in Hne. discriminate. }
  split; [|split; [reflexivity|split; [|reflexivity]]].
  2:{ intros sub. split.
      - destruct sub; cbn; try discriminate. intros H.
        apply String.eqb_eq in H. now subst.
      - intros ->. cbn. apply String.eqb_refl. }
  intros messageId u Hne. unfold holds_receipt. cbn. split.
  - intros [r [Hin H]]. apply filter_In in Hin as [Hin _]. exists r. auto.
  - intros [r [Hin [Hm Hu]]]. exists r. split; [|auto].
    apply filter_In. split; [exact Hin|].
    apply negb_true_iff, String.eqb_neq. congruence.
Qed.

Lemma remove_by_sender_witness :
  let m := mkMessage "uuid-1" "hi" "U1" "uuid-0" false None 1 in
  exists r s',
    MessageService.remove "uuid-1" "U1" store_read_by_all = (Ok r, s') /\
    (forall u, ~ holds_receipt s' "uuid-1" u) /\
    unread_counts s' = unread_counts store_read_by_all.
Proof.
  intros m.
  assert (Hf : find (fun m => String.eqb (msg_id m) "uuid-1")
                    (messages store_read_by_all) = Some m)
    by (vm_compute; reflexivity).
  assert (Hw : writes_left store_read_by_all <> Some 0) by (vm_compute; discriminate).
  destruct (@remove_by_sender "uuid-1" store_read_by_all m Hf Hw)
    as [r [s' [e [H1 [_ [H2 [_ [_ [_ H3]]]]]]]]].
  exists r, s'. split; [exact H1|]. split; [exact H2 | exact H3].
Defined.

(** ** Sending a message *)

(** X5. [create] refuses, with [NotFoundException], a uuid that is not
    the id of a stored, active chat and, with [ForbiddenException], a
    sender who is not a participant of the chat; nothing is stored and
    nothing is published. (A chat id that is no uuid is left out: the uuid
    column rejects it.) *)
Theorem create_rejects
  (input : CreateMessageInput) (s : Store) :
  (Schema.uuid (cmi_chatId input) = true ->
   find (fun c => String.eqb (chat_id c) (cmi_chatId input) && isActive c)%bool (chats s)
   = None ->
   MessageService.create input s
   = (Throw (NotFoundException ("Chat with ID " ++ cmi_chatId input ++ " not found")), s))
  /\
  (forall chat,
      find (fun c => String.eqb (chat_id c) (cmi_chatId input) && isActive c)%bool (chats s)
      = Some chat ->
      ~ In (cmi_senderId input) (participantIds chat) ->
      MessageService.create input s
      = (Throw (ForbiddenException "User is not a participant in this chat"), s)).
Proof.
  rewrite create_unfold. split.
  - intros _ ->. reflexivity.
  - intros chat -> Hnot.
    destruct (includes (participantIds chat) (cmi_senderId input)) eqn:E; [|reflexivity].
    exfalso. apply Hnot. unfold includes in E. apply existsb_exists in E as [x [Hin Hx]].
    apply String.eqb_eq in Hx. now subst x.
Qed.

Lemma create_rejects_witness :
  MessageService.create (mkCreateMessageInput "hi" "U1" "uuid-7") store_A
  = (Throw (NotFoundException "Chat with ID uuid-7 not found"), store_A) /\
  MessageService.create (mkCreateMessageInput "hi" "U9" "uuid-0") store_A
  = (Throw (ForbiddenException "User is not a participant in this chat"), store_A).
Proof.
  destruct (create_rejects (mkCreateMessageInput "hi" "U1" "uuid-7") store_A) as [H1 _].
  destruct (create_rejects (mkCreateMessageInput "hi" "U9" "uuid-0") store_A) as [_ H2].
  split.
  - apply H1; vm_compute; reflexivity.
  - apply (H2 (mkChat "uuid-0" "C" None "group" ["U1"; "U2"; "U3"] true 0 0)).
    + vm_compute. reflexivity.
    + simpl. intros [H|[H|[H|[]]]]; discriminate.
Defined.

(** X6. When [create] returns for a chat whose participant list has no
    duplicates, the stored message has the content, sender and chat of
    the input and is not edited, and the command has published, in this
    order, [messageAdded], [chatMessageNotification] and
    [messageUpdateForChatList] with that message, then one
    [unreadCountUpdated] per participant other than the sender, in list
    order, with that participant's new count. *)
Theorem create_publishes
  (s s' : Store) (input : CreateMessageInput) (m : Message) (chat : Chat) :
  reachable s ->
  MessageService.create input s = (Ok m, s') ->
  ChatService.findOne (cmi_chatId input) s = (Ok chat, s) ->
  NoDup (participantIds chat) ->
  m = mkMessage (gen_uuid (next_uuid s)) (cmi_content input) (cmi_senderId input)
                (cmi_chatId input) false None (now s) /\
  messages s' = messages s ++ [m] /\
  published s'
  = published s
    ++ [messageAdded m;
        chatMessageNotification (cmi_chatId input) m (cmi_senderId input);
        messageUpdateForChatList (cmi_chatId input) m (cmi_senderId input)]
    ++ map (fun u => unreadCountUpdated (cmi_chatId input) u
                       (count_of (cmi_chatId input) u s + 1)%Z)
           (without (cmi_senderId input) (participantIds chat)) /\
  message_reads s' = message_reads s /\ chats s' = chats s.
Proof.
  intros Hr Hc Hf Hnd.
  destruct (create_ok_events _ (reachable_wf Hr) Hc)
    as [chat' [s0 [Ec [Hm [Hwf0 [Eu [Em [Er [Ech [Ep Hloop]]]]]]]]]].
  apply findOne_chat_ok in Hf as [_ Hf]. rewrite Hf in Ec. injection Ec as <-.
  assert (Hnd' : NoDup (without (cmi_senderId input) (participantIds chat)))
    by (apply NoDup_filter; exact Hnd).
  destruct (increments_published _ Hwf0 Hnd' Hloop) as [Hp [Hm' [Hr' Hc']]].
  split; [exact Hm|]. split; [now rewrite Hm', Em|].
  split; [|now rewrite Hr', Er, Hc', Ech].
  rewrite Hp, Ep, <- app_assoc. do 2 f_equal.
  apply map_ext. intros u. unfold count_of, stored_count. now rewrite Eu.
Qed.

Lemma create_publishes_witness :
  let input := mkCreateMessageInput "again" "U1" "uuid-0" in
  let m := mkMessage "uuid-4" "again" "U1" "uuid-0" false None 4 in
  let chat := mkChat "uuid-0" "C" None "group" ["U1"; "U2"; "U3"] true 0 0 in
  let s' := snd (MessageService.create input store_A) in
  MessageService.create input store_A = (Ok m, s') /\
  published s'
  = published store_A
    ++ [messageAdded m; chatMessageNotification "uuid-0" m "U1";
        messageUpdateForChatList "uuid-0" m "U1"]
    ++ map (fun u => unreadCountUpdated "uuid-0" u (count_of "uuid-0" u store_A + 1)%Z)
           (without "U1" ["U1"; "U2"; "U3"]).
Proof.
  intros input m chat s'.
  assert (Hr : reachable store_A) by (apply reachable_run; constructor).
  assert (E1 : MessageService.create input store_A = (Ok m, s'))
    by (vm_compute; reflexivity).
  assert (E2 : ChatService.findOne (cmi_chatId input) store_A = (Ok chat, store_A))
    by (vm_compute; reflexivity).
  assert (Hnd : NoDup (participantIds chat)).
  { repeat constructor; simpl; intros H;
      repeat (destruct H as [H|H]; [discriminate|]); exact H. }
  destruct (@create_publishes store_A s' input m chat Hr E1 E2 Hnd) as [_ [_ [H _]]].
  split; [exact E1 | exact H].
Defined.

(** ** Marking a message as read *)

(** X7. [markMessageAsRead] refuses, with [NotFoundException], a uuid
    that is not the id of a stored message and a message whose chat is
    not found and, with [ForbiddenException], a user who is not a
    participant of the chat of the message; nothing is stored and nothing
    is published. (A message id that is no uuid is left out: the uuid column
    rejects it.) *)
Theorem markMessageAsRead_rejects
  (messageId userId : string) (s : Store) :
  (Schema.uuid messageId = true ->
   find (fun m => String.eqb (msg_id m) messageId) (messages s) = None ->
   MessageService.markMessageAsRead messageId userId s
   = (Throw (NotFoundException ("Message with ID " ++ messageId ++ " not found")), s)) /\
  (forall m,
      find (fun m => String.eqb (msg_id m) messageId) (messages s) = Some m ->
      (find (fun c => String.eqb (chat_id c) (msg_chatId m) && isActive c)%bool (chats s)
       = None ->
       MessageService.markMessageAsRead messageId userId s
       = (Throw (NotFoundException ("Chat with ID " ++ msg_chatId m ++ " not found")), s))
      /\
      (forall chat,
          find (fun c => String.eqb (chat_id c) (msg_chatId m) && isActive c)%bool
               (chats s) = Some chat ->
          ~ In userId (participantIds chat) ->
          MessageService.markMessageAsRead messageId userId s
          = (Throw (ForbiddenException "User is not a participant in this chat"), s))).
Proof.
  rewrite markMessageAsRead_unfold. split.
  - intros _ ->. reflexivity.
  - intros m ->. split.
    + intros ->. reflexivity.
    + intros chat -> Hnot.
      destruct (includes (participantIds chat) userId) eqn:E; [|reflexivity].
      exfalso. apply Hnot. unfold includes in E.
      apply existsb_exists in E as [x [Hin Hx]].
      apply String.eqb_eq in Hx. now subst x.
Qed.

Lemma markMessageAsRead_rejects_witness :
  MessageService.markMessageAsRead "uuid-9" "U2" store_A
  = (Throw (NotFoundException "Message with ID uuid-9 not found"), store_A) /\
  MessageService.markMessageAsRead "uuid-1" "U9" store_A
  = (Throw (ForbiddenException "User is not a participant in this chat"), store_A).
Proof.
  destruct (markMessageAsRead_rejects "uuid-9" "U2" store_A) as [H1 _].
  destruct (markMessageAsRead_rejects "uuid-1" "U9" store_A) as [_ H2].
  pose (m := mkMessage "uuid-1" "hi" "U1" "uuid-0" false None 1).
  assert (Hm : find (fun m => String.eqb (msg_id m) "uuid-1") (messages store_A) = Some m)
    by (vm_compute; reflexivity).
  destruct (H2 m Hm) as [_ H3].
  split.
  - apply H1; vm_compute; reflexivity.
  - apply (H3 (mkChat "uuid-0" "C" None "group" ["U1"; "U2"; "U3"] true 0 0)).
    + vm_compute. reflexivity.
    + simpl. intros [H|[H|[H|[]]]]; discriminate.
Defined.

(** X8. When [markMessageAsRead] returns for a pair that had no receipt,
    the unread count of the reader for the chat of the message is zero
    afterwards and no other counter is touched. The command publishes
    [unreadCountUpdated] with the value 0 exactly when the count was
    positive, and then [messageReadUpdated] with the date of the new
    receipt. *)
Theorem first_read_resets_unread_count
  (messageId userId : string) (s s1 : Store) (r : MessageRead) (m : Message) :
  reachable s ->
  MessageService.findOne messageId s = (Ok m, s) ->
  receipts_of messageId userId s = [] ->
  MessageService.markMessageAsRead messageId userId s = (Ok r, s1) ->
  count_of (msg_chatId m) userId s1 = 0%Z /\
  (forall c u, c <> msg_chatId m \/ u <> userId -> count_of c u s1 = count_of c u s) /\
  published s1
  = published s
    ++ (if (0 <? count_of (msg_chatId m) userId s)%Z
        then [unreadCountUpdated (msg_chatId m) userId 0] else [])
    ++ [messageReadUpdated messageId userId (readAt r)].
Proof.
  intros Hr Hm Hnil H. apply findOne_message_ok in Hm as [_ Hm].
  assert (Hnone : find (MessageReadRepository.matches messageId userId) (message_reads s)
                  = None).
  { unfold receipts_of in Hnil.
    induction (message_reads s) as [|x l IH]; simpl in *; [reflexivity|].
    destruct (MessageReadRepository.matches messageId userId x); [discriminate|].
    now apply IH. }
  rewrite markMessageAsRead_unfold, Hm in H.
  destruct (find _ (chats s)) as [chat|]; [|discriminate].
  destruct (includes (participantIds chat) userId); [|discriminate].
  rewrite Hnone in H.
  apply (mark_fresh_counts _ _ _ (reachable_wf Hr) Hnone) in H as [-> [H0 [Ho Hp]]].
  split; [exact H0|]. split; [|exact Hp].
  intros c u Hne. unfold count_of, stored_count. rewrite Ho; [reflexivity|].
  rewrite matches_key. apply andb_false_iff. rewrite !String.eqb_neq.
  destruct Hne as [Hne|Hne]; [left | right]; congruence.
Qed.

Lemma first_read_resets_unread_count_witness :
  let m := mkMessage "uuid-1" "hi" "U1" "uuid-0" false None 1 in
  let r := mkMessageRead "uuid-4" "uuid-1" "U2" 4 in
  let s1 := snd (MessageService.markMessageAsRead "uuid-1" "U2" store_A) in
  count_of "uuid-0" "U2" store_A = 1%Z /\
  count_of (msg_chatId m) "U2" s1 = 0%Z.
Proof.
  intros m r s1.
  assert (Hr : reachable store_A) by (apply reachable_run; constructor).
  assert (E1 : MessageService.findOne "uuid-1" store_A = (Ok m, store_A))
    by (vm_compute; reflexivity).
  assert (E2 : receipts_of "uuid-1" "U2" store_A = []) by (vm_compute; reflexivity).
  assert (E3 : MessageService.markMessageAsRead "uuid-1" "U2" store_A = (Ok r, s1))
    by (vm_compute; reflexivity).
  destruct (@first_read_resets_unread_count "uuid-1" "U2" store_A s1 r m Hr E1 E2 E3)
    as [H _].
  split; [vm_compute; reflexivity | exact H].
Defined.

(** ** Chats and their participants *)



(** X10. [addParticipant] of a user the chat already lists returns the
    chat and writes nothing. Of a new user, on an available store, it
    appends the user to the list, which stays free of duplicates if it
    was; the user is a participant afterwards. No event is published:
    unlike [addParticipants], it does not announce the change. *)
Theorem addParticipant_appends_once
  (chatId userId : string) (s : Store) (chat : Chat) :
  ChatService.findOne chatId s = (Ok chat, s) ->
  (In userId (participantIds chat) ->
   ChatService.addParticipant chatId userId s = (Ok chat, s)) /\
  (~ In userId (participantIds chat) -> writes_left s <> Some 0 ->
   exists chat' s',
     ChatService.addParticipant chatId userId s = (Ok chat', s') /\
     participantIds chat' = participantIds chat ++ [userId] /\
     (NoDup (participantIds chat) -> NoDup (participantIds chat')) /\
     ChatService.isParticipant chatId userId s' = (Ok true, s') /\
     ChatService.addParticipant chatId userId s' = (Ok chat', s') /\
     published s' = published s).
Proof.
  intros Hf. apply findOne_chat_ok in Hf as [_ Hf].
  destruct (find_some _ _ Hf) as [_ Hp]. apply andb_true_iff in Hp as [Hid Hact].
  apply String.eqb_eq in Hid.
  unfold ChatService.addParticipant. rewrite chat_findOne_bind, Hf. split.
  - intros Hin. apply includes_In in Hin. now rewrite Hin.
  - intros Hnot Hw. apply includes_not_In in Hnot as Hinc. rewrite Hinc. cbn [negb].
    match goal with
    | |- context [ChatRepository.update ?c] => destruct (chat_update_run c s)
        as [[H0 _]|[_ [w E]]]; [contradiction|]
    end.
    rewrite E. cbn. eexists. eexists. split; [reflexivity|]. cbn.
    split; [reflexivity|].
    match goal with
    | |- context [replace_row chat_id _ ?row _] =>
        change (replace_row chat_id _ row) with (replace_row chat_id chat row);
        assert (Hf' : find (fun c => String.eqb (chat_id c) chatId && isActive c)%bool
                           (replace_row chat_id chat row (chats s)) = Some row)
          by (apply find_replace_same; [exact Hf | cbn; now rewrite Hid, String.eqb_refl])
    end.
    split; [|split; [|split; [|reflexivity]]].
    + intros Hnd. apply NoDup_app; [exact Hnd | repeat constructor; simpl; tauto|].
      intros x Hx [<-|[]]. contradiction.
    + unfold ChatService.isParticipant. rewrite chat_findOne_bind.
      cbn [chats tick set_chats set_writes_left]. rewrite Hf'.
      cbn [participantIds]. unfold ret. do 2 f_equal.
      apply includes_In, in_or_app. right. now left.
    + rewrite chat_findOne_bind.
      cbn [chats tick set_chats set_writes_left]. rewrite Hf'.
      cbn [participantIds].
      assert (Hin : includes (participantIds chat ++ [userId]) userId = true)
        by (apply includes_In, in_or_app; right; now left).
      now rewrite Hin.
Qed.

Lemma addParticipant_appends_once_witness :
  let chat := mkChat "uuid-0" "C" None "group" ["U1"; "U2"; "U3"] true 0 0 in
  ChatService.addParticipant "uuid-0" "U2" store_A = (Ok chat, store_A) /\
  exists chat' s',
    ChatService.addParticipant "uuid-0" "U4" store_A = (Ok chat', s') /\
    participantIds chat' = ["U1"; "U2"; "U3"; "U4"].
Proof.
  intros chat.
  assert (E : ChatService.findOne "uuid-0" store_A = (Ok chat, store_A))
    by (vm_compute; reflexivity).
  destruct (@addParticipant_appends_once "uuid-0" "U2" store_A chat E) as [H1 _].
  destruct (@addParticipant_appends_once "uuid-0" "U4" store_A chat E) as [_ H2].
  split.
  - apply H1. simpl. auto.
  - destruct H2 as [chat' [s' [Ha [Hb _]]]].
    + simpl. intros [H|[H|[H|[]]]]; discriminate.
    + vm_compute. discriminate.
    + exists chat', s'. split; [exact Ha | exact Hb].
Defined.

(** X11. [addParticipants] writes nothing when every given user is
    already listed. Otherwise, on an available store, it appends the
    users that are not yet listed, in the order given, so that every
    given user is a participant afterwards, and publishes one
    [chatUpdated] event with the saved chat. *)
Theorem addParticipants_adds_all
  (chatId : string) (userIds : list string) (s : Store) (chat : Chat) :
  ChatService.findOne chatId s = (Ok chat, s) ->
  let newParticipants :=
    filter (fun u => negb (includes (participantIds chat) u)) userIds in
  (newParticipants = [] ->
   ChatService.addParticipants chatId userIds s = (Ok chat, s)) /\
  (newParticipants <> [] -> writes_left s <> Some 0 ->
   exists chat' s',
     ChatService.addParticipants chatId userIds s = (Ok chat', s') /\
     participantIds chat' = participantIds chat ++ newParticipants /\
     (forall u, In u userIds -> In u (participantIds chat')) /\
     ChatService.findOne chatId s' = (Ok chat', s') /\
     published s' = published s ++ [chatUpdated chat']).
Proof.
  intros Hf newParticipants. apply findOne_chat_ok in Hf as [_ Hf].
  destruct (find_some _ _ Hf) as [_ Hp]. apply andb_true_iff in Hp as [Hid Hact].
  apply String.eqb_eq in Hid.
  unfold ChatService.addParticipants. rewrite chat_findOne_bind, Hf.
  fold newParticipants. split.
  - intros ->. reflexivity.
  - intros Hne Hw.
    destruct newParticipants as [|x rest] eqn:En; [contradiction|].
    cbn [List.length Nat.ltb Nat.leb].
    match goal with
    | |- context [ChatRepository.update ?c] => destruct (chat_update_run c s)
        as [[H0 _]|[_ [w E]]]; [contradiction|]
    end.
    rewrite (bind_ok _ E). unfold bind, publish, ret.
    eexists. eexists. split; [reflexivity|]. cbn [participantIds].
    split; [reflexivity|]. split; [|split].
    + intros u Hu. unfold ChatService.with_participants. cbn [participantIds].
      destruct (includes (participantIds chat) u) eqn:Ei.
      * apply in_or_app. left. now apply includes_In.
      * apply in_or_app. right. rewrite <- En. apply filter_In.
        split; [exact Hu | now rewrite Ei].
    + apply chat_findOne_found.
      cbn [chats tick set_chats set_writes_left set_published].
      match goal with
      | |- context [replace_row chat_id _ ?row _] =>
          change (replace_row chat_id _ row) with (replace_row chat_id chat row)
      end.
      apply find_replace_same; [exact Hf|].
      unfold ChatService.with_participants. cbn [chat_id isActive].
      now rewrite Hid, String.eqb_refl.
    + reflexivity.
Qed.

Lemma addParticipants_adds_all_witness :
  let chat := mkChat "uuid-0" "C" None "group" ["U1"; "U2"; "U3"] true 0 0 in
  ChatService.addParticipants "uuid-0" ["U2"; "U1"] store_A = (Ok chat, store_A) /\
  exists chat' s',
    ChatService.addParticipants "uuid-0" ["U4"; "U2"; "U5"] store_A = (Ok chat', s') /\
    participantIds chat' = ["U1"; "U2"; "U3"; "U4"; "U5"].
Proof.
  intros chat.
  assert (E : ChatService.findOne "uuid-0" store_A = (Ok chat, store_A))
    by (vm_compute; reflexivity).
  destruct (@addParticipants_adds_all "uuid-0" ["U2"; "U1"] store_A chat E) as [H1 _].
  destruct (@addParticipants_adds_all "uuid-0" ["U4"; "U2"; "U5"] store_A chat E)
    as [_ H2].
  split.
  - apply H1. reflexivity.
  - destruct H2 as [chat' [s' [Ha [Hb _]]]].
    + discriminate.
    + vm_compute. discriminate.
    + exists chat', s'. split; [exact Ha | exact Hb].
Defined.

(** X12. [removeParticipant] on an available store deletes every entry
    of the user from the list and keeps the other entries in their order:
    the user is no participant afterwards, every other user is one
    exactly if they were. It writes the chat even when the user was not
    listed, publishes nothing and leaves the receipts and the unread
    counters of the removed user in place. *)
Theorem removeParticipant_removes
  (chatId userId : string) (s : Store) (chat : Chat) :
  ChatService.findOne chatId s = (Ok chat, s) ->
  writes_left s <> Some 0 ->
  exists chat' s',
    ChatService.removeParticipant chatId userId s = (Ok chat', s') /\
    participantIds chat' = without userId (participantIds chat) /\
    ChatService.isParticipant chatId userId s' = (Ok false, s') /\
    (forall u, u <> userId ->
               ChatService.isParticipant chatId u s'
               = (Ok (includes (participantIds chat) u), s')) /\
    published s' = published s /\
    message_reads s' = message_reads s /\ unread_counts s' = unread_counts s.
Proof.
  intros Hf Hw. apply findOne_chat_ok in Hf as [_ Hf].
  destruct (find_some _ _ Hf) as [_ Hp]. apply andb_true_iff in Hp as [Hid Hact].
  apply String.eqb_eq in Hid.
  unfold ChatService.removeParticipant. rewrite chat_findOne_bind, Hf.
  match goal with
  | |- context [ChatRepository.update ?c] => destruct (chat_update_run c s)
      as [[H0 _]|[_ [w E]]]; [contradiction|]
  end.
  rewrite E. eexists. eexists. split; [reflexivity|]. cbn [participantIds].
  split; [reflexivity|].
  match goal with
  | |- context [replace_row chat_id _ ?row _] =>
      change (replace_row chat_id _ row) with (replace_row chat_id chat row);
      assert (Hf' : find (fun c => String.eqb (chat_id c) chatId && isActive c)%bool
                         (replace_row chat_id chat row (chats s)) = Some row)
        by (apply find_replace_same;
            [exact Hf
            | unfold ChatService.with_participants; cbn [chat_id isActive];
              now rewrite Hid, String.eqb_refl])
  end.
  split; [|split; [|repeat split]].
  - unfold ChatService.isParticipant. rewrite chat_findOne_bind.
    cbn [chats tick set_chats set_writes_left]. rewrite Hf'.
    cbn [participantIds]. unfold ret. do 2 f_equal.
    apply includes_not_In. unfold ChatService.with_participants. cbn [participantIds].
    rewrite without_In. tauto.
  - intros u Hne. unfold ChatService.isParticipant. rewrite chat_findOne_bind.
    cbn [chats tick set_chats set_writes_left]. rewrite Hf'.
    cbn [participantIds]. unfold ret. do 2 f_equal.
    unfold ChatService.with_participants. cbn [participantIds].
    destruct (includes (participantIds chat) u) eqn:Ei.
    + apply includes_In. apply without_In. split; [now apply includes_In | exact Hne].
    + apply includes_not_In. rewrite without_In. apply includes_not_In in Ei. tauto.
Qed.

Lemma removeParticipant_removes_witness :
  exists chat' s',
    ChatService.removeParticipant "uuid-0" "U2" store_duplicate = (Ok chat', s') /\
    participantIds chat' = ["U1"] /\
    ChatService.isParticipant "uuid-0" "U2" s' = (Ok false, s').
Proof.
  pose (chat := mkChat "uuid-0" "C" None "group" ["U1"; "U2"; "U2"] true 0 0).
  assert (E : ChatService.findOne "uuid-0" store_duplicate = (Ok chat, store_duplicate))
    by (vm_compute; reflexivity).
  assert (Hw : writes_left store_duplicate <> Some 0) by (vm_compute; discriminate).
  destruct (@removeParticipant_removes "uuid-0" "U2" store_duplicate chat E Hw)
    as [chat' [s' [H1 [H2 [H3 _]]]]].
  exists chat', s'. split; [exact H1|]. split; [exact H2 | exact H3].
Defined.

(** X13. [remove] of a chat on an available store deactivates it and
    keeps its participants and messages. The chat is not found
    afterwards: a second [remove] and any [create] of a message in it
    throw [NotFoundException]. *)
Theorem removed_chat_is_not_found
  (chatId : string) (s : Store) (chat : Chat) :
  ChatService.findOne chatId s = (Ok chat, s) ->
  writes_left s <> Some 0 ->
  exists chat' s',
    ChatService.remove chatId s = (Ok chat', s') /\
    isActive chat' = false /\ participantIds chat' = participantIds chat /\
    messages s' = messages s /\
    ChatService.findOne chatId s'
    = (Throw (NotFoundException ("Chat with ID " ++ chatId ++ " not found")), s') /\
    ChatService.remove chatId s'
    = (Throw (NotFoundException ("Chat with ID " ++ chatId ++ " not found")), s') /\
    (forall content senderId,
        MessageService.create (mkCreateMessageInput content senderId chatId) s'
        = (Throw (NotFoundException ("Chat with ID " ++ chatId ++ " not found")), s')).
Proof.
  intros Hf Hw. apply findOne_chat_ok in Hf as [_ Hf].
  destruct (find_some _ _ Hf) as [_ Hp]. apply andb_true_iff in Hp as [Hid Hact].
  apply String.eqb_eq in Hid.
  unfold ChatService.remove at 1. rewrite chat_findOne_bind, Hf.
  match goal with
  | |- context [ChatRepository.update ?c] => destruct (chat_update_run c s)
      as [[H0 _]|[_ [w E]]]; [contradiction|]
  end.
  rewrite E. eexists. eexists. split; [reflexivity|]. cbn [isActive participantIds].
  split; [reflexivity|]. split; [reflexivity|]. split; [reflexivity|].
  match goal with
  | |- context [replace_row chat_id _ ?row _] =>
      change (replace_row chat_id _ row) with (replace_row chat_id chat row);
      assert (Hf' : find (fun c => String.eqb (chat_id c) chatId && isActive c)%bool
                         (replace_row chat_id chat row (chats s)) = None)
        by (rewrite <- Hid; now apply find_deactivated)
  end.
  split; [|split].
  - apply chat_findOne_missing. exact Hf'.
  - unfold ChatService.remove. rewrite chat_findOne_bind.
    cbn [chats tick set_chats set_writes_left]. now rewrite Hf'.
  - intros content senderId. rewrite create_unfold.
    cbn [chats tick set_chats set_writes_left cmi_chatId]. now rewrite Hf'.
Qed.

Lemma removed_chat_is_not_found_witness :
  exists chat' s',
    ChatService.remove "uuid-0" store_A = (Ok chat', s') /\
    MessageService.create (mkCreateMessageInput "hi" "U1" "uuid-0") s'
    = (Throw (NotFoundException "Chat with ID uuid-0 not found"), s').
Proof.
  pose (chat := mkChat "uuid-0" "C" None "group" ["U1"; "U2"; "U3"] true 0 0).
  assert (E : ChatService.findOne "uuid-0" store_A = (Ok chat, store_A))
    by (vm_compute; reflexivity).
  assert (Hw : writes_left store_A <> Some 0) by (vm_compute; discriminate).
  destruct (@removed_chat_is_not_found "uuid-0" store_A chat E Hw)
    as [chat' [s' [H1 [_ [_ [_ [_ [_ H2]]]]]]]].
  exists chat', s'. split; [exact H1 | exact (H2 "hi" "U1")].
Defined.

(** ** Queries and the client *)

(** X14. [getMessageReadStatus] does not change the store. The status it
    returns for a message of a reachable store lists each user who holds
    a receipt for the message once, and nobody else, and [readByCount] is
    the length of that list. *)
Theorem readStatus_lists_receipt_holders
  (s s' : Store) (messageId : string) (status : MessageReadStatus) :
  reachable s ->
  Receiver.getMessageReadStatus messageId s = (Ok status, s') ->
  s' = s /\ mrs_messageId status = messageId /\
  readByCount status = List.length (readByUsers status) /\
  NoDup (map mru_userId (readByUsers status)) /\
  (forall u, In u (map mru_userId (readByUsers status)) <-> holds_receipt s messageId u).
Proof.
  intros Hr H. rewrite getMessageReadStatus_unfold in H.
  destruct (find _ (messages s)) as [m|]; [|discriminate].
  destruct (find _ (chats s)) as [chat|]; [|discriminate].
  cbv zeta in H. injection H as <- <-.
  cbn [mrs_messageId readByCount readByUsers].
  split; [reflexivity|]. split; [reflexivity|]. split; [now rewrite length_map|].
  rewrite map_map. cbn [mru_userId].
  split; [apply readers_NoDup, (wf_receipts (reachable_wf Hr))|].
  intros u. symmetry. apply holds_receipt_reader.
Qed.

Lemma readStatus_lists_receipt_holders_witness :
  let status := mkMessageReadStatus "uuid-1" 2 2 true
                  [mkMessageReadUser "U2" 4; mkMessageReadUser "U3" 6] in
  Receiver.getMessageReadStatus "uuid-1" store_read_by_all
  = (Ok status, store_read_by_all) /\
  (holds_receipt store_read_by_all "uuid-1" "U3"
   <-> In "U3" (map mru_userId (readByUsers status))).
Proof.
  intros status.
  assert (Hr : reachable store_read_by_all) by (apply reachable_run; constructor).
  assert (E : Receiver.getMessageReadStatus "uuid-1" store_read_by_all
              = (Ok status, store_read_by_all))
    by (vm_compute; reflexivity).
  destruct (@readStatus_lists_receipt_holders
              store_read_by_all store_read_by_all "uuid-1" status Hr E)
    as [_ [_ [_ [_ H]]]].
  split; [exact E|]. symmetry. exact (H "U3").
Defined.

(** X15. The client of a user ignores every event that is not an
    [unreadCountUpdated] addressed to that user, and an update it applies
    changes the count of the chat of the event only. *)
Theorem client_update_is_local
  (userId : string) (prev : Client.UnreadCounts) (payload : Event) :
  (Receiver.filter_ (Receiver.sub_unreadCountUpdated userId) payload = false ->
   Client.onData userId prev payload = prev) /\
  (forall chatId u count chatId',
      payload = unreadCountUpdated chatId u count -> chatId' <> chatId ->
      Client.getUnreadCount (Client.onData userId prev payload) chatId'
      = Client.getUnreadCount prev chatId' /\
      Client.hasUnreadMessages (Client.onData userId prev payload) chatId'
      = Client.hasUnreadMessages prev chatId').
Proof.
  split.
  - intros Hf. unfold Client.onData. now rewrite Hf.
  - intros chatId u count chatId' -> Hne.
    assert (E : Client.getUnreadCount
                  (Client.onData userId prev (unreadCountUpdated chatId u count)) chatId'
                = Client.getUnreadCount prev chatId').
    { rewrite onData_counter. apply String.eqb_neq in Hne.
      rewrite (String.eqb_sym chatId), Hne, andb_false_r. reflexivity. }
    split; [exact E|]. unfold Client.hasUnreadMessages. now rewrite E.
Qed.

Lemma client_update_is_local_witness :
  let prev := [("uuid-0", 3%Z); ("uuid-5", 1%Z)] in
  Client.onData "U2" prev (unreadCountUpdated "uuid-0" "U3" 9) = prev /\
  Client.getUnreadCount (Client.onData "U2" prev (unreadCountUpdated "uuid-0" "U2" 9))
                        "uuid-5"
  = Client.getUnreadCount prev "uuid-5".
Proof.
  intros prev.
  destruct (client_update_is_local "U2" prev (unreadCountUpdated "uuid-0" "U3" 9))
    as [H1 _].
  destruct (client_update_is_local "U2" prev (unreadCountUpdated "uuid-0" "U2" 9))
    as [_ H2].
  split.
  - apply H1. reflexivity.
  - apply (H2 "uuid-0" "U2" 9%Z "uuid-5" eq_refl). discriminate.
Defined.



(** ** Reconnection delay *)

(** X17. The delay before reconnecting to the broker grows by 50 ms per
    attempt and is capped at 2000 ms, which it reaches at the 40th
    attempt; it never decreases from one attempt to the next. *)
Theorem retryStrategy_is_capped (times : Z) :
  (0 <= times)%Z ->
  (0 <= RedisPubSub.retryStrategy times <= 2000)%Z /\
  (times <= 40 -> RedisPubSub.retryStrategy times = times * 50)%Z /\
  (40 <= times -> RedisPubSub.retryStrategy times = 2000)%Z /\
  (RedisPubSub.retryStrategy times <= RedisPubSub.retryStrategy (times + 1))%Z.
Proof.
  intros H. unfold RedisPubSub.retryStrategy. repeat split; lia.
Qed.

Lemma retryStrategy_is_capped_witness :
  RedisPubSub.retryStrategy 3 = 150%Z /\ RedisPubSub.retryStrategy 41 = 2000%Z.
Proof.
  assert (H3 : (0 <= 3)%Z) by lia.
  assert (H41 : (0 <= 41)%Z) by lia.
  destruct (retryStrategy_is_capped H3) as [_ [A _]].
  destruct (retryStrategy_is_capped H41) as [_ [_ [B _]]].
  split; [apply A | apply B]; lia.
Defined.

(** ** Readers that do not mark their own messages *)

(** X18. If no command ever marks a message as read for the user who
    sent it, then in every store that is reached no sender holds a
    receipt for an own message, and every receipt belongs to a message
    that is still stored. *)
Theorem readers_never_hold_own_receipt (s : Store) :
  reachable_by_readers s ->
  (forall m, In m (messages s) -> ~ holds_receipt s (msg_id m) (msg_senderId m)) /\
  (forall r, In r (message_reads s) ->
             exists m, MessageService.findOne (mr_messageId r) s = (Ok m, s) /\
                       msg_senderId m <> mr_userId r).
Proof.
  intros Hr. destruct (reachable_by_readers_wf Hr) as [H1 H2 H3]. split.
  - intros m Hin [r [Hr' [Hm Hu]]].
    destruct (H3 r Hr') as [m0 [Hin0 [Hid0 Hs0]]].
    assert (m0 = m) by (eapply key_unique; eauto; congruence).
    subst m0. congruence.
  - intros r Hr'. destruct (H3 r Hr') as [m0 [Hin0 [Hid0 Hs0]]].
    exists m0. split; [|exact Hs0]. apply message_findOne_found.
    destruct (find (fun m => String.eqb (msg_id m) (mr_messageId r)) (messages s))
      as [m1|] eqn:Ef.
    + destruct (find_id_found _ _ Ef) as [Hin1 Hid1].
      f_equal. eapply key_unique; eauto. congruence.
    + exfalso. pose proof (find_none _ _ Ef m0 Hin0) as Hn. cbn in Hn.
      rewrite Hid0, String.eqb_refl in Hn. discriminate.
Qed.

Lemma readers_never_hold_own_receipt_witness :
  let m := mkMessage "uuid-1" "hi" "U1" "uuid-0" false None 1 in
  reachable_by_readers store_read_by_U2 /\
  In m (messages store_read_by_U2) /\
  holds_receipt store_read_by_U2 "uuid-1" "U2" /\
  ~ holds_receipt store_read_by_U2 (msg_id m) (msg_senderId m).
Proof.
  intros m.
  assert (Hr : reachable_by_readers store_read_by_U2).
  { unfold store_read_by_U2.
    apply by_readers_execute;
      [apply by_readers_execute; [apply by_readers_execute; [constructor|]|]|].
    - intros [].
    - intros [].
    - intros [m0 [Hf Hs]].
      match type of Hf with
      | find ?p (messages ?st) = _ =>
          assert (E : find p (messages st) = Some m) by (vm_compute; reflexivity)
      end.
      rewrite E in Hf. injection Hf as <-. discriminate Hs. }
  assert (Hin : In m (messages store_read_by_U2)) by (vm_compute; auto).
  split; [exact Hr|]. split; [exact Hin|]. split.
  - exists (mkMessageRead "uuid-4" "uuid-1" "U2" 4).
    split; [vm_compute; auto | split; reflexivity].
  - exact (proj1 (readers_never_hold_own_receipt Hr) m Hin).
Defined.

(** X19. The view of a chat sends no request when the user is not known,
    when no message is shown or when the badge of the chat shows no
    unread message. Otherwise it asks to mark, in the order shown, each
    message that another user has sent and that it has not marked yet:
    it never asks for a receipt of the user's own message. *)
Theorem autoMark_skips_own_messages
  (userId chatId : string) (counts : Client.UnreadCounts)
  (markedAsRead : list string) (shown : list Message) (s : Store) :
  receipts_wf s ->
  (forall m, In m shown -> In m (messages s)) ->
  (userId = "" \/ shown = [] \/
   (Client.hasUnreadMessages counts chatId = false /\
    (0 <= Client.getUnreadCount counts chatId)%Z) ->
   ChatWindow.autoMark userId chatId counts markedAsRead shown = []) /\
  (forall c, In c (ChatWindow.autoMark userId chatId counts markedAsRead shown) ->
             ~ marks_own_message s c /\
             exists m, In m shown /\ c = markMessageAsRead (msg_id m) userId /\
                       msg_senderId m <> userId /\ ~ In (msg_id m) markedAsRead).
Proof.
  intros Hwf Hshown. split.
  - unfold ChatWindow.autoMark. intros [->|[->|[Hno Hnn]]].
    + reflexivity.
    + now rewrite orb_true_r.
    + destruct (String.eqb userId "" || (List.length shown =? 0)%nat); [reflexivity|].
      unfold Client.hasUnreadMessages in Hno. apply Z.ltb_ge in Hno.
      assert (Client.getUnreadCount counts chatId = 0%Z) as -> by lia. reflexivity.
  - intros c Hc. unfold ChatWindow.autoMark in Hc.
    destruct (String.eqb userId "" || (List.length shown =? 0)%nat); [destruct Hc|].
    destruct (Client.getUnreadCount counts chatId =? 0)%Z; [destruct Hc|].
    apply in_map_iff in Hc as [m [<- Hm]]. apply filter_In in Hm as [Hin Hf].
    apply negb_true_iff, orb_false_iff in Hf as [Hs Hk].
    apply String.eqb_neq in Hs. apply includes_not_In in Hk.
    split; [|exists m; auto].
    intros [m' [Hf' Hs']]. destruct (find_id_found _ _ Hf') as [Hin' Hid'].
    assert (m' = m) by (eapply key_unique; [exact (rw_ids Hwf) | | |]; auto).
    subst m'. contradiction.
Qed.

Lemma autoMark_skips_own_messages_witness :
  receipts_wf store_A /\
  ChatWindow.autoMark "U2" "uuid-0" [("uuid-0", 1%Z)] [] (messages store_A)
  = [markMessageAsRead "uuid-1" "U2"] /\
  ChatWindow.autoMark "U1" "uuid-0" [("uuid-0", 1%Z)] [] (messages store_A) = [] /\
  forall c, In c (ChatWindow.autoMark "U1" "uuid-0" [("uuid-0", 1%Z)] []
                                      (messages store_A)) ->
            ~ marks_own_message store_A c.
Proof.
  assert (Hwf : receipts_wf store_A).
  { apply reachable_by_readers_wf. unfold store_A, scenario_A, run. cbn [fold_left].
    apply by_readers_execute; [apply by_readers_execute; [constructor|]|]; intros []. }
  split; [exact Hwf|]. split; [vm_compute; reflexivity|].
  split; [vm_compute; reflexivity|].
  intros c Hc.
  exact (proj1 (proj2 (@autoMark_skips_own_messages
                         "U1" "uuid-0" [("uuid-0", 1%Z)] [] (messages store_A) store_A
                         Hwf (fun m H => H)) c Hc)).
Defined.
